(** * Cleaning-machine monitoring: the tracking engine, embedded and verified

    A shallow embedding of the stateful core of the monitoring system:

    - [YardStatus] and [Yard]          from [src/models/yard.py],
    - [MachineMessage] and [Machine]   from [src/models/machine.py],
    - [CleaningService]                from [src/services/cleaning_service.py],
    - [CleaningMonitoringSystem]       from [main.py] (batch mode),
    - [MessageTransmissionSimulator]   from [main.py], with the random
      draws as parameters.

    Conventions of the embedding.

    - A Python [float] is an exact rational ([Q]); comparisons are the
      boolean tests of [QArith].  Rounding is not modelled.
    - A [datetime] is an integer count of microseconds ([Z]), the resolution
      of the type; [timedelta.total_seconds()] divides by [10^6].  All
      datetimes of a run are of one kind (all naive or all aware), so that
      their subtraction is defined.
    - A Python [int] is [Z]; [Optional[T]] is [option T].
    - A [dict] keyed by integers is a [gmap Z _].
    - Objects mutated in place are returned updated by the embedded method;
      where the service mutates objects held in a dictionary, the dictionary
      and the machine travel in the state of a small state-and-exception
      monad, so that a mutation made before an exception survives it, as in
      Python.
    - Logger calls have no effect on the state and are left out. *)

From Stdlib Require Import ZArith QArith Qminmax Lqa Lia List Bool String.
From stdpp Require Import base option list gmap.
Import ListNotations.

Set Default Proof Using "Type".

(** ** Comparisons on floats *)

Definition Qlt_bool (x y : Q) : bool := negb (Qle_bool y x).

(** ** Exceptions *)

Inductive exn : Type := KeyError | ValueError.

Inductive outcome (A : Type) : Type :=
| Return (a : A)
| Raise (e : exn).
Arguments Return {A} a.
Arguments Raise {A} e.

(** ** [YardStatus] (yard.py) *)

Module YardStatus.

Inductive t : Type :=
| PERCENT_0 | PERCENT_20 | PERCENT_40 | PERCENT_60 | PERCENT_80 | PERCENT_100.

#[global] Instance eq_dec : EqDecision t.
Proof. solve_decision. Defined.

(** The [.value] of an enum member. *)
Definition value (s : t) : Z :=
  match s with
  | PERCENT_0 => 0 | PERCENT_20 => 20 | PERCENT_40 => 40
  | PERCENT_60 => 60 | PERCENT_80 => 80 | PERCENT_100 => 100
  end.

Definition get_status_by_percentage (percentage : Q) : t :=
  if Qle_bool 100 percentage then PERCENT_100
  else if Qle_bool 80 percentage then PERCENT_80
  else if Qle_bool 60 percentage then PERCENT_60
  else if Qle_bool 40 percentage then PERCENT_40
  else if Qle_bool 20 percentage then PERCENT_20
  else PERCENT_0.

(** [statuses.index(self)]: [None] stands for the [ValueError] of a missing
    element. *)
Fixpoint index (x : t) (l : list t) : option nat :=
  match l with
  | [] => None
  | y :: rest =>
      if decide (y = x) then Some 0%nat
      else match index x rest with
           | Some i => Some (S i)
           | None => None
           end
  end.

Definition get_next_status (self : t) : option t :=
  let statuses :=
    [PERCENT_0; PERCENT_20; PERCENT_40; PERCENT_60; PERCENT_80; PERCENT_100] in
  match index self statuses with
  | Some current_index =>
      if (current_index <? length statuses - 1)%nat
      then statuses !! (current_index + 1)%nat
      else None
  | None => None
  end.

End YardStatus.

(** ** [Yard] (yard.py) *)

(** The dictionary that [Yard.get_status_info] returns. *)
Module YardInfo.

Record t : Type := mk {
  yard_id : Z;
  area : Q;
  cleaning_speed : Q;
  current_status : YardStatus.t;
  completion_percentage : Q;
  cleaned_area : Q;
  remaining_area : Q;
  total_work_time : Q;
  is_fully_cleaned : bool;
  estimated_completion_time : Q;
  status_changes_count : Z
}.

End YardInfo.

Module Yard.

Record t : Type := mk {
  yard_id : Z;
  area : Q;
  cleaning_speed : Q;
  status : YardStatus.t;
  cleaned_area : Q;
  total_work_time : Q;
  status_history : list YardStatus.t
}.

(** [Yard.__init__]: the three checks raise [ValueError]. *)
Definition init (yard_id : Z) (area cleaning_speed : Q) : outcome t :=
  if (yard_id <=? 0)%Z then Raise ValueError
  else if Qle_bool area 0 then Raise ValueError
  else if Qle_bool cleaning_speed 0 then Raise ValueError
  else Return {| yard_id := yard_id;
                 area := area;
                 cleaning_speed := cleaning_speed;
                 status := YardStatus.PERCENT_0;
                 cleaned_area := 0;
                 total_work_time := 0;
                 status_history := [YardStatus.PERCENT_0] |}.

Definition get_completion_percentage (self : t) : Q :=
  if Qle_bool (area self) 0 then 0%Q
  else Qmin ((cleaned_area self / area self) * 100) 100.

(** [add_work_time] returns the mutated yard and the method's result. *)
Definition add_work_time (self : t) (work_time : Q) : t * option YardStatus.t :=
  if Qle_bool work_time 0 then (self, None)
  else
    let total := (total_work_time self + work_time)%Q in
    let cleaned_by_this_work := (work_time * cleaning_speed self)%Q in
    let cleaned := (cleaned_area self + cleaned_by_this_work)%Q in
    let cleaned := if Qlt_bool (area self) cleaned then area self else cleaned in
    let self1 := {| yard_id := yard_id self;
                    area := area self;
                    cleaning_speed := cleaning_speed self;
                    status := status self;
                    cleaned_area := cleaned;
                    total_work_time := total;
                    status_history := status_history self |} in
    let percentage := get_completion_percentage self1 in
    let new_status := YardStatus.get_status_by_percentage percentage in
    if decide (new_status <> status self1) then
      ({| yard_id := yard_id self1;
          area := area self1;
          cleaning_speed := cleaning_speed self1;
          status := new_status;
          cleaned_area := cleaned_area self1;
          total_work_time := total_work_time self1;
          status_history := status_history self1 ++ [new_status] |},
       Some new_status)
    else (self1, None).

(** A finite sequence of [add_work_time] calls on one yard: the final yard
    and the value each call returned, in call order. *)
Fixpoint add_work_times (self : t) (work_times : list Q)
  : t * list (option YardStatus.t) :=
  match work_times with
  | [] => (self, [])
  | w :: ws =>
      let '(self1, r) := add_work_time self w in
      let '(self2, rs) := add_work_times self1 ws in
      (self2, r :: rs)
  end.

Definition get_remaining_area (self : t) : Q :=
  Qmax 0 (area self - cleaned_area self).

Definition get_estimated_completion_time (self : t) : Q :=
  let remaining_area := get_remaining_area self in
  if Qle_bool remaining_area 0 || Qle_bool (cleaning_speed self) 0 then 0%Q
  else (remaining_area / cleaning_speed self)%Q.

Definition is_fully_cleaned (self : t) : bool :=
  bool_decide (status self = YardStatus.PERCENT_100).

Definition get_status_info (self : t) : YardInfo.t :=
  {| YardInfo.yard_id := yard_id self;
     YardInfo.area := area self;
     YardInfo.cleaning_speed := cleaning_speed self;
     YardInfo.current_status := status self;
     YardInfo.completion_percentage := get_completion_percentage self;
     YardInfo.cleaned_area := cleaned_area self;
     YardInfo.remaining_area := get_remaining_area self;
     YardInfo.total_work_time := total_work_time self;
     YardInfo.is_fully_cleaned := is_fully_cleaned self;
     YardInfo.estimated_completion_time := get_estimated_completion_time self;
     YardInfo.status_changes_count :=
       (Z.of_nat (length (status_history self)) - 1)%Z |}.

Definition reset_cleaning_progress (self : t) : t :=
  {| yard_id := yard_id self;
     area := area self;
     cleaning_speed := cleaning_speed self;
     status := YardStatus.PERCENT_0;
     cleaned_area := 0;
     total_work_time := 0;
     status_history := [YardStatus.PERCENT_0] |}.

End Yard.

(** ** [MachineMessage] and [Machine] (machine.py) *)

Module MachineMessage.

Record t : Type := mk {
  machine_id : Z;
  timestamp : Z;
  coordinates : Q * Q;
  yard_id : option Z
}.

(** The dataclass constructor followed by [__post_init__].  A coordinate
    pair always has two components, so the length check cannot fire. *)
Definition init (machine_id : Z) (timestamp : Z) (coordinates : Q * Q)
    (yard_id : option Z) : outcome t :=
  if (machine_id <=? 0)%Z then Raise ValueError
  else match yard_id with
       | Some y =>
           if (y <=? 0)%Z then Raise ValueError
           else Return (mk machine_id timestamp coordinates yard_id)
       | None => Return (mk machine_id timestamp coordinates yard_id)
       end.

End MachineMessage.

(** The dictionary [changes] that [update_position] returns. *)
Module Changes.

Record t : Type := mk {
  position_changed : bool;
  yard_changed : bool;
  entered_yard : option Z;
  left_yard : option Z;
  work_time_added : Q
}.

End Changes.

(** The dictionary that [Machine.get_current_status] returns. *)
Module MachineStatus.

Record t : Type := mk {
  machine_id : Z;
  coordinates : Q * Q;
  current_yard : option Z;
  last_update : option Z;
  total_yards_worked : Z;
  is_active : bool
}.

End MachineStatus.

Module Machine.

Record t : Type := mk {
  machine_id : Z;
  current_coordinates : Q * Q;
  last_update : option Z;
  current_yard_id : option Z;
  previous_yard_id : option Z;
  yard_work_history : gmap Z Q;
  _yard_entry_time : option Z
}.

Definition init (machine_id : Z) : outcome t :=
  if (machine_id <=? 0)%Z then Raise ValueError
  else Return {| machine_id := machine_id;
                 current_coordinates := (0, 0)%Q;
                 last_update := None;
                 current_yard_id := None;
                 previous_yard_id := None;
                 yard_work_history := ∅;
                 _yard_entry_time := None |}.

(** [(end_time - start_time).total_seconds()]. *)
Definition total_seconds (start_time end_time : Z) : Q :=
  inject_Z (end_time - start_time) / 1000000.

Definition _calculate_work_time (start_time end_time : option Z) : Q :=
  match start_time, end_time with
  | Some s, Some e =>
      let seconds := total_seconds s e in
      if Qlt_bool seconds 0 || Qlt_bool 3600 seconds then 0%Q
      else seconds
  | _, _ => 0%Q
  end.

(** [_add_work_time] on the dictionary it mutates.  The second statement
    reads and rewrites a key the first one made sure is present. *)
Definition _add_work_time (history : gmap Z Q) (yard_id : Z) (work_time : Q)
  : gmap Z Q :=
  let history1 :=
    match history !! yard_id with
    | None => <[yard_id := 0%Q]> history
    | Some _ => history
    end in
  alter (fun v => (v + work_time)%Q) yard_id history1.

Definition get_total_work_time_in_yard (self : t) (yard_id : Z) : Q :=
  default 0%Q (yard_work_history self !! yard_id).

(** Tuple comparison [old_coordinates != message.coordinates]. *)
Definition coordinates_differ (a b : Q * Q) : bool :=
  negb (Qeq_bool (fst a) (fst b) && Qeq_bool (snd a) (snd b)).

Definition update_position (self : t) (message : MachineMessage.t)
  : t * Changes.t :=
  let old_coordinates := current_coordinates self in
  let position_changed :=
    coordinates_differ old_coordinates (MachineMessage.coordinates message) in
  if decide (current_yard_id self <> MachineMessage.yard_id message) then
    (* the machine changes yard *)
    let '(history, work_time_added, left_yard) :=
      match current_yard_id self, _yard_entry_time self with
      | Some cur, Some _ =>
          let work_time :=
            _calculate_work_time (last_update self)
                                 (Some (MachineMessage.timestamp message)) in
          if Qlt_bool 0 work_time
          then (_add_work_time (yard_work_history self) cur work_time,
                work_time, Some cur)
          else (yard_work_history self, 0%Q, None)
      | _, _ => (yard_work_history self, 0%Q, None)
      end in
    ({| machine_id := machine_id self;
        current_coordinates := MachineMessage.coordinates message;
        last_update := Some (MachineMessage.timestamp message);
        current_yard_id := MachineMessage.yard_id message;
        previous_yard_id := current_yard_id self;
        yard_work_history := history;
        _yard_entry_time :=
          match MachineMessage.yard_id message with
          | Some _ => Some (MachineMessage.timestamp message)
          | None => None
          end |},
     {| Changes.position_changed := position_changed;
        Changes.yard_changed := true;
        Changes.entered_yard := MachineMessage.yard_id message;
        Changes.left_yard := left_yard;
        Changes.work_time_added := work_time_added |})
  else
    (* the machine stays where it was *)
    let '(history, work_time_added) :=
      match current_yard_id self, last_update self, _yard_entry_time self with
      | Some cur, Some _, Some _ =>
          let work_time :=
            _calculate_work_time (last_update self)
                                 (Some (MachineMessage.timestamp message)) in
          if Qlt_bool 0 work_time
          then (_add_work_time (yard_work_history self) cur work_time, work_time)
          else (yard_work_history self, 0%Q)
      | _, _, _ => (yard_work_history self, 0%Q)
      end in
    ({| machine_id := machine_id self;
        current_coordinates := MachineMessage.coordinates message;
        last_update := Some (MachineMessage.timestamp message);
        current_yard_id := current_yard_id self;
        previous_yard_id := previous_yard_id self;
        yard_work_history := history;
        _yard_entry_time := _yard_entry_time self |},
     {| Changes.position_changed := position_changed;
        Changes.yard_changed := false;
        Changes.entered_yard := None;
        Changes.left_yard := None;
        Changes.work_time_added := work_time_added |}).

(** A sequence of [update_position] calls on one machine. *)
Fixpoint update_positions (self : t) (messages : list MachineMessage.t) : t :=
  match messages with
  | [] => self
  | m :: ms => update_positions (fst (update_position self m)) ms
  end.

Definition get_current_status (self : t) : MachineStatus.t :=
  {| MachineStatus.machine_id := machine_id self;
     MachineStatus.coordinates := current_coordinates self;
     MachineStatus.current_yard := current_yard_id self;
     MachineStatus.last_update := last_update self;
     MachineStatus.total_yards_worked :=
       Z.of_nat (size (yard_work_history self));
     MachineStatus.is_active :=
       match current_yard_id self with Some _ => true | None => false end |}.

End Machine.

(** ** [CleaningService] (cleaning_service.py) *)

(** The dictionary [status_change] built by the service.  The source stores
  [timestamp.isoformat()]; the embedding keeps the instant it renders. *)
Module StatusChange.

Record t : Type := mk {
  yard_id : Z;
  old_status : YardStatus.t;
  new_status : YardStatus.t;
  timestamp : Z;
  machine_id : Z;
  work_time_added : Q
}.

End StatusChange.

(** The dictionaries that the statistics methods return.  A key that only
    one of a method's two [return] statements sets is an [option]. *)
Module YardStatistics.

Record t : Type := mk {
  total_yards : Z;
  cleaned_yards : Z;
  partially_cleaned_yards : Z;
  untouched_yards : option Z;
  average_completion : Q;
  total_area : Q;
  cleaned_area : Q;
  cleaning_efficiency : option Q
}.

End YardStatistics.

Module MachineStatistics.

Record t : Type := mk {
  total_machines : Z;
  active_machines : Z;
  idle_machines : Z;
  total_work_sessions : Z;
  average_work_sessions : option Q
}.

End MachineStatistics.

Module ProcessingStatistics.

Record t : Type := mk {
  total_messages_processed : Z;
  successful_messages : Z;
  failed_messages : Z;
  success_rate_percent : Q
}.

End ProcessingStatistics.

(** The messages of [validate_yard_consistency], each with the values its
    text is formatted from. *)
Inductive issue : Type :=
| StatusMismatch (yard_id : Z) (current expected : YardStatus.t)
| AreaExceeded (yard_id : Z) (cleaned_area area : Q)
| NegativeValues (yard_id : Z).

Module CleaningService.

Record t : Type := mk {
  _message_count : Z;
  _error_count : Z
}.

Definition init : t := {| _message_count := 0; _error_count := 0 |}.

(** The objects a call receives by reference and mutates in place. *)
Record store : Type := mkstore {
  machine : Machine.t;
  yards : gmap Z Yard.t
}.

(** Computations over the store that may raise. A raise keeps the store
    as the statements before it left it. *)
Definition M (A : Type) : Type := store -> store * outcome A.

Definition ret {A : Type} (a : A) : M A := fun s => (s, Return a).

Definition bind {A B : Type} (c : M A) (k : A -> M B) : M B :=
  fun s =>
    match c s with
    | (s1, Return a) => k a s1
    | (s1, Raise e) => (s1, Raise e)
    end.

Notation "x <- c ;; k" := (bind c (fun x => k))
  (at level 100, c at next level, right associativity).

(** [machine.update_position(message)] *)
Definition update_position (message : MachineMessage.t) : M Changes.t :=
  fun s =>
    let '(m, changes) := Machine.update_position (machine s) message in
    ({| machine := m; yards := yards s |}, Return changes).

(** Reading an attribute of [machine]. *)
Definition machine_attr {A : Type} (f : Machine.t -> A) : M A :=
  fun s => (s, Return (f (machine s))).

(** [k in yards] *)
Definition contains (k : Z) : M bool :=
  fun s => (s, Return (bool_decide (is_Some (yards s !! k)))).

(** [yards[k]]: [KeyError] when the key is absent. *)
Definition getitem (k : Z) : M Yard.t :=
  fun s =>
    match yards s !! k with
    | Some yard => (s, Return yard)
    | None => (s, Raise KeyError)
    end.

(** [yard.add_work_time(work_time)] on the object held at [yards[k]]. *)
Definition add_work_time (k : Z) (work_time : Q) : M (option YardStatus.t) :=
  yard <- getitem k ;;
  fun s =>
    let '(yard1, new_status) := Yard.add_work_time yard work_time in
    ({| machine := machine s; yards := <[k := yard1]> (yards s) |},
     Return new_status).

(** The block both call sites repeat after their guard:
    [yard = yards[k]; old_status = yard.status;
     new_status = yard.add_work_time(work_time);
     if new_status: status_change = {...}]. *)
Definition _credit_yard (k : Z) (work_time : Q) (timestamp : Z)
  : M (option StatusChange.t) :=
  yard <- getitem k ;;
  let old_status := Yard.status yard in
  new_status <- add_work_time k work_time ;;
  match new_status with
  | Some new_status =>
      machine_id <- machine_attr Machine.machine_id ;;
      ret (Some {| StatusChange.yard_id := Yard.yard_id yard;
                   StatusChange.old_status := old_status;
                   StatusChange.new_status := new_status;
                   StatusChange.timestamp := timestamp;
                   StatusChange.machine_id := machine_id;
                   StatusChange.work_time_added := work_time |})
  | None => ret None
  end.

Definition _handle_yard_change (changes : Changes.t) (timestamp : Z)
  : M (option StatusChange.t) :=
  (* the machine left a yard *)
  status_change <-
    match Changes.left_yard changes with
    | Some left_yard_id =>
        let work_time := Changes.work_time_added changes in
        known <- contains left_yard_id ;;
        if known && Qlt_bool 0 work_time
        then _credit_yard left_yard_id work_time timestamp
        else ret None
    | None => ret None
    end ;;
  (* the machine entered a yard: the yard is only read, for the log *)
  _ <- match Changes.entered_yard changes with
       | Some entered_yard_id =>
           known <- contains entered_yard_id ;;
           if known : bool
           then (yard <- getitem entered_yard_id ;; ret tt)
           else ret tt
       | None => ret tt
       end ;;
  ret status_change.

(** The body of the [try] block of [process_machine_update]. *)
Definition process_machine_update_body (message : MachineMessage.t)
  : M (option StatusChange.t) :=
  changes <- update_position message ;;
  if Changes.yard_changed changes then
    _handle_yard_change changes (MachineMessage.timestamp message)
  else
    current_yard_id <- machine_attr Machine.current_yard_id ;;
    match current_yard_id with
    | Some cur =>
        known <- contains cur ;;
        if Qlt_bool 0 (Changes.work_time_added changes) && known
        then _credit_yard cur (Changes.work_time_added changes)
                          (MachineMessage.timestamp message)
        else ret None
    | None => ret None
    end.

Definition process_machine_update (self : t) (machine : Machine.t)
    (message : MachineMessage.t) (yards : gmap Z Yard.t)
  : t * store * option StatusChange.t :=
  let self1 := {| _message_count := (_message_count self + 1)%Z;
                  _error_count := _error_count self |} in
  match process_machine_update_body message
          {| machine := machine; yards := yards |} with
  | (s, Return status_change) => (self1, s, status_change)
  | (s, Raise _) =>
      ({| _message_count := _message_count self1;
          _error_count := (_error_count self1 + 1)%Z |}, s, None)
  end.

(** [yards.values()] and [machines.values()].  The embedding lists a
    dictionary in the order of its keys, Python in the order of insertion;
    the two lists hold the same objects. *)
Definition values {A : Type} (d : gmap Z A) : list A :=
  map snd (map_to_list d).

(** The accumulators of the loop of [calculate_yard_statistics]. *)
Record yard_totals : Type := mk_yard_totals {
  acc_cleaned_yards : Z;
  acc_partially_cleaned_yards : Z;
  acc_total_area : Q;
  acc_cleaned_area : Q;
  acc_completion_sum : Q
}.

Definition yard_statistics_step (acc : yard_totals) (yard : Yard.t)
  : yard_totals :=
  let info := Yard.get_status_info yard in
  let fully := YardInfo.is_fully_cleaned info in
  let partly := Qlt_bool 0 (YardInfo.completion_percentage info) in
  {| acc_cleaned_yards :=
       if fully then (acc_cleaned_yards acc + 1)%Z else acc_cleaned_yards acc;
     acc_partially_cleaned_yards :=
       if fully then acc_partially_cleaned_yards acc
       else if partly then (acc_partially_cleaned_yards acc + 1)%Z
       else acc_partially_cleaned_yards acc;
     acc_total_area := (acc_total_area acc + YardInfo.area info)%Q;
     acc_cleaned_area := (acc_cleaned_area acc + YardInfo.cleaned_area info)%Q;
     acc_completion_sum :=
       (acc_completion_sum acc + YardInfo.completion_percentage info)%Q |}.

Definition calculate_yard_statistics (yards : gmap Z Yard.t)
  : YardStatistics.t :=
  match values yards with
  | [] =>
      {| YardStatistics.total_yards := 0;
         YardStatistics.cleaned_yards := 0;
         YardStatistics.partially_cleaned_yards := 0;
         YardStatistics.untouched_yards := None;
         YardStatistics.average_completion := 0;
         YardStatistics.total_area := 0;
         YardStatistics.cleaned_area := 0;
         YardStatistics.cleaning_efficiency := None |}
  | _ =>
      let total_yards := Z.of_nat (size yards) in
      let acc :=
        fold_left yard_statistics_step (values yards)
          {| acc_cleaned_yards := 0;
             acc_partially_cleaned_yards := 0;
             acc_total_area := 0;
             acc_cleaned_area := 0;
             acc_completion_sum := 0 |} in
      {| YardStatistics.total_yards := total_yards;
         YardStatistics.cleaned_yards := acc_cleaned_yards acc;
         YardStatistics.partially_cleaned_yards :=
           acc_partially_cleaned_yards acc;
         YardStatistics.untouched_yards :=
           Some (total_yards - acc_cleaned_yards acc
                 - acc_partially_cleaned_yards acc)%Z;
         YardStatistics.average_completion :=
           if (0 <? total_yards)%Z
           then (acc_completion_sum acc / inject_Z total_yards)%Q
           else 0%Q;
         YardStatistics.total_area := acc_total_area acc;
         YardStatistics.cleaned_area := acc_cleaned_area acc;
         YardStatistics.cleaning_efficiency :=
           Some (if Qlt_bool 0 (acc_total_area acc)
                 then (acc_cleaned_area acc / acc_total_area acc * 100)%Q
                 else 0%Q) |}
  end.

(** The loop of [calculate_machine_statistics]: [active_machines] and
    [total_work_sessions]. *)
Definition machine_statistics_step (acc : Z * Z) (machine : Machine.t) : Z * Z :=
  let status := Machine.get_current_status machine in
  (if MachineStatus.is_active status then (fst acc + 1)%Z else fst acc,
   (snd acc + MachineStatus.total_yards_worked status)%Z).

Definition calculate_machine_statistics (machines : gmap Z Machine.t)
  : MachineStatistics.t :=
  match values machines with
  | [] =>
      {| MachineStatistics.total_machines := 0;
         MachineStatistics.active_machines := 0;
         MachineStatistics.idle_machines := 0;
         MachineStatistics.total_work_sessions := 0;
         MachineStatistics.average_work_sessions := None |}
  | _ =>
      let total_machines := Z.of_nat (size machines) in
      let acc := fold_left machine_statistics_step (values machines) (0, 0)%Z in
      {| MachineStatistics.total_machines := total_machines;
         MachineStatistics.active_machines := fst acc;
         MachineStatistics.idle_machines := (total_machines - fst acc)%Z;
         MachineStatistics.total_work_sessions := snd acc;
         MachineStatistics.average_work_sessions :=
           Some (if (0 <? total_machines)%Z
                 then (inject_Z (snd acc) / inject_Z total_machines)%Q
                 else 0%Q) |}
  end.


(** The three checks of [validate_yard_consistency] on one yard. *)
Definition yard_issues (yard : Yard.t) : list issue :=
  let info := Yard.get_status_info yard in
  let expected_status :=
    YardStatus.get_status_by_percentage (YardInfo.completion_percentage info) in
  (if decide (YardInfo.current_status info <> expected_status)
   then [StatusMismatch (Yard.yard_id yard) (YardInfo.current_status info)
           expected_status]
   else [])
  ++ (if Qlt_bool (YardInfo.area info) (YardInfo.cleaned_area info)
      then [AreaExceeded (Yard.yard_id yard) (YardInfo.cleaned_area info)
              (YardInfo.area info)]
      else [])
  ++ (if Qlt_bool (YardInfo.cleaned_area info) 0
         || Qlt_bool (YardInfo.total_work_time info) 0
      then [NegativeValues (Yard.yard_id yard)]
      else []).

Definition validate_yard_consistency (yards : gmap Z Yard.t) : list issue :=
  fold_left (fun issues yard => issues ++ yard_issues yard) (values yards) [].

End CleaningService.

(** ** [CleaningMonitoringSystem] (main.py), batch mode *)

Module CleaningMonitoringSystem.

Record t : Type := mk {
  cleaning_service : CleaningService.t;
  machines : gmap Z Machine.t;
  yards : gmap Z Yard.t;
  status_changes : list StatusChange.t;
  realtime_mode : bool;
  processing_active : bool;
  processed_messages : Z
}.

Definition init (realtime_mode : bool) : t :=
  {| cleaning_service := CleaningService.init;
     machines := ∅;
     yards := ∅;
     status_changes := [];
     realtime_mode := realtime_mode;
     processing_active := false;
     processed_messages := 0 |}.

(** One record of the yard directory, as the file handler hands it over. *)
Record yard_info : Type := mk_yard_info {
  yi_yard_id : Z;
  yi_area : Q;
  yi_cleaning_speed : Q
}.

(** The loop of [load_yard_directory]: a yard that fails construction
    aborts the loop, the yards stored before it stay. *)
Fixpoint load_yards (yards : gmap Z Yard.t) (yard_data : list yard_info)
  : gmap Z Yard.t * bool :=
  match yard_data with
  | [] => (yards, true)
  | info :: rest =>
      match Yard.init (yi_yard_id info) (yi_area info) (yi_cleaning_speed info) with
      | Return yard => load_yards (<[Yard.yard_id yard := yard]> yards) rest
      | Raise _ => (yards, false)
      end
  end.

Definition set_yards (self : t) (yards : gmap Z Yard.t) : t :=
  {| cleaning_service := cleaning_service self;
     machines := machines self;
     yards := yards;
     status_changes := status_changes self;
     realtime_mode := realtime_mode self;
     processing_active := processing_active self;
     processed_messages := processed_messages self |}.

Definition load_yard_directory (self : t) (yard_data : list yard_info)
  : t * bool :=
  let '(yards, ok) := load_yards (yards self) yard_data in
  (set_yards self yards, ok).

(** One record of the message file, as the file handler hands it over:
    the timestamp is still a string. *)
Record message_data : Type := mk_message_data {
  md_machine_id : Z;
  md_timestamp : string;
  md_x : Q;
  md_y : Q;
  md_yard_id : option Z
}.

Section Batch.

(** [datetime.fromisoformat]: [ValueError] on a string it rejects. *)
Variable fromisoformat : string -> outcome Z.

Definition parse_message (data : message_data) : outcome MachineMessage.t :=
  match fromisoformat (md_timestamp data) with
  | Return timestamp =>
      MachineMessage.init (md_machine_id data) timestamp
                          (md_x data, md_y data) (md_yard_id data)
  | Raise e => Raise e
  end.

Definition _process_single_message (self : t) (data : message_data)
  : t * bool :=
  match parse_message data with
  | Raise _ => (self, false)
  | Return message =>
      let id := MachineMessage.machine_id message in
      (* get or create the machine *)
      let created :=
        match machines self !! id with
        | Some _ => Return (machines self)
        | None =>
            match Machine.init id with
            | Return machine => Return (<[id := machine]> (machines self))
            | Raise e => Raise e
            end
        end in
      match created with
      | Raise _ => (self, false)
      | Return machines1 =>
          match machines1 !! id with
          | None => (* KeyError *)
              ({| cleaning_service := cleaning_service self;
                  machines := machines1;
                  yards := yards self;
                  status_changes := status_changes self;
                  realtime_mode := realtime_mode self;
                  processing_active := processing_active self;
                  processed_messages := processed_messages self |}, false)
          | Some machine =>
              let '(service, s, status_change) :=
                CleaningService.process_machine_update
                  (cleaning_service self) machine message (yards self) in
              ({| cleaning_service := service;
                  machines := <[id := CleaningService.machine s]> machines1;
                  yards := CleaningService.yards s;
                  status_changes :=
                    match status_change with
                    | Some change => status_changes self ++ [change]
                    | None => status_changes self
                    end;
                  realtime_mode := realtime_mode self;
                  processing_active := processing_active self;
                  processed_messages := processed_messages self |}, true)
          end
      end
  end.

(** [_process_messages_batch]: the final system and [processed_count]. *)
Fixpoint _process_messages_batch (self : t) (messages : list message_data)
  : t * Z :=
  match messages with
  | [] => (self, 0%Z)
  | data :: rest =>
      let '(self1, ok) := _process_single_message self data in
      let '(self2, processed_count) := _process_messages_batch self1 rest in
      (self2, if ok then (processed_count + 1)%Z else processed_count)
  end.

End Batch.

End CleaningMonitoringSystem.


(** ** [MessageTransmissionSimulator] (main.py) *)

Module MessageTransmissionSimulator.

Record t : Type := mk {
  message_interval : Q;
  loss_rate : Q;
  coordinate_error_rate : Q;
  max_delay : Q;
  total_generated : Z;
  total_lost : Z;
  total_delayed : Z;
  total_with_errors : Z
}.

Definition init (message_interval loss_rate coordinate_error_rate max_delay : Q)
  : t :=
  {| message_interval := message_interval;
     loss_rate := loss_rate;
     coordinate_error_rate := coordinate_error_rate;
     max_delay := max_delay;
     total_generated := 0;
     total_lost := 0;
     total_delayed := 0;
     total_with_errors := 0 |}.

(** The four strings that [_add_coordinate_error] chooses from. *)
Inductive error_type : Type := Offset | Noise | Swap | Scale.

(** What can stop [simulate_transmission]: a division by a zero
    [processing_speed], and [time.sleep] called with a negative length. *)
Inductive failure : Type := ZeroDivisionError | SleepValueError.

(** The dictionary of [get_transmission_stats]. *)
Record stats : Type := mk_stats {
  st_total_generated : Z;
  st_total_delivered : Z;
  st_total_lost : Z;
  st_total_delayed : Z;
  st_total_with_errors : Z;
  st_delivery_rate : Q;
  st_error_rate : Q
}.

Definition set_counters (self : t) (generated lost delayed with_errors : Z) : t :=
  {| message_interval := message_interval self;
     loss_rate := loss_rate self;
     coordinate_error_rate := coordinate_error_rate self;
     max_delay := max_delay self;
     total_generated := generated;
     total_lost := lost;
     total_delayed := delayed;
     total_with_errors := with_errors |}.

(** [time.sleep(length / processing_speed)]: nothing happens to the state,
    but the call can fail. *)
Definition sleep (length processing_speed : Q) : option failure :=
  if Qeq_bool processing_speed 0 then Some ZeroDivisionError
  else if Qlt_bool (length / processing_speed) 0 then Some SleepValueError
  else None.

Definition get_transmission_stats (self : t) : stats :=
  let delivered := (total_generated self - total_lost self)%Z in
  {| st_total_generated := total_generated self;
     st_total_delivered := delivered;
     st_total_lost := total_lost self;
     st_total_delayed := total_delayed self;
     st_total_with_errors := total_with_errors self;
     st_delivery_rate :=
       if (0 <? total_generated self)%Z
       then (inject_Z delivered / inject_Z (total_generated self) * 100)%Q
       else 0%Q;
     st_error_rate :=
       if (0 <? delivered)%Z
       then (inject_Z (total_with_errors self) / inject_Z delivered * 100)%Q
       else 0%Q |}.

Section Random.

(** The module [random] with its hidden generator state, and the built-in
    [round] at two digits. *)
Variable rng : Type.
Variable random_random : rng -> Q * rng.
Variable random_uniform : Q -> Q -> rng -> Q * rng.
(** [random.choice(['offset', 'noise', 'swap', 'scale'])] *)
Variable random_choice : rng -> error_type * rng.
(** [round(x, 2)] *)
Variable round2 : Q -> Q.

Definition set_xy (message : CleaningMonitoringSystem.message_data) (x y : Q)
  : CleaningMonitoringSystem.message_data :=
  {| CleaningMonitoringSystem.md_machine_id :=
       CleaningMonitoringSystem.md_machine_id message;
     CleaningMonitoringSystem.md_timestamp :=
       CleaningMonitoringSystem.md_timestamp message;
     CleaningMonitoringSystem.md_x := x;
     CleaningMonitoringSystem.md_y := y;
     CleaningMonitoringSystem.md_yard_id :=
       CleaningMonitoringSystem.md_yard_id message |}.

Definition _add_coordinate_error
    (message : CleaningMonitoringSystem.message_data) (g : rng)
  : CleaningMonitoringSystem.message_data * rng :=
  let '(error_type, g) := random_choice g in
  let x := CleaningMonitoringSystem.md_x message in
  let y := CleaningMonitoringSystem.md_y message in
  match error_type with
  | Offset =>
      let '(offset_x, g) := random_uniform (-8) 8 g in
      let '(offset_y, g) := random_uniform (-8) 8 g in
      (set_xy message (round2 (x + offset_x)) (round2 (y + offset_y)), g)
  | Noise =>
      let '(noise_x, g) := random_uniform (-4) 4 g in
      let '(noise_y, g) := random_uniform (-4) 4 g in
      (set_xy message (round2 (x + noise_x)) (round2 (y + noise_y)), g)
  | Swap => (set_xy message (round2 y) (round2 x), g)
  | Scale =>
      let '(scale, g) := random_uniform 0.85 1.15 g in
      (set_xy message (round2 (x * scale)) (round2 (y * scale)), g)
  end.

(** The loop of [simulate_transmission].  The queue is the list of the
    items put so far, oldest first; [None] in the last component means the
    loop ran to its end. *)
Fixpoint transmit (self : t)
    (messages : list CleaningMonitoringSystem.message_data)
    (message_queue : list (option CleaningMonitoringSystem.message_data))
    (processing_speed : Q) (g : rng)
  : t * list (option CleaningMonitoringSystem.message_data) * rng
    * option failure :=
  match messages with
  | [] => (self, message_queue, g, None)
  | message :: rest =>
      let self :=
        set_counters self (total_generated self + 1) (total_lost self)
          (total_delayed self) (total_with_errors self) in
      let '(r, g) := random_random g in
      if Qlt_bool r (loss_rate self) then
        (* the message is lost *)
        let self :=
          set_counters self (total_generated self) (total_lost self + 1)
            (total_delayed self) (total_with_errors self) in
        let '(pause, g) := random_uniform 0.5 (message_interval self) g in
        match sleep pause processing_speed with
        | Some e => (self, message_queue, g, Some e)
        | None => transmit self rest message_queue processing_speed g
        end
      else
        let '(transmission_delay, g) := random_uniform 0 (max_delay self) g in
        let self :=
          if Qlt_bool 0.8 transmission_delay
          then set_counters self (total_generated self) (total_lost self)
                 (total_delayed self + 1) (total_with_errors self)
          else self in
        let '(r, g) := random_random g in
        let '(self, processed_message, g) :=
          if Qlt_bool r (coordinate_error_rate self)
          then
            let '(corrupted, g) := _add_coordinate_error message g in
            (set_counters self (total_generated self) (total_lost self)
               (total_delayed self) (total_with_errors self + 1),
             corrupted, g)
          else (self, message, g) in
        match sleep transmission_delay processing_speed with
        | Some e => (self, message_queue, g, Some e)
        | None =>
            let message_queue := message_queue ++ [Some processed_message] in
            let '(actual_interval, g) :=
              random_uniform (message_interval self * 0.8)
                             (message_interval self * 1.2) g in
            match sleep actual_interval processing_speed with
            | Some e => (self, message_queue, g, Some e)
            | None => transmit self rest message_queue processing_speed g
            end
        end
  end.

(** [simulate_transmission]: the second log line divides by
    [processing_speed] before the loop starts; after the loop the sentinel
    [None] is put. *)
Definition simulate_transmission (self : t)
    (messages : list CleaningMonitoringSystem.message_data)
    (message_queue : list (option CleaningMonitoringSystem.message_data))
    (processing_speed : Q) (g : rng)
  : t * list (option CleaningMonitoringSystem.message_data) * rng
    * option failure :=
  if Qeq_bool processing_speed 0
  then (self, message_queue, g, Some ZeroDivisionError)
  else
    match transmit self messages message_queue processing_speed g with
    | (self1, queue1, g1, None) => (self1, queue1 ++ [None], g1, None)
    | (self1, queue1, g1, Some e) => (self1, queue1, g1, Some e)
    end.

End Random.

End MessageTransmissionSimulator.

(** ** Predicates used by the statements *)

(** A list of band values that grows strictly from each element to the next. *)
Fixpoint strictly_increasing (l : list Z) : bool :=
  match l with
  | a :: (b :: _) as tl => (a <? b)%Z && strictly_increasing tl
  | _ => true
  end.

(** The number of calls of a trace that reported a band transition. *)
Fixpoint count_transitions (results : list (option YardStatus.t)) : nat :=
  match results with
  | [] => 0%nat
  | Some _ :: rs => S (count_transitions rs)
  | None :: rs => count_transitions rs
  end.

(** What [Yard.__init__] establishes and [add_work_time] maintains. *)
Definition yard_inv (y : Yard.t) : Prop :=
  (0 < Yard.area y)%Q /\
  (0 < Yard.cleaning_speed y)%Q /\
  (0 <= Yard.cleaned_area y)%Q /\
  (Yard.cleaned_area y <= Yard.area y)%Q /\
  (0 <= Yard.total_work_time y)%Q /\
  Yard.status y
    = YardStatus.get_status_by_percentage (Yard.get_completion_percentage y) /\
  head (Yard.status_history y) = Some YardStatus.PERCENT_0 /\
  last (Yard.status_history y) = Some (Yard.status y) /\
  strictly_increasing (map YardStatus.value (Yard.status_history y)) = true.

(** The membership part of the machine invariant. *)
Definition entry_time_inv (m : Machine.t) : Prop :=
  is_Some (Machine._yard_entry_time m) <-> is_Some (Machine.current_yard_id m).

(** The work time [update_position] computes for a report. *)
Definition report_work_time (m : Machine.t) (message : MachineMessage.t) : Q :=
  Machine._calculate_work_time (Machine.last_update m)
                               (Some (MachineMessage.timestamp message)).

(** Whether [update_position] reaches one of its two [_add_work_time] calls. *)
Definition dwell_credited (m : Machine.t) (message : MachineMessage.t) : bool :=
  match Machine.current_yard_id m, Machine._yard_entry_time m with
  | Some _, Some _ => Qlt_bool 0 (report_work_time m message)
  | _, _ => false
  end.

(** Every accumulated dwell time of the machine is non-negative. *)
Definition dwell_nonneg (m : Machine.t) : Prop :=
  forall (k : Z) (v : Q), Machine.yard_work_history m !! k = Some v -> (0 <= v)%Q.

(** No accumulated dwell time of [m] is lost or lowered in [m']. *)
Definition dwell_le (m m' : Machine.t) : Prop :=
  forall (k : Z) (v : Q),
    Machine.yard_work_history m !! k = Some v ->
    exists v', Machine.yard_work_history m' !! k = Some v' /\ (v <= v')%Q.

(** The effect of [process_machine_update] in one expression: the machine is
    updated by [update_position]; when that call credits dwell, the yard the
    machine was in, if the directory has it, receives the work time.  Proved
    equal to the service's code in [process_machine_update_effect]. *)
Definition service_effect (self : CleaningService.t) (m : Machine.t)
    (message : MachineMessage.t) (yards : gmap Z Yard.t)
  : CleaningService.t * CleaningService.store * option StatusChange.t :=
  let m' := fst (Machine.update_position m message) in
  let w := report_work_time m message in
  let self1 :=
    {| CleaningService._message_count :=
         (CleaningService._message_count self + 1)%Z;
       CleaningService._error_count := CleaningService._error_count self |} in
  let idle :=
    (self1, {| CleaningService.machine := m'; CleaningService.yards := yards |},
     None) in
  if dwell_credited m message then
    match Machine.current_yard_id m with
    | Some k =>
        match yards !! k with
        | Some yard =>
            (self1,
             {| CleaningService.machine := m';
                CleaningService.yards :=
                  <[k := fst (Yard.add_work_time yard w)]> yards |},
             match snd (Yard.add_work_time yard w) with
             | Some new_status =>
                 Some {| StatusChange.yard_id := Yard.yard_id yard;
                         StatusChange.old_status := Yard.status yard;
                         StatusChange.new_status := new_status;
                         StatusChange.timestamp := MachineMessage.timestamp message;
                         StatusChange.machine_id := Machine.machine_id m;
                         StatusChange.work_time_added := w |}
             | None => None
             end)
        | None => idle
        end
    | None => idle
    end
  else idle.

(** Every yard of the directory is stored under its own id, as
    [load_yard_directory] stores it. *)
Definition directory_keyed (yards : gmap Z Yard.t) : Prop :=
  forall (k : Z) (yard : Yard.t), yards !! k = Some yard -> Yard.yard_id yard = k.

(** ** Sample data for the worked examples *)

(** A machine that entered yard 3 at t=0 and has not reported since. *)
Definition machine_in_yard_3 : Machine.t :=
  {| Machine.machine_id := 7;
     Machine.current_coordinates := (1, 1)%Q;
     Machine.last_update := Some 0%Z;
     Machine.current_yard_id := Some 3%Z;
     Machine.previous_yard_id := None;
     Machine.yard_work_history := ∅;
     Machine._yard_entry_time := Some 0%Z |}.

(** A report of machine 7 from yard 3, 50 seconds after t=0. *)
Definition report_yard_3_at_50s : MachineMessage.t :=
  MachineMessage.mk 7 50000000 (2, 1)%Q (Some 3%Z).

(** A report of machine 7 from outside all yards, 120 seconds after t=0. *)
Definition report_outside_at_120s : MachineMessage.t :=
  MachineMessage.mk 7 120000000 (5, 5)%Q None.

(** The yard of the worked examples: id 1, area 100, cleaning rate 1. *)
Definition yard_1 : Yard.t :=
  {| Yard.yard_id := 1;
     Yard.area := 100;
     Yard.cleaning_speed := 1;
     Yard.status := YardStatus.PERCENT_0;
     Yard.cleaned_area := 0;
     Yard.total_work_time := 0;
     Yard.status_history := [YardStatus.PERCENT_0] |}.

(** A report of machine 7 from inside yard 1 at t=0. *)
Definition report_yard_1_at_0 : MachineMessage.t :=
  MachineMessage.mk 7 0 (1, 1)%Q (Some 1%Z).

(** A report of machine 7 from yard 9, which no directory below has,
    50 seconds after t=0. *)
Definition report_yard_9_at_50s : MachineMessage.t :=
  MachineMessage.mk 7 50000000 (2, 2)%Q (Some 9%Z).

(** A machine that entered yard 1 at t=0 and has not reported since. *)
Definition machine_in_yard_1 : Machine.t :=
  {| Machine.machine_id := 7;
     Machine.current_coordinates := (1, 1)%Q;
     Machine.last_update := Some 0%Z;
     Machine.current_yard_id := Some 1%Z;
     Machine.previous_yard_id := None;
     Machine.yard_work_history := ∅;
     Machine._yard_entry_time := Some 0%Z |}.

(** A stand-in for [datetime.fromisoformat] in the examples: it reads a
    string of decimal digits as a count of microseconds and rejects every
    other string. *)
Fixpoint read_digits (acc : Z) (s : string) : outcome Z :=
  match s with
  | EmptyString => Return acc
  | String c rest =>
      let d := Z.of_nat (Ascii.nat_of_ascii c) in
      if (48 <=? d)%Z && (d <=? 57)%Z
      then read_digits (10 * acc + (d - 48))%Z rest
      else Raise ValueError
  end.

Definition digits_clock (s : string) : outcome Z :=
  match s with
  | EmptyString => Raise ValueError
  | _ => read_digits 0 s
  end.

(** Two records of a message file: machine 7 in yard 1 at t=0, then outside
    all yards 120 seconds later; and a record whose timestamp does not
    parse. *)
Definition batch_messages : list CleaningMonitoringSystem.message_data :=
  [ CleaningMonitoringSystem.mk_message_data 7 "0" 1 1 (Some 1%Z);
    CleaningMonitoringSystem.mk_message_data 7 "yesterday" 2 2 (Some 1%Z);
    CleaningMonitoringSystem.mk_message_data 7 "120000000" 5 5 None ].

(** A system whose directory holds yard 1 and that has seen no message. *)
Definition fresh_system : CleaningMonitoringSystem.t :=
  fst (CleaningMonitoringSystem.load_yard_directory
         (CleaningMonitoringSystem.init false)
         [CleaningMonitoringSystem.mk_yard_info 1 100 1]).

(** ** Measures used by the further properties *)

(** The arguments of a call sequence that [add_work_time] does not reject. *)
Definition accepted_work_times (work_times : list Q) : list Q :=
  List.filter (fun w => negb (Qle_bool w 0)) work_times.

(** The sum of [f] over the values of a dictionary. *)
Definition sum_over {A : Type} (f : A -> Q) (m : gmap Z A) : Q :=
  map_fold (fun _ a acc => (acc + f a)%Q) 0%Q m.



(** Every accumulated dwell time of the machine is positive. *)
Definition dwell_positive (m : Machine.t) : Prop :=
  forall (k : Z) (v : Q), Machine.yard_work_history m !! k = Some v -> (0 < v)%Q.

(** What [validate_yard_consistency] checks on one yard. *)
Definition yard_consistent (y : Yard.t) : Prop :=
  Yard.status y
    = YardStatus.get_status_by_percentage (Yard.get_completion_percentage y) /\
  (Yard.cleaned_area y <= Yard.area y)%Q /\
  (0 <= Yard.cleaned_area y)%Q /\
  (0 <= Yard.total_work_time y)%Q.

(** Every yard of the directory satisfies the yard invariant. *)
Definition directory_inv (yards : gmap Z Yard.t) : Prop :=
  forall (k : Z) (yard : Yard.t), yards !! k = Some yard -> yard_inv yard.

(** The machine that [Machine.__init__] builds for a positive id. *)
Definition fresh_machine (id : Z) : Machine.t :=
  {| Machine.machine_id := id;
     Machine.current_coordinates := (0, 0)%Q;
     Machine.last_update := None;
     Machine.current_yard_id := None;
     Machine.previous_yard_id := None;
     Machine.yard_work_history := ∅;
     Machine._yard_entry_time := None |}.

(** The dwell that all machines of a store have accumulated in yard [k]. *)
Definition fleet_dwell (machines : gmap Z Machine.t) (k : Z) : Q :=
  sum_over (fun m => Machine.get_total_work_time_in_yard m k) machines.

(** Every yard's total work time is the dwell the machines recorded for it. *)
Definition work_time_accounted (s : CleaningMonitoringSystem.t) : Prop :=
  forall (k : Z) (y : Yard.t),
    CleaningMonitoringSystem.yards s !! k = Some y ->
    (Yard.total_work_time y
     == fleet_dwell (CleaningMonitoringSystem.machines s) k)%Q.

(** Every machine of the store is stored under its own id and satisfies the
    machine invariant. *)
Definition machines_inv (machines : gmap Z Machine.t) : Prop :=
  forall (id : Z) (m : Machine.t),
    machines !! id = Some m ->
    Machine.machine_id m = id /\ (0 < id)%Z /\
    entry_time_inv m /\ dwell_positive m.

Section BatchMeasures.

Variable fromisoformat : string -> outcome Z.

(** The records of a message file that pass the constructor's checks. *)
Definition valid_message (data : CleaningMonitoringSystem.message_data) : bool :=
  match CleaningMonitoringSystem.parse_message fromisoformat data with
  | Return _ => true
  | Raise _ => false
  end.


End BatchMeasures.

(** The events of a log that concern yard [k]. *)
Definition events_of_yard (k : Z) (log : list StatusChange.t)
  : list StatusChange.t :=
  List.filter (fun ev => (StatusChange.yard_id ev =? k)%Z) log.

(** A record of the yard directory passes the checks of [Yard.__init__]. *)
Definition valid_yard_info (info : CleaningMonitoringSystem.yard_info) : Prop :=
  (0 < CleaningMonitoringSystem.yi_yard_id info)%Z /\
  (0 < CleaningMonitoringSystem.yi_area info)%Q /\
  (0 < CleaningMonitoringSystem.yi_cleaning_speed info)%Q.

(** What identifies a report apart from its coordinates. *)
Definition message_key (message : CleaningMonitoringSystem.message_data)
  : Z * string * option Z :=
  (CleaningMonitoringSystem.md_machine_id message,
   CleaningMonitoringSystem.md_timestamp message,
   CleaningMonitoringSystem.md_yard_id message).

(** A stand-in for the module [random] in the examples: the generator
    state is the list of the values [random.random()] will return (1/2 once
    the list is used up); [random.uniform] returns its lower bound and
    [random.choice] the coordinate swap. *)
Definition listed_random (g : list Q) : Q * list Q :=
  match g with
  | [] => ((1 # 2)%Q, [])
  | r :: rest => (r, rest)
  end.

Definition lower_bound_uniform (a b : Q) (g : list Q) : Q * list Q := (a, g).

Definition always_swap (g : list Q)
  : MessageTransmissionSimulator.error_type * list Q :=
  (MessageTransmissionSimulator.Swap, g).

(** The simulator as [_process_messages_realtime] builds it. *)
Definition realtime_simulator : MessageTransmissionSimulator.t :=
  MessageTransmissionSimulator.init 1 0.06 0.015 2.

(** Three records of a message file, with timestamps in order. *)
Definition transmitted_messages : list CleaningMonitoringSystem.message_data :=
  [ CleaningMonitoringSystem.mk_message_data 7 "0" 1 1 (Some 1%Z);
    CleaningMonitoringSystem.mk_message_data 8 "1000000" 3 4 None;
    CleaningMonitoringSystem.mk_message_data 7 "2000000" 2 1 (Some 1%Z) ].

(** * Facts *)

(** ** Float comparisons *)

Lemma Qlt_bool_iff (x y : Q) : Qlt_bool x y = true <-> (x < y)%Q.
Proof.
unfold Qlt_bool. rewrite negb_true_iff. split.
- intros H. apply Qnot_le_lt. intros Hle.
  apply Qle_bool_iff in Hle. congruence.
- intros H. destruct (Qle_bool y x) eqn:E; [|reflexivity].
  apply Qle_bool_iff in E. lra.
Qed.

Lemma Qlt_bool_false_iff (x y : Q) : Qlt_bool x y = false <-> (y <= x)%Q.
Proof.
unfold Qlt_bool. rewrite negb_false_iff. apply Qle_bool_iff.
Qed.

Lemma Qle_bool_false_iff (x y : Q) : Qle_bool x y = false <-> (y < x)%Q.
Proof.
rewrite <- Qlt_bool_iff. unfold Qlt_bool.
destruct (Qle_bool x y); simpl; intuition congruence.
Qed.

(** Destructs every float comparison of the goal and turns the recorded
  outcomes into order facts usable by [lra]. *)
Ltac Qcases :=
repeat match goal with
| |- context [Qle_bool ?a ?b] =>
    let E := fresh "E" in
    destruct (Qle_bool a b) eqn:E;
    [apply Qle_bool_iff in E | apply Qle_bool_false_iff in E]
| |- context [Qlt_bool ?a ?b] =>
    let E := fresh "E" in
    destruct (Qlt_bool a b) eqn:E;
    [apply Qlt_bool_iff in E | apply Qlt_bool_false_iff in E]
end.

(** ** The quantization rule *)

Section YardFacts.
Local Open Scope Q_scope.

Lemma get_status_by_percentage_mono (p q : Q) :
  p <= q ->
  (YardStatus.value (YardStatus.get_status_by_percentage p)
   <= YardStatus.value (YardStatus.get_status_by_percentage q))%Z.
Proof.
  intros Hpq. unfold YardStatus.get_status_by_percentage.
  Qcases; simpl; try lia; lra.
Qed.

Lemma value_inj (a b : YardStatus.t) :
  YardStatus.value a = YardStatus.value b -> a = b.
Proof. destruct a, b; simpl; intros H; try reflexivity; discriminate H. Qed.

(** C3. The band of a percentage is the highest of the six thresholds
    100, 80, 60, 40, 20 the percentage reaches, and 0 when it reaches none;
    the six cases exclude one another, so every percentage has exactly one
    band.  Completion fractions 0.79, 0.80 and 1.00 give the bands 60, 80
    and 100. *)
Theorem get_status_by_percentage_spec :
  (forall p : Q,
     let b := YardStatus.get_status_by_percentage p in
     (b = YardStatus.PERCENT_100 /\ 100 <= p) \/
     (b = YardStatus.PERCENT_80 /\ 80 <= p /\ p < 100) \/
     (b = YardStatus.PERCENT_60 /\ 60 <= p /\ p < 80) \/
     (b = YardStatus.PERCENT_40 /\ 40 <= p /\ p < 60) \/
     (b = YardStatus.PERCENT_20 /\ 20 <= p /\ p < 40) \/
     (b = YardStatus.PERCENT_0 /\ p < 20)) /\
  YardStatus.get_status_by_percentage (0.79 * 100) = YardStatus.PERCENT_60 /\
  YardStatus.get_status_by_percentage (0.80 * 100) = YardStatus.PERCENT_80 /\
  YardStatus.get_status_by_percentage (1.00 * 100) = YardStatus.PERCENT_100.
Proof.
  split; [|repeat split; reflexivity].
  intros p b. subst b. unfold YardStatus.get_status_by_percentage.
  Qcases; intuition lra.
Qed.

(** ** The yard invariant *)

Lemma strictly_increasing_snoc (l : list Z) (x y : Z) :
  strictly_increasing l = true ->
  last l = Some x ->
  (x < y)%Z ->
  strictly_increasing (l ++ [y]) = true.
Proof.
  induction l as [|a [|b tl] IH]; intros Hs Hl Hxy.
  - discriminate Hl.
  - simpl in *. injection Hl as ->. rewrite andb_true_r. now apply Z.ltb_lt.
  - change (strictly_increasing ((a :: b :: tl) ++ [y]))
      with ((a <? b)%Z && strictly_increasing ((b :: tl) ++ [y])).
    change (strictly_increasing (a :: b :: tl))
      with ((a <? b)%Z && strictly_increasing (b :: tl)) in Hs.
    apply andb_true_iff in Hs as [Hab Hs]. rewrite Hab. simpl andb.
    apply IH; auto.
Qed.

Lemma last_map_value (l : list YardStatus.t) (s : YardStatus.t) :
  last l = Some s -> last (map YardStatus.value l) = Some (YardStatus.value s).
Proof.
  induction l as [|a [|b tl] IH]; intros H.
  - discriminate H.
  - injection H as ->. reflexivity.
  - apply IH. exact H.
Qed.

Lemma completion_percentage_mono (y1 y2 : Yard.t) :
  0 < Yard.area y1 ->
  Yard.area y2 = Yard.area y1 ->
  Yard.cleaned_area y1 <= Yard.cleaned_area y2 ->
  Yard.get_completion_percentage y1 <= Yard.get_completion_percentage y2.
Proof.
  intros Ha Harea Hc. unfold Yard.get_completion_percentage. rewrite Harea.
  destruct (Qle_bool (Yard.area y1) 0) eqn:E.
  - apply Qle_bool_iff in E. lra.
  - apply Q.min_le_compat_r.
    apply Qmult_le_compat_r; [|lra].
    apply Qmult_le_compat_r; [exact Hc|].
    apply Qinv_le_0_compat. lra.
Qed.

Lemma init_inv (i : Z) (a s : Q) (y : Yard.t) :
  Yard.init i a s = Return y ->
  yard_inv y /\ Yard.area y = a /\ Yard.cleaning_speed y = s /\
  Yard.yard_id y = i /\ (0 < i)%Z /\
  Yard.cleaned_area y = 0 /\ Yard.total_work_time y = 0 /\
  Yard.status y = YardStatus.PERCENT_0 /\
  Yard.status_history y = [YardStatus.PERCENT_0].
Proof.
  unfold Yard.init. destruct (i <=? 0)%Z eqn:Ei; [discriminate|].
  apply Z.leb_gt in Ei.
  destruct (Qle_bool a 0) eqn:Ea; [discriminate|].
  destruct (Qle_bool s 0) eqn:Es; [discriminate|].
  apply Qle_bool_false_iff in Ea, Es.
  intros [= <-]. simpl. repeat split; simpl; try lra; try lia.
  unfold Yard.get_completion_percentage. simpl.
  destruct (Qle_bool a 0) eqn:Ea'; [reflexivity|].
  assert (H0 : 0 / a * 100 == 0) by (unfold Qdiv; ring).
  unfold YardStatus.get_status_by_percentage.
  pose proof (Q.le_min_l (0 / a * 100) 100) as Hmin.
  Qcases; try reflexivity; lra.
Qed.

(** One call of [add_work_time] on a yard that satisfies the invariant. *)
Lemma add_work_time_step (y : Yard.t) (w : Q) :
  yard_inv y ->
  let y' := fst (Yard.add_work_time y w) in
  let r := snd (Yard.add_work_time y w) in
  yard_inv y' /\
  Yard.area y' = Yard.area y /\
  Yard.cleaning_speed y' = Yard.cleaning_speed y /\
  Yard.yard_id y' = Yard.yard_id y /\
  Yard.cleaned_area y <= Yard.cleaned_area y' /\
  Yard.total_work_time y <= Yard.total_work_time y' /\
  length (Yard.status_history y')
    = (length (Yard.status_history y) + count_transitions [r])%nat.
Proof.
  intros (Ha & Hs & Hc0 & Hca & Ht & Hst & Hhd & Hlast & Hinc).
  unfold Yard.add_work_time.
  destruct (Qle_bool w 0) eqn:Ew.
  { simpl. split; [unfold yard_inv; auto 10|]. repeat split; try lra; try lia. }
  apply Qle_bool_false_iff in Ew.
  assert (Hws : 0 < w * Yard.cleaning_speed y)
    by (apply Qmult_lt_0_compat; assumption).
  set (c := if Qlt_bool (Yard.area y)
                 (Yard.cleaned_area y + w * Yard.cleaning_speed y)
            then Yard.area y
            else Yard.cleaned_area y + w * Yard.cleaning_speed y).
  assert (Hc : Yard.cleaned_area y <= c /\ c <= Yard.area y).
  { subst c. Qcases; lra. }
  destruct Hc as [Hc1 Hc2].
  set (y1 := {| Yard.yard_id := Yard.yard_id y; Yard.area := Yard.area y;
                Yard.cleaning_speed := Yard.cleaning_speed y;
                Yard.status := Yard.status y; Yard.cleaned_area := c;
                Yard.total_work_time := Yard.total_work_time y + w;
                Yard.status_history := Yard.status_history y |}).
  assert (Hmono : Yard.get_completion_percentage y
                  <= Yard.get_completion_percentage y1)
    by (apply completion_percentage_mono; [exact Ha|reflexivity|exact Hc1]).
  apply get_status_by_percentage_mono in Hmono. rewrite <- Hst in Hmono.
  set (ns := YardStatus.get_status_by_percentage
               (Yard.get_completion_percentage y1)) in *.
  destruct (decide (ns <> Yard.status y1)) as [Hne|Heq]; simpl.
  - unfold yard_inv; simpl. repeat split; auto; try lra.
    + destruct (Yard.status_history y); [discriminate Hhd|exact Hhd].
    + apply last_snoc.
    + rewrite map_app. simpl.
      apply strictly_increasing_snoc with (x := YardStatus.value (Yard.status y)).
      * exact Hinc.
      * apply last_map_value, Hlast.
      * assert (YardStatus.value ns <> YardStatus.value (Yard.status y))
          by (intros E; apply Hne, value_inj, E).
        lia.
    + rewrite length_app. simpl. lia.
  - apply dec_stable in Heq. simpl in Heq.
    unfold yard_inv; simpl.
    repeat split; auto; try lra; try lia; symmetry; exact Heq.
Qed.

Lemma add_work_times_inv (ws : list Q) (y : Yard.t) :
  yard_inv y ->
  let y' := fst (Yard.add_work_times y ws) in
  let rs := snd (Yard.add_work_times y ws) in
  yard_inv y' /\
  Yard.area y' = Yard.area y /\
  Yard.cleaned_area y <= Yard.cleaned_area y' /\
  Yard.total_work_time y <= Yard.total_work_time y' /\
  length (Yard.status_history y')
    = (length (Yard.status_history y) + count_transitions rs)%nat.
Proof.
  revert y. induction ws as [|w ws IH]; intros y Hy; simpl.
  - split; [exact Hy|]. repeat split; try lra; try lia.
  - pose proof (add_work_time_step y w Hy) as Hstep. simpl in Hstep.
    destruct (Yard.add_work_time y w) as [y1 r]. simpl in Hstep.
    destruct Hstep as (Hy1 & Ha1 & _ & _ & Hc1 & Ht1 & Hl1).
    specialize (IH y1 Hy1). simpl in IH.
    destruct (Yard.add_work_times y1 ws) as [y2 rs]. simpl in *.
    destruct IH as (Hy2 & Ha2 & Hc2 & Ht2 & Hl2).
    split; [exact Hy2|].
    repeat split; try lra; try congruence.
    destruct r; simpl in *; lia.
Qed.

Lemma init_succeeds (i : Z) (a s : Q) :
  (0 < i)%Z -> 0 < a -> 0 < s -> exists y0, Yard.init i a s = Return y0.
Proof.
  intros Hi Ha Hs. unfold Yard.init.
  destruct (i <=? 0)%Z eqn:Ei; [apply Z.leb_le in Ei; lia|].
  destruct (Qle_bool a 0) eqn:Ea; [apply Qle_bool_iff in Ea; lra|].
  destruct (Qle_bool s 0) eqn:Es; [apply Qle_bool_iff in Es; lra|].
  eexists. reflexivity.
Qed.

(** C2. A yard built with a positive id, area and cleaning rate starts with
    cleaned area 0.  After any sequence of [add_work_time] calls, one more
    call (with any argument) lowers neither the cleaned area nor the total
    work time, and the cleaned area stays at most the area, before and after
    the call. *)
Theorem cleaned_area_monotone_and_clamped
    (i : Z) (a s : Q) (ws : list Q) (w : Q) :
  (0 < i)%Z -> 0 < a -> 0 < s ->
  exists y0,
    Yard.init i a s = Return y0 /\
    Yard.cleaned_area y0 = 0 /\
    let y := fst (Yard.add_work_times y0 ws) in
    let y' := fst (Yard.add_work_time y w) in
    Yard.area y' = a /\
    Yard.cleaned_area y <= a /\
    Yard.cleaned_area y <= Yard.cleaned_area y' /\
    Yard.cleaned_area y' <= a /\
    Yard.total_work_time y <= Yard.total_work_time y'.
Proof.
  intros Hi Ha Hs.
  destruct (init_succeeds i a s Hi Ha Hs) as [y0 Hy0].
  exists y0. split; [exact Hy0|].
  destruct (init_inv _ _ _ _ Hy0) as (Hinv & Harea & _ & _ & _ & Hc & _).
  split; [exact Hc|].
  pose proof (add_work_times_inv ws y0 Hinv) as (Hinv1 & Ha1 & _).
  pose proof (add_work_time_step _ w Hinv1) as (Hinv2 & Ha2 & _ & _ & Hc2 & Ht2 & _).
  destruct Hinv1 as (_ & _ & _ & Hle1 & _).
  destruct Hinv2 as (_ & _ & _ & Hle2 & _).
  cbv zeta. rewrite Ha2, Ha1, Harea in *.
  repeat split; assumption.
Qed.

Lemma cleaned_area_monotone_and_clamped_witness :
  exists y0,
    Yard.init 1 100 1 = Return y0 /\
    Yard.cleaned_area y0 = 0 /\
    let y := fst (Yard.add_work_times y0 [50; 0; 70]) in
    let y' := fst (Yard.add_work_time y 10) in
    Yard.area y' = 100 /\
    Yard.cleaned_area y <= 100 /\
    Yard.cleaned_area y <= Yard.cleaned_area y' /\
    Yard.cleaned_area y' <= 100 /\
    Yard.total_work_time y <= Yard.total_work_time y'.
Proof.
  apply (cleaned_area_monotone_and_clamped 1 100 1 [50; 0; 70] 10);
    reflexivity.
Defined.

(** C4. On a yard built by the constructor, after any sequence of
    [add_work_time] calls the stored status is the band of the completion
    percentage [min (cleaned_area / area * 100) 100]; the status history
    starts with band 0, grows strictly in band value, ends with the stored
    status, and has one element more than the number of calls that reported
    a transition. *)
Theorem status_matches_band_and_history_increasing
    (i : Z) (a s : Q) (ws : list Q) :
  (0 < i)%Z -> 0 < a -> 0 < s ->
  exists y0,
    Yard.init i a s = Return y0 /\
    let y := fst (Yard.add_work_times y0 ws) in
    let rs := snd (Yard.add_work_times y0 ws) in
    Yard.status y
      = YardStatus.get_status_by_percentage
          (Qmin (Yard.cleaned_area y / Yard.area y * 100) 100) /\
    head (Yard.status_history y) = Some YardStatus.PERCENT_0 /\
    strictly_increasing (map YardStatus.value (Yard.status_history y)) = true /\
    last (Yard.status_history y) = Some (Yard.status y) /\
    length (Yard.status_history y) = S (count_transitions rs).
Proof.
  intros Hi Ha Hs.
  destruct (init_succeeds i a s Hi Ha Hs) as [y0 Hy0].
  exists y0. split; [exact Hy0|].
  destruct (init_inv _ _ _ _ Hy0) as (Hinv & _ & _ & _ & _ & _ & _ & _ & Hh).
  pose proof (add_work_times_inv ws y0 Hinv) as (Hinv1 & _ & _ & _ & Hlen).
  cbv zeta. rewrite Hh in Hlen. simpl in Hlen.
  destruct Hinv1 as (Hpos & _ & _ & _ & _ & Hst & Hhd & Hlast & Hinc).
  repeat split; try assumption.
  rewrite Hst at 1. unfold Yard.get_completion_percentage.
  destruct (Qle_bool (Yard.area (Yard.add_work_times y0 ws).1) 0) eqn:E;
    [|reflexivity].
  apply Qle_bool_iff in E. lra.
Qed.

Lemma status_matches_band_and_history_increasing_witness :
  exists y0,
    Yard.init 1 100 1 = Return y0 /\
    let y := fst (Yard.add_work_times y0 [50; 5; 0; 30; 40]) in
    let rs := snd (Yard.add_work_times y0 [50; 5; 0; 30; 40]) in
    Yard.status y
      = YardStatus.get_status_by_percentage
          (Qmin (Yard.cleaned_area y / Yard.area y * 100) 100) /\
    head (Yard.status_history y) = Some YardStatus.PERCENT_0 /\
    strictly_increasing (map YardStatus.value (Yard.status_history y)) = true /\
    last (Yard.status_history y) = Some (Yard.status y) /\
    length (Yard.status_history y) = S (count_transitions rs).
Proof.
  apply (status_matches_band_and_history_increasing 1 100 1 [50; 5; 0; 30; 40]);
    reflexivity.
Defined.

End YardFacts.

(** ** The machine tracker *)

Section MachineFacts.
Local Open Scope Q_scope.

Lemma calculate_work_time_cases (start_time : option Z) (t : Z) :
  let w := Machine._calculate_work_time start_time (Some t) in
  0 <= w /\ w <= 3600 /\
  match start_time with
  | None => w = 0
  | Some t0 =>
      let delta := Machine.total_seconds t0 t in
      (delta < 0 \/ 3600 < delta -> w = 0) /\
      (0 <= delta /\ delta <= 3600 -> w = delta)
  end.
Proof.
  unfold Machine._calculate_work_time. destruct start_time as [t0|]; simpl.
  - set (delta := Machine.total_seconds t0 t).
    destruct (Qlt_bool delta 0) eqn:E1; simpl.
    { apply Qlt_bool_iff in E1. repeat split; try lra; intros; lra. }
    apply Qlt_bool_false_iff in E1.
    destruct (Qlt_bool 3600 delta) eqn:E2.
    { apply Qlt_bool_iff in E2. repeat split; try lra; intros; lra. }
    apply Qlt_bool_false_iff in E2.
    repeat split; try lra; intros; try lra; reflexivity.
  - repeat split; lra.
Qed.

Lemma add_work_time_lookup (h : gmap Z Q) (k : Z) (w : Q) :
  Machine._add_work_time h k w !! k = Some (default 0 (h !! k) + w).
Proof.
  unfold Machine._add_work_time. rewrite lookup_alter_eq.
  destruct (h !! k) as [v|] eqn:E.
  - rewrite E. reflexivity.
  - rewrite lookup_insert_eq. reflexivity.
Qed.

Lemma add_work_time_lookup_ne (h : gmap Z Q) (k k' : Z) (w : Q) :
  k <> k' -> Machine._add_work_time h k w !! k' = h !! k'.
Proof.
  intros Hne. unfold Machine._add_work_time.
  rewrite lookup_alter_ne by exact Hne.
  destruct (h !! k); [reflexivity|]. apply lookup_insert_ne, Hne.
Qed.

(** What [update_position] does to each field, in one place. *)
Lemma update_position_fields (m : Machine.t) (message : MachineMessage.t) :
  let m' := fst (Machine.update_position m message) in
  let ch := snd (Machine.update_position m message) in
  let w := report_work_time m message in
  let changed :=
    bool_decide (Machine.current_yard_id m <> MachineMessage.yard_id message) in
  Machine.machine_id m' = Machine.machine_id m /\
  Machine.current_coordinates m' = MachineMessage.coordinates message /\
  Machine.last_update m' = Some (MachineMessage.timestamp message) /\
  Changes.yard_changed ch = changed /\
  Machine.current_yard_id m' = MachineMessage.yard_id message /\
  Machine.previous_yard_id m'
    = (if changed then Machine.current_yard_id m else Machine.previous_yard_id m) /\
  Machine._yard_entry_time m'
    = (if changed
       then match MachineMessage.yard_id message with
            | Some _ => Some (MachineMessage.timestamp message)
            | None => None
            end
       else Machine._yard_entry_time m) /\
  Changes.work_time_added ch = (if dwell_credited m message then w else 0) /\
  Changes.left_yard ch
    = (if changed && dwell_credited m message
       then Machine.current_yard_id m else None) /\
  Changes.entered_yard ch
    = (if changed then MachineMessage.yard_id message else None) /\
  Machine.yard_work_history m'
    = match Machine.current_yard_id m with
      | Some cur =>
          if dwell_credited m message
          then Machine._add_work_time (Machine.yard_work_history m) cur w
          else Machine.yard_work_history m
      | None => Machine.yard_work_history m
      end.
Proof.
  unfold Machine.update_position, dwell_credited, report_work_time.
  pose proof (calculate_work_time_cases (Machine.last_update m)
                (MachineMessage.timestamp message)) as Hw.
  cbv zeta in Hw.
  set (w := Machine._calculate_work_time (Machine.last_update m)
              (Some (MachineMessage.timestamp message))) in *.
  clearbody w.
  destruct (decide (Machine.current_yard_id m <> MachineMessage.yard_id message))
    as [Hne|Heq].
  - rewrite (bool_decide_eq_true_2 _ Hne).
    destruct (Machine.current_yard_id m) as [cur|];
      destruct (Machine._yard_entry_time m) as [e|]; simpl;
      try (repeat split; reflexivity).
    destruct (Qlt_bool 0 w); simpl; repeat split; reflexivity.
  - rewrite (bool_decide_eq_false_2 _ Heq). apply dec_stable in Heq.
    destruct (Machine.current_yard_id m) as [cur|];
      destruct (Machine._yard_entry_time m) as [e|];
      destruct (Machine.last_update m) as [t0|]; simpl;
      try (repeat split; first [reflexivity | exact Heq]).
    + destruct (Qlt_bool 0 w); simpl;
        repeat split; first [reflexivity | exact Heq].
    + destruct Hw as (_ & _ & ->). simpl.
      repeat split; first [reflexivity | exact Heq].
Qed.

Lemma machine_init_succeeds (id : Z) :
  (0 < id)%Z ->
  exists m0, Machine.init id = Return m0 /\
             entry_time_inv m0 /\ dwell_nonneg m0 /\
             Machine.machine_id m0 = id /\
             Machine.last_update m0 = None /\
             Machine.current_yard_id m0 = None.
Proof.
  intros Hid. unfold Machine.init.
  destruct (id <=? 0)%Z eqn:E; [apply Z.leb_le in E; lia|].
  eexists. split; [reflexivity|]. unfold entry_time_inv, dwell_nonneg; simpl.
  repeat split; try (intros [? [=]]).
  intros k v H. rewrite lookup_empty in H. discriminate H.
Qed.

Lemma update_position_inv (m : Machine.t) (message : MachineMessage.t) :
  entry_time_inv m -> dwell_nonneg m ->
  let m' := fst (Machine.update_position m message) in
  entry_time_inv m' /\ dwell_nonneg m' /\ dwell_le m m'.
Proof.
  intros Hentry Hnn.
  pose proof (update_position_fields m message)
    as (_ & _ & _ & _ & Hcur & _ & Het & _ & _ & _ & Hh).
  pose proof (calculate_work_time_cases (Machine.last_update m)
                (MachineMessage.timestamp message)) as (Hw0 & _).
  fold (report_work_time m message) in Hw0.
  set (m' := fst (Machine.update_position m message)) in *.
  set (w := report_work_time m message) in *.
  cbv zeta. split; [|split].
  - unfold entry_time_inv in *. rewrite Het, Hcur.
    case_bool_decide as Hd.
    + destruct (MachineMessage.yard_id message); split; intros [? [=]]; eauto.
    + rewrite <- Hd. exact Hentry.
  - intros k v Hk. rewrite Hh in Hk.
    destruct (Machine.current_yard_id m) as [cur|]; [|exact (Hnn k v Hk)].
    destruct (dwell_credited m message); [|exact (Hnn k v Hk)].
    destruct (decide (cur = k)) as [->|Hne].
    + rewrite add_work_time_lookup in Hk. injection Hk as <-.
      destruct (Machine.yard_work_history m !! k) as [v0|] eqn:E; simpl.
      * specialize (Hnn k v0 E). lra.
      * lra.
    + rewrite add_work_time_lookup_ne in Hk by exact Hne. exact (Hnn k v Hk).
  - intros k v Hk. rewrite Hh.
    destruct (Machine.current_yard_id m) as [cur|];
      [|exists v; split; [exact Hk|lra]].
    destruct (dwell_credited m message);
      [|exists v; split; [exact Hk|lra]].
    destruct (decide (cur = k)) as [->|Hne].
    + rewrite add_work_time_lookup, Hk. simpl.
      eexists. split; [reflexivity|lra].
    + rewrite add_work_time_lookup_ne by exact Hne.
      exists v; split; [exact Hk|lra].
Qed.

Lemma update_positions_inv (messages : list MachineMessage.t) (m : Machine.t) :
  entry_time_inv m -> dwell_nonneg m ->
  entry_time_inv (Machine.update_positions m messages) /\
  dwell_nonneg (Machine.update_positions m messages).
Proof.
  revert m. induction messages as [|msg rest IH]; intros m He Hn; simpl.
  - split; assumption.
  - destruct (update_position_inv m msg He Hn) as (He' & Hn' & _).
    apply IH; assumption.
Qed.

(** C1. The dwell credit of [update_position] is zero when there is no
    previous report, when the elapsed time [delta] is negative and when it
    exceeds 3600 seconds, and also when the machine was outside all yards;
    with a previous report, [0 <= delta <= 3600] and the machine in a yard
    (entry time recorded, as the machine invariant says) the credit is
    [delta].  A fresh machine that reports at t=0 and again at t=5000 s in
    the same yard is credited 0. *)
Theorem dwell_credit_rule :
  (forall (m : Machine.t) (message : MachineMessage.t),
     let credit :=
       Changes.work_time_added (snd (Machine.update_position m message)) in
     (Machine.current_yard_id m = None -> credit = 0) /\
     match Machine.last_update m with
     | None => credit = 0
     | Some t0 =>
         let delta :=
           Machine.total_seconds t0 (MachineMessage.timestamp message) in
         (delta < 0 \/ 3600 < delta -> credit = 0) /\
         (0 <= delta /\ delta <= 3600 ->
          is_Some (Machine.current_yard_id m) ->
          entry_time_inv m ->
          credit == delta)
     end) /\
  (forall (id y : Z) (c1 c2 : Q * Q),
     (0 < id)%Z ->
     exists m0,
       Machine.init id = Return m0 /\
       let m1 :=
         fst (Machine.update_position m0 (MachineMessage.mk id 0 c1 (Some y))) in
       Changes.work_time_added
         (snd (Machine.update_position m1
                 (MachineMessage.mk id 5000000000 c2 (Some y)))) = 0).
Proof.
  split.
  - intros m message credit.
    pose proof (update_position_fields m message)
      as (_ & _ & _ & _ & _ & _ & _ & Hc & _).
    fold credit in Hc.
    pose proof (calculate_work_time_cases (Machine.last_update m)
                  (MachineMessage.timestamp message)) as (Hw0 & _ & Hw).
    fold (report_work_time m message) in Hw0, Hw.
    set (w := report_work_time m message) in *.
    assert (Hzero : w = 0 -> credit = 0).
    { intros E. rewrite Hc, E. destruct (dwell_credited m message); reflexivity. }
    split.
    { intros Hout. rewrite Hc. unfold dwell_credited. rewrite Hout. reflexivity. }
    destruct (Machine.last_update m) as [t0|]; [|exact (Hzero Hw)].
    cbv zeta in Hw. destruct Hw as [Hbad Hgood]. split.
    + intros Hd. exact (Hzero (Hbad Hd)).
    + intros Hd [cur Hcur] Hinv. rewrite Hc. unfold dwell_credited.
      rewrite Hcur.
      destruct (proj2 Hinv) as [e He]; [rewrite Hcur; eauto|]. rewrite He.
      fold w. rewrite <- (Hgood Hd).
      destruct (Qlt_bool 0 w) eqn:E; [reflexivity|].
      apply Qlt_bool_false_iff in E. lra.
  - intros id y c1 c2 Hid.
    destruct (machine_init_succeeds id Hid) as (m0 & Hm0 & _).
    exists m0. split; [exact Hm0|].
    unfold Machine.init in Hm0.
    destruct (id <=? 0)%Z; [discriminate|]. injection Hm0 as <-.
    cbv zeta. unfold Machine.update_position at 2. simpl.
    destruct (decide (None <> Some y)) as [_|H]; [|exfalso; apply H; discriminate].
    simpl. unfold Machine.update_position. simpl.
    destruct (decide (Some y <> Some y)) as [H|_]; [exfalso; apply H; reflexivity|].
    reflexivity.
Qed.

Lemma dwell_credit_rule_witness :
  Changes.work_time_added
    (snd (Machine.update_position machine_in_yard_3 report_yard_3_at_50s))
  == 50.
Proof.
  destruct (proj1 dwell_credit_rule machine_in_yard_3 report_yard_3_at_50s)
    as [_ H].
  hnf in H. destruct H as [_ H].
  refine (Qeq_trans _ _ _ (H _ _ _) _).
  - split; discriminate.
  - eexists; reflexivity.
  - split; intros _; eexists; reflexivity.
  - reflexivity.
Defined.



(** C7. A machine built by the constructor, after any sequence of
    [update_position] calls and after one more call, has an entry time
    exactly when it has a current yard; all its accumulated dwell times are
    non-negative, and the call loses or lowers none of them. *)
Theorem machine_invariant
    (id : Z) (messages : list MachineMessage.t) (message : MachineMessage.t) :
  (0 < id)%Z ->
  exists m0,
    Machine.init id = Return m0 /\
    let m := Machine.update_positions m0 messages in
    let m' := fst (Machine.update_position m message) in
    (is_Some (Machine._yard_entry_time m)
     <-> is_Some (Machine.current_yard_id m)) /\
    (is_Some (Machine._yard_entry_time m')
     <-> is_Some (Machine.current_yard_id m')) /\
    (forall (k : Z) (v : Q),
       Machine.yard_work_history m !! k = Some v -> 0 <= v) /\
    (forall (k : Z) (v : Q),
       Machine.yard_work_history m' !! k = Some v -> 0 <= v) /\
    (forall (k : Z) (v : Q),
       Machine.yard_work_history m !! k = Some v ->
       exists v', Machine.yard_work_history m' !! k = Some v' /\ v <= v').
Proof.
  intros Hid.
  destruct (machine_init_succeeds id Hid) as (m0 & Hm0 & He0 & Hn0 & _).
  exists m0. split; [exact Hm0|]. cbv zeta.
  destruct (update_positions_inv messages m0 He0 Hn0) as [He Hn].
  destruct (update_position_inv _ message He Hn) as (He' & Hn' & Hle).
  exact (conj He (conj He' (conj Hn (conj Hn' Hle)))).
Qed.

Lemma machine_invariant_witness :
  exists m0,
    Machine.init 7 = Return m0 /\
    let m := Machine.update_positions m0 [report_yard_3_at_50s] in
    let m' := fst (Machine.update_position m report_outside_at_120s) in
    (is_Some (Machine._yard_entry_time m)
     <-> is_Some (Machine.current_yard_id m)) /\
    (is_Some (Machine._yard_entry_time m')
     <-> is_Some (Machine.current_yard_id m')) /\
    (forall (k : Z) (v : Q),
       Machine.yard_work_history m !! k = Some v -> 0 <= v) /\
    (forall (k : Z) (v : Q),
       Machine.yard_work_history m' !! k = Some v -> 0 <= v) /\
    (forall (k : Z) (v : Q),
       Machine.yard_work_history m !! k = Some v ->
       exists v', Machine.yard_work_history m' !! k = Some v' /\ v <= v').
Proof.
  apply (machine_invariant 7 [report_yard_3_at_50s] report_outside_at_120s).
  reflexivity.
Defined.

End MachineFacts.

(** ** The update engine *)

Section ServiceFacts.
Local Open Scope Q_scope.

Lemma credit_yard_known (k : Z) (w : Q) (timestamp : Z)
    (s : CleaningService.store) (yard : Yard.t) :
  CleaningService.yards s !! k = Some yard ->
  CleaningService._credit_yard k w timestamp s
  = ({| CleaningService.machine := CleaningService.machine s;
        CleaningService.yards :=
          <[k := fst (Yard.add_work_time yard w)]> (CleaningService.yards s) |},
     Return
       match snd (Yard.add_work_time yard w) with
       | Some new_status =>
           Some {| StatusChange.yard_id := Yard.yard_id yard;
                   StatusChange.old_status := Yard.status yard;
                   StatusChange.new_status := new_status;
                   StatusChange.timestamp := timestamp;
                   StatusChange.machine_id :=
                     Machine.machine_id (CleaningService.machine s);
                   StatusChange.work_time_added := w |}
       | None => None
       end).
Proof.
  intros Hk.
  unfold CleaningService._credit_yard, CleaningService.add_work_time,
    CleaningService.bind, CleaningService.getitem.
  rewrite Hk. cbn [CleaningService.yards]. rewrite Hk.
  destruct (Yard.add_work_time yard w) as [yard1 [ns|]]; reflexivity.
Qed.

Lemma contains_known (k : Z) (s : CleaningService.store) :
  CleaningService.contains k s
  = (s, Return match CleaningService.yards s !! k with
               | Some _ => true
               | None => false
               end).
Proof.
  unfold CleaningService.contains. f_equal. f_equal.
  destruct (CleaningService.yards s !! k) eqn:E.
  - apply bool_decide_eq_true_2. eauto.
  - apply bool_decide_eq_false_2. intros [? [=]].
Qed.

(** A block that neither changes the store nor raises can be dropped. *)
Lemma bind_then_silent {A : Type} (c : CleaningService.M A)
    (blk : CleaningService.M unit) (s : CleaningService.store) :
  (forall s1, blk s1 = (s1, Return tt)) ->
  CleaningService.bind c
    (fun a => CleaningService.bind blk (fun _ => CleaningService.ret a)) s
  = c s.
Proof.
  intros Hblk. unfold CleaningService.bind.
  destruct (c s) as [s1 [a|e]]; [|reflexivity].
  rewrite Hblk. reflexivity.
Qed.

Lemma handle_yard_change_effect (ch : Changes.t) (timestamp : Z)
    (s : CleaningService.store) :
  CleaningService._handle_yard_change ch timestamp s
  = match Changes.left_yard ch with
    | Some k =>
        match CleaningService.yards s !! k with
        | Some yard =>
            if Qlt_bool 0 (Changes.work_time_added ch)
            then CleaningService._credit_yard k (Changes.work_time_added ch)
                   timestamp s
            else (s, Return None)
        | None => (s, Return None)
        end
    | None => (s, Return None)
    end.
Proof.
  assert (Hlog : forall (s1 : CleaningService.store),
    match Changes.entered_yard ch with
    | Some e =>
        CleaningService.bind (CleaningService.contains e)
          (fun known : bool =>
             if known
             then CleaningService.bind (CleaningService.getitem e)
                    (fun _ => CleaningService.ret tt)
             else CleaningService.ret tt)
    | None => CleaningService.ret tt
    end s1 = (s1, Return tt)).
  { intros s1. destruct (Changes.entered_yard ch) as [e|]; [|reflexivity].
    unfold CleaningService.bind at 1. rewrite contains_known.
    unfold CleaningService.bind, CleaningService.getitem, CleaningService.ret.
    destruct (CleaningService.yards s1 !! e) eqn:E; cbv beta iota;
      rewrite ?E; reflexivity. }
  unfold CleaningService._handle_yard_change.
  rewrite bind_then_silent by exact Hlog.
  destruct (Changes.left_yard ch) as [k|]; [|reflexivity].
  unfold CleaningService.bind. rewrite contains_known.
  destruct (CleaningService.yards s !! k) as [yard|]; [|reflexivity].
  simpl andb.
  destruct (Qlt_bool 0 (Changes.work_time_added ch)); reflexivity.
Qed.

Lemma process_machine_update_effect (self : CleaningService.t) (m : Machine.t)
    (message : MachineMessage.t) (yards : gmap Z Yard.t) :
  CleaningService.process_machine_update self m message yards
  = service_effect self m message yards.
Proof.
  pose proof (update_position_fields m message)
    as (Hid & _ & _ & Hch & Hcur & _ & _ & Hc & Hleft & _).
  assert (Hpos : dwell_credited m message = true
                 -> Qlt_bool 0 (report_work_time m message) = true).
  { unfold dwell_credited.
    destruct (Machine.current_yard_id m), (Machine._yard_entry_time m);
      intros H; first [exact H | discriminate H]. }
  unfold service_effect, CleaningService.process_machine_update,
    CleaningService.process_machine_update_body.
  unfold CleaningService.bind at 1, CleaningService.update_position.
  cbn [CleaningService.machine CleaningService.yards].
  set (w := report_work_time m message) in *.
  destruct (Machine.update_position m message) as [m' ch].
  cbn [fst snd] in *. rewrite Hch.
  destruct (decide (Machine.current_yard_id m <> MachineMessage.yard_id message))
    as [Hne|Heq].
  - (* the yard changed *)
    rewrite (bool_decide_eq_true_2 _ Hne) in *. simpl andb in Hleft.
    rewrite handle_yard_change_effect, Hleft, Hc.
    cbn [CleaningService.machine CleaningService.yards].
    destruct (dwell_credited m message); [|reflexivity].
    rewrite (Hpos eq_refl).
    destruct (Machine.current_yard_id m) as [k|]; [|reflexivity].
    destruct (yards !! k) as [yard|] eqn:Ek; [|reflexivity].
    rewrite (credit_yard_known k w _ _ yard) by exact Ek.
    cbn [CleaningService.machine CleaningService.yards]. rewrite Hid.
    reflexivity.
  - (* same yard as before *)
    rewrite (bool_decide_eq_false_2 _ Heq) in *. apply dec_stable in Heq.
    unfold CleaningService.bind at 1, CleaningService.machine_attr.
    cbn [CleaningService.machine]. rewrite Hcur, <- Heq, Hc.
    destruct (Machine.current_yard_id m) as [k|];
      [|destruct (dwell_credited m message); reflexivity].
    unfold CleaningService.bind at 1. rewrite contains_known.
    cbn [CleaningService.yards].
    destruct (dwell_credited m message).
    + rewrite (Hpos eq_refl). simpl andb.
      destruct (yards !! k) as [yard|] eqn:Ek; [|reflexivity].
      cbn [andb].
      rewrite (credit_yard_known k w _ _ yard) by exact Ek.
      cbn [CleaningService.machine CleaningService.yards]. rewrite Hid.
      reflexivity.
    + assert (Qlt_bool 0 0 = false) as -> by reflexivity. reflexivity.
Qed.

(** C5. Yard 1 has area 100 and cleaning rate 1; a fresh machine reports
    from inside it at t=0 and from outside all yards at t=120 s.  The first
    report returns no event.  The second credits 120 seconds to yard 1,
    whose cleaned area becomes 100 (the area) and whose status becomes band
    100, and returns the one event, from band 0 to band 100. *)
Theorem worked_example_enter_then_leave :
  exists y0 m0,
    Yard.init 1 100 1 = Return y0 /\
    Machine.init 7 = Return m0 /\
    let r1 :=
      CleaningService.process_machine_update
        CleaningService.init m0 report_yard_1_at_0 {[ 1%Z := y0 ]} in
    let m1 := CleaningService.machine (snd (fst r1)) in
    let r2 :=
      CleaningService.process_machine_update
        (fst (fst r1)) m1 report_outside_at_120s
        (CleaningService.yards (snd (fst r1))) in
    snd r1 = None /\
    CleaningService.yards (snd (fst r1)) !! 1%Z = Some y0 /\
    Changes.work_time_added
      (snd (Machine.update_position m1 report_outside_at_120s)) == 120 /\
    (exists y,
       CleaningService.yards (snd (fst r2)) !! 1%Z = Some y /\
       Yard.total_work_time y == 120 /\
       Yard.cleaned_area y = 100 /\
       Yard.status y = YardStatus.PERCENT_100 /\
       Yard.status_history y
         = [YardStatus.PERCENT_0; YardStatus.PERCENT_100]) /\
    (exists ev,
       snd r2 = Some ev /\
       StatusChange.yard_id ev = 1%Z /\
       StatusChange.old_status ev = YardStatus.PERCENT_0 /\
       StatusChange.new_status ev = YardStatus.PERCENT_100 /\
       StatusChange.timestamp ev = 120000000%Z /\
       StatusChange.machine_id ev = 7%Z /\
       StatusChange.work_time_added ev == 120) /\
    CleaningService._error_count (fst (fst r2)) = 0%Z.
Proof.
  eexists. eexists.
  split; [reflexivity|]. split; [reflexivity|].
  cbv zeta.
  split; [vm_compute; reflexivity|].
  split; [vm_compute; reflexivity|].
  split; [vm_compute; reflexivity|].
  split.
  { eexists. split; [vm_compute; reflexivity|].
    repeat split; vm_compute; reflexivity. }
  split.
  { eexists. split; [vm_compute; reflexivity|].
    repeat split; vm_compute; reflexivity. }
  vm_compute; reflexivity.
Qed.



(** C10. When [update_position] credits positive dwell to a machine that
    was in yard [u], the machine's own dwell map gains that credit under
    [u] whether or not the directory has a yard [u].  If it has none, the
    directory is left as it was and no event is returned; if it has one,
    that yard receives the credit. *)
Theorem machine_dwell_independent_of_directory
    (self : CleaningService.t) (m : Machine.t) (message : MachineMessage.t)
    (yards : gmap Z Yard.t) (u : Z) :
  Machine.current_yard_id m = Some u ->
  0 < Changes.work_time_added (snd (Machine.update_position m message)) ->
  let credit :=
    Changes.work_time_added (snd (Machine.update_position m message)) in
  let r := CleaningService.process_machine_update self m message yards in
  let m' := CleaningService.machine (snd (fst r)) in
  let yards' := CleaningService.yards (snd (fst r)) in
  Machine.yard_work_history m' !! u
    = Some (Machine.get_total_work_time_in_yard m u + credit) /\
  Machine.get_total_work_time_in_yard m' u
    = Machine.get_total_work_time_in_yard m u + credit /\
  (yards !! u = None -> yards' = yards /\ snd r = None) /\
  (forall yard : Yard.t,
     yards !! u = Some yard ->
     yards' = <[u := fst (Yard.add_work_time yard credit)]> yards).
Proof.
  intros Hcur Hpos.
  pose proof (update_position_fields m message)
    as (_ & _ & _ & _ & _ & _ & _ & Hc & _ & _ & Hh).
  rewrite Hcur in Hh.
  assert (Hcred : dwell_credited m message = true).
  { destruct (dwell_credited m message); [reflexivity|].
    rewrite Hc in Hpos. lra. }
  rewrite Hcred in Hc, Hh. cbv zeta.
  rewrite process_machine_update_effect. unfold service_effect.
  rewrite Hcred, Hcur, Hc. cbv zeta.
  assert (Hlook : Machine.yard_work_history
                    (fst (Machine.update_position m message)) !! u
                  = Some (Machine.get_total_work_time_in_yard m u
                          + report_work_time m message)).
  { rewrite Hh. apply add_work_time_lookup. }
  destruct (yards !! u) as [yard|] eqn:Ey;
    cbn [fst snd CleaningService.machine CleaningService.yards];
    unfold Machine.get_total_work_time_in_yard at 2; rewrite Hlook;
    repeat apply conj; try reflexivity; try (intros; discriminate).
  - intros y [= <-]. reflexivity.
  - intros _. split; reflexivity.
Qed.

Lemma machine_dwell_independent_of_directory_witness :
  Machine.get_total_work_time_in_yard
    (CleaningService.machine
       (snd (fst (CleaningService.process_machine_update
                    CleaningService.init machine_in_yard_3
                    report_yard_3_at_50s {[ 1%Z := yard_1 ]})))) 3
  = Machine.get_total_work_time_in_yard machine_in_yard_3 3
    + Changes.work_time_added
        (snd (Machine.update_position machine_in_yard_3 report_yard_3_at_50s)).
Proof.
  exact (proj1 (proj2
    (machine_dwell_independent_of_directory CleaningService.init
       machine_in_yard_3 report_yard_3_at_50s {[ 1%Z := yard_1 ]} 3
       eq_refl eq_refl))).
Defined.

End ServiceFacts.

(** ** Batch mode *)

(** [load_yard_directory] stores every yard under its own id. *)
Lemma load_yards_keyed (yard_data : list CleaningMonitoringSystem.yard_info)
    (yards : gmap Z Yard.t) :
  directory_keyed yards ->
  directory_keyed (fst (CleaningMonitoringSystem.load_yards yards yard_data)).
Proof.
  revert yards. induction yard_data as [|info rest IH]; intros yards Hk; simpl.
  - exact Hk.
  - destruct (Yard.init (CleaningMonitoringSystem.yi_yard_id info)
                (CleaningMonitoringSystem.yi_area info)
                (CleaningMonitoringSystem.yi_cleaning_speed info))
      as [yard|e]; [|exact Hk].
    apply IH. intros k y Hy.
    destruct (decide (Yard.yard_id yard = k)) as [<-|Hne].
    + rewrite lookup_insert_eq in Hy. congruence.
    + rewrite lookup_insert_ne in Hy by exact Hne. exact (Hk k y Hy).
Qed.

Section BatchFacts.

Variable fromisoformat : string -> outcome Z.

(** The service's counters influence neither the stores nor the event. *)
Lemma process_machine_update_counters_irrelevant
    (self1 self2 : CleaningService.t) (m : Machine.t)
    (message : MachineMessage.t) (yards : gmap Z Yard.t) :
  snd (fst (CleaningService.process_machine_update self1 m message yards))
  = snd (fst (CleaningService.process_machine_update self2 m message yards)) /\
  snd (CleaningService.process_machine_update self1 m message yards)
  = snd (CleaningService.process_machine_update self2 m message yards).
Proof.
  rewrite !process_machine_update_effect. unfold service_effect.
  destruct (dwell_credited m message); [|split; reflexivity].
  destruct (Machine.current_yard_id m) as [k|]; [|split; reflexivity].
  destruct (yards !! k); split; reflexivity.
Qed.

(** One message keeps two systems with equal stores in step. *)
Lemma process_single_message_in_step
    (s1 s2 : CleaningMonitoringSystem.t)
    (data : CleaningMonitoringSystem.message_data) :
  CleaningMonitoringSystem.yards s1 = CleaningMonitoringSystem.yards s2 ->
  CleaningMonitoringSystem.machines s1 = CleaningMonitoringSystem.machines s2 ->
  CleaningMonitoringSystem.status_changes s1
    = CleaningMonitoringSystem.status_changes s2 ->
  let r1 := CleaningMonitoringSystem._process_single_message fromisoformat s1 data in
  let r2 := CleaningMonitoringSystem._process_single_message fromisoformat s2 data in
  CleaningMonitoringSystem.yards (fst r1)
    = CleaningMonitoringSystem.yards (fst r2) /\
  CleaningMonitoringSystem.machines (fst r1)
    = CleaningMonitoringSystem.machines (fst r2) /\
  CleaningMonitoringSystem.status_changes (fst r1)
    = CleaningMonitoringSystem.status_changes (fst r2) /\
  snd r1 = snd r2.
Proof.
  intros Hy Hm Hs. cbv zeta.
  unfold CleaningMonitoringSystem._process_single_message.
  destruct (CleaningMonitoringSystem.parse_message fromisoformat data)
    as [message|e]; [|simpl; auto].
  rewrite <- Hy, <- Hm, <- Hs.
  set (id := MachineMessage.machine_id message).
  destruct (match CleaningMonitoringSystem.machines s1 !! id with
            | Some _ => Return (CleaningMonitoringSystem.machines s1)
            | None =>
                match Machine.init id with
                | Return machine =>
                    Return (<[id := machine]> (CleaningMonitoringSystem.machines s1))
                | Raise e => Raise e
                end
            end) as [machines1|e]; [|simpl; auto].
  destruct (machines1 !! id) as [machine|]; [|simpl; auto].
  destruct (process_machine_update_counters_irrelevant
              (CleaningMonitoringSystem.cleaning_service s1)
              (CleaningMonitoringSystem.cleaning_service s2)
              machine message (CleaningMonitoringSystem.yards s1))
    as [Hstore Hev].
  destruct (CleaningService.process_machine_update
              (CleaningMonitoringSystem.cleaning_service s1) machine message
              (CleaningMonitoringSystem.yards s1)) as [[svc1 st1] ev1].
  destruct (CleaningService.process_machine_update
              (CleaningMonitoringSystem.cleaning_service s2) machine message
              (CleaningMonitoringSystem.yards s1)) as [[svc2 st2] ev2].
  simpl in Hstore, Hev. subst st2 ev2. simpl. auto.
Qed.

(** C9. Batch processing is a function of the stores and the report list:
    two systems that hold the same yard directory, the same machines and the
    same recorded events (two fresh systems loaded from one directory, in
    particular), fed the same list, end with the same yards, the same
    machines, the same sequence of transition events and the same processed
    count, whatever their counters and mode flags were. *)
Theorem batch_deterministic
    (s1 s2 : CleaningMonitoringSystem.t)
    (messages : list CleaningMonitoringSystem.message_data) :
  CleaningMonitoringSystem.yards s1 = CleaningMonitoringSystem.yards s2 ->
  CleaningMonitoringSystem.machines s1 = CleaningMonitoringSystem.machines s2 ->
  CleaningMonitoringSystem.status_changes s1
    = CleaningMonitoringSystem.status_changes s2 ->
  let r1 := CleaningMonitoringSystem._process_messages_batch fromisoformat s1 messages in
  let r2 := CleaningMonitoringSystem._process_messages_batch fromisoformat s2 messages in
  CleaningMonitoringSystem.yards (fst r1)
    = CleaningMonitoringSystem.yards (fst r2) /\
  CleaningMonitoringSystem.machines (fst r1)
    = CleaningMonitoringSystem.machines (fst r2) /\
  CleaningMonitoringSystem.status_changes (fst r1)
    = CleaningMonitoringSystem.status_changes (fst r2) /\
  snd r1 = snd r2.
Proof.
  revert s1 s2. induction messages as [|data rest IH]; intros s1 s2 Hy Hm Hs.
  - simpl. auto.
  - cbv zeta. simpl.
    pose proof (process_single_message_in_step s1 s2 data Hy Hm Hs) as Hstep.
    cbv zeta in Hstep.
    destruct (CleaningMonitoringSystem._process_single_message fromisoformat s1 data)
      as [s1' ok1].
    destruct (CleaningMonitoringSystem._process_single_message fromisoformat s2 data)
      as [s2' ok2].
    simpl in Hstep. destruct Hstep as (Hy' & Hm' & Hs' & ->).
    specialize (IH s1' s2' Hy' Hm' Hs'). cbv zeta in IH.
    destruct (CleaningMonitoringSystem._process_messages_batch fromisoformat s1' rest)
      as [s1'' n1].
    destruct (CleaningMonitoringSystem._process_messages_batch fromisoformat s2' rest)
      as [s2'' n2].
    simpl in IH |- *. destruct IH as (? & ? & ? & ->). auto.
Qed.

End BatchFacts.

Lemma batch_deterministic_witness :
  CleaningMonitoringSystem.status_changes
    (fst (CleaningMonitoringSystem._process_messages_batch
            digits_clock fresh_system batch_messages))
  = CleaningMonitoringSystem.status_changes
      (fst (CleaningMonitoringSystem._process_messages_batch
              digits_clock
              (fst (CleaningMonitoringSystem.load_yard_directory
                      (CleaningMonitoringSystem.init true)
                      [CleaningMonitoringSystem.mk_yard_info 1 100 1]))
              batch_messages)).
Proof.
  exact (proj1 (proj2 (proj2
    (batch_deterministic digits_clock fresh_system
       (fst (CleaningMonitoringSystem.load_yard_directory
               (CleaningMonitoringSystem.init true)
               [CleaningMonitoringSystem.mk_yard_info 1 100 1]))
       batch_messages eq_refl eq_refl eq_refl)))).
Defined.

(** * Further properties of the code *)

(** ** Yards *)

Section YardExtras.
Local Open Scope Q_scope.

(** For every status, [get_next_status] is the status one band (20 points)
    higher, and there is none above band 100. *)
Theorem get_next_status_is_next_band (s : YardStatus.t) :
  match YardStatus.get_next_status s with
  | Some s' => YardStatus.value s' = (YardStatus.value s + 20)%Z
  | None => s = YardStatus.PERCENT_100
  end.
Proof. destruct s; reflexivity. Qed.

Lemma add_work_time_params (y : Yard.t) (w : Q) :
  Yard.yard_id (fst (Yard.add_work_time y w)) = Yard.yard_id y /\
  Yard.area (fst (Yard.add_work_time y w)) = Yard.area y /\
  Yard.cleaning_speed (fst (Yard.add_work_time y w)) = Yard.cleaning_speed y.
Proof.
  unfold Yard.add_work_time.
  destruct (Qle_bool w 0); [repeat split|].
  cbv zeta. destruct (decide _); repeat split.
Qed.

Lemma add_work_times_params (ws : list Q) (y : Yard.t) :
  Yard.yard_id (fst (Yard.add_work_times y ws)) = Yard.yard_id y /\
  Yard.area (fst (Yard.add_work_times y ws)) = Yard.area y /\
  Yard.cleaning_speed (fst (Yard.add_work_times y ws)) = Yard.cleaning_speed y.
Proof.
  revert y. induction ws as [|w ws IH]; intros y; simpl; [repeat split|].
  destruct (add_work_time_params y w) as (Hi & Ha & Hs).
  destruct (Yard.add_work_time y w) as [y1 r]. simpl in Hi, Ha, Hs.
  specialize (IH y1).
  destruct (Yard.add_work_times y1 ws) as [y2 rs]. simpl in *.
  destruct IH as (Hi2 & Ha2 & Hs2). repeat split; congruence.
Qed.

Lemma add_work_time_total (y : Yard.t) (w : Q) :
  Yard.total_work_time (fst (Yard.add_work_time y w))
  = if Qle_bool w 0 then Yard.total_work_time y
    else Yard.total_work_time y + w.
Proof.
  unfold Yard.add_work_time.
  destruct (Qle_bool w 0); [reflexivity|].
  cbv zeta. destruct (decide _); reflexivity.
Qed.

(** The total work time of a yard after a sequence of [add_work_time] calls
    is its previous total plus the positive arguments, added in call order;
    arguments that are zero or negative leave no trace. *)
Theorem total_work_time_sums_accepted (y : Yard.t) (ws : list Q) :
  Yard.total_work_time (fst (Yard.add_work_times y ws))
  = fold_left Qplus (accepted_work_times ws) (Yard.total_work_time y).
Proof.
  revert y. induction ws as [|w ws IH]; intros y; simpl; [reflexivity|].
  pose proof (add_work_time_total y w) as Ht.
  destruct (Yard.add_work_time y w) as [y1 r]. simpl in Ht.
  specialize (IH y1).
  destruct (Yard.add_work_times y1 ws) as [y2 rs]. simpl in *.
  rewrite IH, Ht. destruct (Qle_bool w 0); reflexivity.
Qed.

Lemma add_work_time_cleaned (y : Yard.t) (w : Q) :
  Yard.cleaned_area (fst (Yard.add_work_time y w))
  = if Qle_bool w 0 then Yard.cleaned_area y
    else if Qlt_bool (Yard.area y)
              (Yard.cleaned_area y + w * Yard.cleaning_speed y)
         then Yard.area y
         else Yard.cleaned_area y + w * Yard.cleaning_speed y.
Proof.
  unfold Yard.add_work_time.
  destruct (Qle_bool w 0); [reflexivity|].
  cbv zeta. destruct (decide _); reflexivity.
Qed.

(** What a call returns and appends, on any yard. *)
Lemma add_work_time_result (y : Yard.t) (w : Q) :
  let y' := fst (Yard.add_work_time y w) in
  let r := snd (Yard.add_work_time y w) in
  r = (if decide (Yard.status y' = Yard.status y)
       then None else Some (Yard.status y')) /\
  Yard.status_history y'
  = Yard.status_history y ++ match r with Some ns => [ns] | None => [] end.
Proof.
  unfold Yard.add_work_time.
  destruct (Qle_bool w 0).
  { simpl. rewrite decide_True by reflexivity. rewrite app_nil_r. split; reflexivity. }
  cbv zeta. destruct (decide _) as [Hne|Heq]; simpl.
  - rewrite decide_False by exact Hne. split; reflexivity.
  - apply dec_stable in Heq. simpl in Heq.
    rewrite decide_True by reflexivity. rewrite app_nil_r. split; reflexivity.
Qed.

Lemma strictly_increasing_snoc_inv (l : list Z) (x y : Z) :
  strictly_increasing (l ++ [y]) = true -> last l = Some x -> (x < y)%Z.
Proof.
  induction l as [|a [|b tl] IH]; intros Hs Hl.
  - discriminate Hl.
  - simpl in *. injection Hl as ->. rewrite andb_true_r in Hs.
    now apply Z.ltb_lt.
  - change (strictly_increasing ((a :: b :: tl) ++ [y]))
      with ((a <? b)%Z && strictly_increasing ((b :: tl) ++ [y])) in Hs.
    apply andb_true_iff in Hs as [_ Hs]. apply IH; [exact Hs|exact Hl].
Qed.

Lemma percentage_reaches_100 (c a : Q) :
  0 < a -> (100 <= Qmin (c / a * 100) 100 <-> a <= c).
Proof.
  intros Ha.
  assert (Hq : c / a * a == c) by (field; lra).
  set (q := c / a) in *.
  destruct (Q.min_spec (q * 100) 100) as [[Hlt Hm]|[Hle Hm]];
    fold (Qmin (q * 100) 100) in Hm; rewrite Hm; split; intros H.
  - lra.
  - exfalso.
    assert (q * a < 1 * a) by (apply Qmult_lt_compat_r; lra).
    lra.
  - assert (1 <= q) by lra.
    assert (1 * a <= q * a) by (apply Qmult_le_compat_r; lra).
    lra.
  - lra.
Qed.

Lemma fully_cleaned_iff (y : Yard.t) :
  yard_inv y ->
  (Yard.status y = YardStatus.PERCENT_100
   <-> Yard.cleaned_area y == Yard.area y).
Proof.
  intros (Ha & _ & _ & Hca & _ & Hst & _).
  assert (Hpct : Yard.get_completion_percentage y
                 = Qmin (Yard.cleaned_area y / Yard.area y * 100) 100).
  { unfold Yard.get_completion_percentage.
    destruct (Qle_bool (Yard.area y) 0) eqn:E; [|reflexivity].
    apply Qle_bool_iff in E. lra. }
  rewrite Hpct in Hst.
  pose proof (percentage_reaches_100 (Yard.cleaned_area y) (Yard.area y) Ha)
    as Hiff.
  set (p := Qmin (Yard.cleaned_area y / Yard.area y * 100) 100) in *.
  split; intros H.
  - assert (100 <= p).
    { rewrite Hst in H. unfold YardStatus.get_status_by_percentage in H.
      destruct (Qle_bool 100 p) eqn:E; [apply Qle_bool_iff in E; exact E|].
      destruct (Qle_bool 80 p), (Qle_bool 60 p), (Qle_bool 40 p),
        (Qle_bool 20 p); discriminate H. }
    apply Hiff in H0. lra.
  - rewrite Hst. unfold YardStatus.get_status_by_percentage.
    assert (Hp : 100 <= p) by (apply Hiff; lra).
    apply Qle_bool_iff in Hp. rewrite Hp. reflexivity.
Qed.

(** The cleaned area as a function of the total work time. *)
Lemma cleaned_area_closed_form_step (y : Yard.t) (w : Q) :
  0 < Yard.cleaning_speed y ->
  Yard.cleaned_area y
    == Qmin (Yard.area y) (Yard.total_work_time y * Yard.cleaning_speed y) ->
  let y' := fst (Yard.add_work_time y w) in
  Yard.cleaned_area y'
    == Qmin (Yard.area y') (Yard.total_work_time y' * Yard.cleaning_speed y').
Proof.
  intros Hs H. cbv zeta.
  destruct (add_work_time_params y w) as (_ & -> & ->).
  rewrite add_work_time_total, add_work_time_cleaned.
  destruct (Qle_bool w 0) eqn:Ew; [exact H|].
  apply Qle_bool_false_iff in Ew.
  assert (Hws : 0 < w * Yard.cleaning_speed y)
    by (apply Qmult_lt_0_compat; assumption).
  assert (Hexp : (Yard.total_work_time y + w) * Yard.cleaning_speed y
                 == Yard.total_work_time y * Yard.cleaning_speed y
                    + w * Yard.cleaning_speed y) by ring.
  destruct (Q.min_spec (Yard.area y)
              (Yard.total_work_time y * Yard.cleaning_speed y))
    as [[H1 M1]|[H1 M1]];
  destruct (Q.min_spec (Yard.area y)
              ((Yard.total_work_time y + w) * Yard.cleaning_speed y))
    as [[H2 M2]|[H2 M2]];
  fold (Qmin (Yard.area y) (Yard.total_work_time y * Yard.cleaning_speed y))
    in M1;
  fold (Qmin (Yard.area y)
          ((Yard.total_work_time y + w) * Yard.cleaning_speed y)) in M2;
  rewrite M2; rewrite M1 in H;
  destruct (Qlt_bool (Yard.area y)
              (Yard.cleaned_area y + w * Yard.cleaning_speed y)) eqn:E;
  [apply Qlt_bool_iff in E | apply Qlt_bool_false_iff in E
  |apply Qlt_bool_iff in E | apply Qlt_bool_false_iff in E
  |apply Qlt_bool_iff in E | apply Qlt_bool_false_iff in E
  |apply Qlt_bool_iff in E | apply Qlt_bool_false_iff in E]; lra.
Qed.

Lemma cleaned_area_closed_form_steps (ws : list Q) (y : Yard.t) :
  0 < Yard.cleaning_speed y ->
  Yard.cleaned_area y
    == Qmin (Yard.area y) (Yard.total_work_time y * Yard.cleaning_speed y) ->
  let y' := fst (Yard.add_work_times y ws) in
  Yard.cleaned_area y'
    == Qmin (Yard.area y') (Yard.total_work_time y' * Yard.cleaning_speed y').
Proof.
  revert y. induction ws as [|w ws IH]; intros y Hs H; simpl; [exact H|].
  pose proof (cleaned_area_closed_form_step y w Hs H) as H1.
  destruct (add_work_time_params y w) as (_ & _ & Hs1).
  destruct (Yard.add_work_time y w) as [y1 r]. simpl in H1, Hs1.
  rewrite <- Hs1 in Hs. specialize (IH y1 Hs H1).
  destruct (Yard.add_work_times y1 ws) as [y2 rs]. exact IH.
Qed.

(** In the exact arithmetic of the embedding, the cleaned area of a yard
    built by the constructor is, after any sequence of [add_work_time]
    calls, the total work time multiplied by the cleaning rate and capped
    at the area. *)
Theorem cleaned_area_is_capped_work (i : Z) (a s : Q) (ws : list Q) :
  (0 < i)%Z -> 0 < a -> 0 < s ->
  exists y0,
    Yard.init i a s = Return y0 /\
    let y := fst (Yard.add_work_times y0 ws) in
    Yard.cleaned_area y == Qmin a (Yard.total_work_time y * s).
Proof.
  intros Hi Ha Hs.
  destruct (init_succeeds i a s Hi Ha Hs) as [y0 Hy0].
  exists y0. split; [exact Hy0|].
  destruct (init_inv _ _ _ _ Hy0) as (_ & Harea & Hspeed & _ & _ & Hc & Ht & _).
  destruct (add_work_times_params ws y0) as (_ & Ha' & Hs').
  pose proof (cleaned_area_closed_form_steps ws y0) as H.
  cbv zeta in *. rewrite Ha', Hs', Harea, Hspeed in H. apply H; [exact Hs|].
  rewrite Hc, Ht.
  destruct (Q.min_spec a (0 * s)) as [[H1 M]|[H1 M]];
    fold (Qmin a (0 * s)) in M; rewrite M; lra.
Qed.

Lemma cleaned_area_is_capped_work_witness :
  exists y0,
    Yard.init 1 100 2 = Return y0 /\
    let y := fst (Yard.add_work_times y0 [30; -5; 40]) in
    Yard.cleaned_area y == Qmin 100 (Yard.total_work_time y * 2).
Proof.
  apply (cleaned_area_is_capped_work 1 100 2 [30; -5; 40]); reflexivity.
Defined.

(** Once a yard built by the constructor has reached band 100, a further
    [add_work_time] call reports no transition and leaves the status, the
    status history and the cleaned area (the whole area) in place, whatever
    work time it is given. *)
Theorem full_yard_absorbs_work (i : Z) (a s : Q) (ws : list Q) (w : Q) :
  (0 < i)%Z -> 0 < a -> 0 < s ->
  exists y0,
    Yard.init i a s = Return y0 /\
    let y := fst (Yard.add_work_times y0 ws) in
    Yard.status y = YardStatus.PERCENT_100 ->
    snd (Yard.add_work_time y w) = None /\
    Yard.status (fst (Yard.add_work_time y w)) = YardStatus.PERCENT_100 /\
    Yard.status_history (fst (Yard.add_work_time y w)) = Yard.status_history y /\
    Yard.cleaned_area (fst (Yard.add_work_time y w)) == a.
Proof.
  intros Hi Ha Hs.
  destruct (init_succeeds i a s Hi Ha Hs) as [y0 Hy0].
  exists y0. split; [exact Hy0|]. cbv zeta. intros Hfull.
  destruct (init_inv _ _ _ _ Hy0) as (Hinv0 & Harea & _).
  destruct (add_work_times_inv ws y0 Hinv0) as (Hinv & Ha1 & _).
  set (y := fst (Yard.add_work_times y0 ws)) in *.
  destruct (add_work_time_step y w Hinv) as (Hinv' & Ha2 & _).
  destruct (add_work_time_result y w) as [Hr Hh]. cbv zeta in Hr, Hh.
  assert (Hnone : snd (Yard.add_work_time y w) = None).
  { destruct (snd (Yard.add_work_time y w)) as [ns|] eqn:Er; [|reflexivity].
    exfalso.
    destruct (decide (Yard.status (fst (Yard.add_work_time y w)) = Yard.status y));
      [discriminate Hr|]. injection Hr as ->.
    destruct Hinv as (_ & _ & _ & _ & _ & _ & _ & Hlast & _).
    destruct Hinv' as (_ & _ & _ & _ & _ & _ & _ & _ & Hinc).
    rewrite Hh, map_app in Hinc. simpl in Hinc.
    apply strictly_increasing_snoc_inv
      with (x := YardStatus.value (Yard.status y)) in Hinc;
      [|apply last_map_value, Hlast].
    rewrite Hfull in Hinc.
    destruct (Yard.status (fst (Yard.add_work_time y w))); simpl in Hinc; lia. }
  rewrite Hnone in Hr, Hh. rewrite app_nil_r in Hh.
  assert (Hst : Yard.status (fst (Yard.add_work_time y w))
                = YardStatus.PERCENT_100).
  { destruct (decide (Yard.status (fst (Yard.add_work_time y w)) = Yard.status y))
      as [E|E]; [congruence|discriminate Hr]. }
  repeat split; try assumption.
  apply (fully_cleaned_iff _ Hinv') in Hst. rewrite Hst, Ha2, Ha1, Harea.
  reflexivity.
Qed.

Lemma full_yard_absorbs_work_witness :
  exists y0,
    Yard.init 1 100 1 = Return y0 /\
    snd (Yard.add_work_time (fst (Yard.add_work_times y0 [120])) 30) = None.
Proof.
  destruct (full_yard_absorbs_work 1 100 1 [120] 30
              eq_refl eq_refl eq_refl) as (y0 & Hy0 & H).
  exists y0. split; [exact Hy0|].
  injection Hy0 as <-. exact (proj1 (H eq_refl)).
Defined.

(** [reset_cleaning_progress] undoes every [add_work_time]: applied to a
    yard built by the constructor and mutated by any sequence of calls, it
    gives back the yard as the constructor built it. *)
Theorem reset_restores_constructed_yard (i : Z) (a s : Q) (ws : list Q) :
  (0 < i)%Z -> 0 < a -> 0 < s ->
  exists y0,
    Yard.init i a s = Return y0 /\
    Yard.reset_cleaning_progress (fst (Yard.add_work_times y0 ws)) = y0.
Proof.
  intros Hi Ha Hs.
  destruct (init_succeeds i a s Hi Ha Hs) as [y0 Hy0].
  exists y0. split; [exact Hy0|].
  destruct (add_work_times_params ws y0) as (Hid & Harea & Hspeed).
  unfold Yard.reset_cleaning_progress. rewrite Hid, Harea, Hspeed.
  destruct (init_inv _ _ _ _ Hy0) as (_ & _ & _ & _ & _ & Hc & Ht & Hst & Hh).
  destruct y0; simpl in *. subst. reflexivity.
Qed.

Lemma reset_restores_constructed_yard_witness :
  exists y0,
    Yard.init 1 100 1 = Return y0 /\
    Yard.reset_cleaning_progress (fst (Yard.add_work_times y0 [50; 70])) = y0.
Proof.
  apply (reset_restores_constructed_yard 1 100 1 [50; 70]); reflexivity.
Defined.

(** On a yard built by the constructor, after any sequence of
    [add_work_time] calls: the remaining area is the area minus the cleaned
    area and is not negative; the yard is fully cleaned exactly when nothing
    remains, which is exactly when the estimated completion time is 0. *)
Theorem remaining_area_and_estimate (i : Z) (a s : Q) (ws : list Q) :
  (0 < i)%Z -> 0 < a -> 0 < s ->
  exists y0,
    Yard.init i a s = Return y0 /\
    let y := fst (Yard.add_work_times y0 ws) in
    0 <= Yard.get_remaining_area y /\
    Yard.get_remaining_area y + Yard.cleaned_area y == a /\
    (Yard.is_fully_cleaned y = true <-> Yard.get_remaining_area y == 0) /\
    (Yard.is_fully_cleaned y = true
     <-> Yard.get_estimated_completion_time y == 0).
Proof.
  intros Hi Ha Hs.
  destruct (init_succeeds i a s Hi Ha Hs) as [y0 Hy0].
  exists y0. split; [exact Hy0|]. cbv zeta.
  destruct (init_inv _ _ _ _ Hy0) as (Hinv0 & Harea & Hspeed & _).
  destruct (add_work_times_inv ws y0 Hinv0) as (Hinv & Ha1 & _).
  destruct (add_work_times_params ws y0) as (_ & _ & Hs1).
  set (y := fst (Yard.add_work_times y0 ws)) in *.
  pose proof (fully_cleaned_iff y Hinv) as Hfull.
  destruct Hinv as (_ & _ & Hc0 & Hca & _).
  rewrite Ha1, Harea in Hca, Hfull.
  assert (Hrem : Yard.get_remaining_area y == a - Yard.cleaned_area y).
  { unfold Yard.get_remaining_area. rewrite Ha1, Harea.
    destruct (Q.max_spec 0 (a - Yard.cleaned_area y)) as [[H1 M]|[H1 M]];
      fold (Qmax 0 (a - Yard.cleaned_area y)) in M; rewrite M; lra. }
  assert (Hfc : Yard.is_fully_cleaned y = true
                <-> Yard.get_remaining_area y == 0).
  { unfold Yard.is_fully_cleaned. rewrite bool_decide_eq_true, Hfull, Hrem.
    split; intros H; lra. }
  assert (Hest : Yard.get_estimated_completion_time y * s
                 == Yard.get_remaining_area y).
  { unfold Yard.get_estimated_completion_time. rewrite Hs1, Hspeed.
    destruct (Qle_bool (Yard.get_remaining_area y) 0) eqn:E1; simpl.
    { apply Qle_bool_iff in E1. lra. }
    destruct (Qle_bool s 0) eqn:E2.
    { apply Qle_bool_iff in E2. lra. }
    field. lra. }
  repeat apply conj; try lra; try (apply Hfc).
  - intros H. apply Hfc in H. rewrite H in Hest.
    assert (Hz : Yard.get_estimated_completion_time y * s == 0 * s) by lra.
    apply Qmult_inj_r in Hz; [exact Hz|lra].
  - intros H. apply Hfc. rewrite <- Hest, H. ring.
Qed.

Lemma remaining_area_and_estimate_witness :
  exists y0,
    Yard.init 1 100 2 = Return y0 /\
    let y := fst (Yard.add_work_times y0 [10; 15]) in
    0 <= Yard.get_remaining_area y /\
    Yard.get_remaining_area y + Yard.cleaned_area y == 100 /\
    (Yard.is_fully_cleaned y = true <-> Yard.get_remaining_area y == 0) /\
    (Yard.is_fully_cleaned y = true
     <-> Yard.get_estimated_completion_time y == 0).
Proof.
  apply (remaining_area_and_estimate 1 100 2 [10; 15]); reflexivity.
Defined.

End YardExtras.

(** ** Sums over dictionaries *)

Section SumFacts.
Local Open Scope Q_scope.
Context {A : Type} (f : A -> Q).

Lemma sum_over_empty : sum_over f ∅ = 0.
Proof. unfold sum_over. apply map_fold_empty. Qed.

Lemma sum_over_insert_fresh (m : gmap Z A) (k : Z) (a : A) :
  m !! k = None -> sum_over f (<[k := a]> m) == sum_over f m + f a.
Proof.
  intros Hk. unfold sum_over.
  apply (map_fold_insert Qeq (fun _ a acc => acc + f a)).
  - intros j z x y Hxy. rewrite Hxy. reflexivity.
  - intros. ring.
  - exact Hk.
Qed.

Lemma sum_over_delete (m : gmap Z A) (k : Z) (a : A) :
  m !! k = Some a -> sum_over f m == sum_over f (delete k m) + f a.
Proof.
  intros Hk. rewrite <- (insert_delete_id m k a Hk) at 1.
  apply sum_over_insert_fresh, lookup_delete_eq.
Qed.

(** Writing key [k] changes the sum by the difference of the values. *)
Lemma sum_over_insert (m : gmap Z A) (k : Z) (a : A) :
  sum_over f (<[k := a]> m)
    + match m !! k with Some a0 => f a0 | None => 0 end
  == sum_over f m + f a.
Proof.
  destruct (m !! k) as [a0|] eqn:Hk.
  - rewrite (sum_over_delete m k a0 Hk).
    rewrite <- insert_delete_eq.
    rewrite sum_over_insert_fresh by apply lookup_delete_eq. ring.
  - rewrite sum_over_insert_fresh by exact Hk. ring.
Qed.

Lemma sum_over_nonneg (m : gmap Z A) :
  (forall k a, m !! k = Some a -> 0 <= f a) -> 0 <= sum_over f m.
Proof.
  unfold sum_over.
  apply (map_fold_weak_ind
           (fun acc m => (forall k a, m !! k = Some a -> 0 <= f a) -> 0 <= acc)).
  - intros _. lra.
  - intros k a m' acc Hk IH H.
    assert (0 <= acc).
    { apply IH. intros k' a' Hk'. apply (H k' a').
      rewrite lookup_insert_ne; [exact Hk'|]. intros ->. congruence. }
    assert (0 <= f a) by (apply (H k a), lookup_insert_eq). lra.
Qed.

End SumFacts.

(** ** Machines *)

Section MachineExtras.
Local Open Scope Q_scope.

Lemma dwell_credited_positive (m : Machine.t) (message : MachineMessage.t) :
  dwell_credited m message = true -> 0 < report_work_time m message.
Proof.
  unfold dwell_credited.
  destruct (Machine.current_yard_id m), (Machine._yard_entry_time m);
    intros H; try discriminate H.
  apply Qlt_bool_iff, H.
Qed.

Lemma update_position_dwell_positive (m : Machine.t) (message : MachineMessage.t) :
  dwell_positive m -> dwell_positive (fst (Machine.update_position m message)).
Proof.
  intros Hpos k v Hk.
  pose proof (update_position_fields m message)
    as (_ & _ & _ & _ & _ & _ & _ & _ & _ & _ & Hh).
  rewrite Hh in Hk.
  destruct (Machine.current_yard_id m) as [cur|]; [|exact (Hpos k v Hk)].
  destruct (dwell_credited m message) eqn:Ed; [|exact (Hpos k v Hk)].
  apply dwell_credited_positive in Ed.
  destruct (decide (cur = k)) as [->|Hne].
  - rewrite add_work_time_lookup in Hk. injection Hk as <-.
    destruct (Machine.yard_work_history m !! k) as [v0|] eqn:E; simpl.
    + specialize (Hpos k v0 E). lra.
    + lra.
  - rewrite add_work_time_lookup_ne in Hk by exact Hne. exact (Hpos k v Hk).
Qed.

Lemma update_positions_dwell_positive
    (messages : list MachineMessage.t) (m : Machine.t) :
  dwell_positive m -> dwell_positive (Machine.update_positions m messages).
Proof.
  revert m. induction messages as [|msg rest IH]; intros m H; simpl.
  - exact H.
  - apply IH, update_position_dwell_positive, H.
Qed.

(** For a machine built by the constructor, after any sequence of reports:
    [get_total_work_time_in_yard] is positive for exactly the yards recorded
    in the dwell map and 0 for every other yard; no yard is recorded with a
    zero dwell. *)
Theorem recorded_dwell_is_positive
    (id : Z) (messages : list MachineMessage.t) (k : Z) :
  (0 < id)%Z ->
  exists m0,
    Machine.init id = Return m0 /\
    let m := Machine.update_positions m0 messages in
    (0 < Machine.get_total_work_time_in_yard m k
     <-> is_Some (Machine.yard_work_history m !! k)) /\
    (Machine.yard_work_history m !! k = None ->
     Machine.get_total_work_time_in_yard m k = 0).
Proof.
  intros Hid.
  destruct (machine_init_succeeds id Hid) as (m0 & Hm0 & _).
  exists m0. split; [exact Hm0|]. cbv zeta.
  assert (Hpos0 : dwell_positive m0).
  { unfold Machine.init in Hm0. destruct (id <=? 0)%Z; [discriminate|].
    injection Hm0 as <-. intros k' v H. simpl in H.
    rewrite lookup_empty in H. discriminate H. }
  pose proof (update_positions_dwell_positive messages m0 Hpos0) as Hpos.
  unfold Machine.get_total_work_time_in_yard.
  destruct (Machine.yard_work_history (Machine.update_positions m0 messages) !! k)
    as [v|] eqn:E; simpl.
  - split; [|intros [=]]. split; [eauto|]. intros _. exact (Hpos k v E).
  - split; [|reflexivity]. split; [intros H; lra|intros [? [=]]].
Qed.

Lemma recorded_dwell_is_positive_witness :
  exists m0,
    Machine.init 7 = Return m0 /\
    let m := Machine.update_positions m0
               [report_yard_1_at_0; report_outside_at_120s] in
    (0 < Machine.get_total_work_time_in_yard m 1
     <-> is_Some (Machine.yard_work_history m !! 1%Z)) /\
    (Machine.yard_work_history m !! 1%Z = None ->
     Machine.get_total_work_time_in_yard m 1 = 0).
Proof.
  apply (recorded_dwell_is_positive 7
           [report_yard_1_at_0; report_outside_at_120s] 1).
  reflexivity.
Defined.

(** For a machine built by the constructor, after any sequence of reports,
    the previous yard differs from the current yard whenever the machine is
    in a yard. *)
Theorem previous_yard_differs_from_current
    (id : Z) (messages : list MachineMessage.t) :
  (0 < id)%Z ->
  exists m0,
    Machine.init id = Return m0 /\
    let m := Machine.update_positions m0 messages in
    is_Some (Machine.current_yard_id m) ->
    Machine.previous_yard_id m <> Machine.current_yard_id m.
Proof.
  intros Hid.
  destruct (machine_init_succeeds id Hid) as (m0 & Hm0 & _ & _ & _ & _ & Hc0).
  exists m0. split; [exact Hm0|]. cbv zeta.
  assert (H0 : is_Some (Machine.current_yard_id m0) ->
               Machine.previous_yard_id m0 <> Machine.current_yard_id m0)
    by (rewrite Hc0; intros [? [=]]).
  clear Hm0 Hc0. revert m0 H0.
  induction messages as [|msg rest IH]; intros m H; simpl; [exact H|].
  apply IH.
  pose proof (update_position_fields m msg)
    as (_ & _ & _ & _ & Hcur & Hprev & _).
  rewrite Hcur, Hprev.
  case_bool_decide as Hd.
  - intros _. exact Hd.
  - rewrite <- Hd. exact H.
Qed.

Lemma previous_yard_differs_from_current_witness :
  exists m0,
    Machine.init 7 = Return m0 /\
    Machine.previous_yard_id
      (Machine.update_positions m0 [report_yard_1_at_0; report_yard_9_at_50s])
    <> Machine.current_yard_id
         (Machine.update_positions m0 [report_yard_1_at_0; report_yard_9_at_50s]).
Proof.
  destruct (previous_yard_differs_from_current 7
              [report_yard_1_at_0; report_yard_9_at_50s] eq_refl)
    as (m0 & Hm0 & H).
  exists m0. split; [exact Hm0|].
  injection Hm0 as <-. apply H. eexists. reflexivity.
Defined.








End MachineExtras.

(** ** The service's reports *)

Section ServiceExtras.
Local Open Scope Q_scope.

Lemma values_spec {A : Type} (d : gmap Z A) (a : A) :
  In a (CleaningService.values d) <-> exists k, d !! k = Some a.
Proof.
  unfold CleaningService.values. rewrite in_map_iff. split.
  - intros [[k a'] [<- Hin]]. exists k.
    apply list_elem_of_In, elem_of_map_to_list in Hin. exact Hin.
  - intros [k Hk]. exists (k, a). split; [reflexivity|].
    apply list_elem_of_In, elem_of_map_to_list, Hk.
Qed.

Lemma values_length {A : Type} (d : gmap Z A) :
  length (CleaningService.values d) = size d.
Proof.
  unfold CleaningService.values. rewrite length_map. apply length_map_to_list.
Qed.

Lemma issues_loop_nil (l : list Yard.t) (acc : list issue) :
  fold_left (fun issues yard => issues ++ CleaningService.yard_issues yard) l acc
  = []
  <-> acc = [] /\ forall y, In y l -> CleaningService.yard_issues y = [].
Proof.
  revert acc. induction l as [|y l IH]; intros acc; simpl.
  - split; [intros ->; split; [reflexivity|intros ? []]|intros [-> _]; reflexivity].
  - rewrite IH. split.
    + intros [Happ Hl]. apply app_eq_nil in Happ as [-> Hy].
      split; [reflexivity|]. intros y' [<-|Hin]; [exact Hy|exact (Hl y' Hin)].
    + intros [-> H]. split.
      * rewrite (H y) by (left; reflexivity). reflexivity.
      * intros y' Hin. apply H. right. exact Hin.
Qed.

Lemma yard_issues_nil (y : Yard.t) :
  CleaningService.yard_issues y = [] <-> yard_consistent y.
Proof.
  unfold CleaningService.yard_issues, yard_consistent. cbn.
  destruct (decide (Yard.status y
                    <> YardStatus.get_status_by_percentage
                         (Yard.get_completion_percentage y))) as [Hne|Heq].
  { split; [intros [=]|intros [H _]; contradiction]. }
  apply dec_stable in Heq.
  destruct (Qlt_bool (Yard.area y) (Yard.cleaned_area y)) eqn:E1.
  { apply Qlt_bool_iff in E1. split; [intros [=]|intros (_ & H & _); lra]. }
  apply Qlt_bool_false_iff in E1.
  destruct (Qlt_bool (Yard.cleaned_area y) 0) eqn:E2; simpl.
  { apply Qlt_bool_iff in E2. split; [intros [=]|intros (_ & _ & H & _); lra]. }
  apply Qlt_bool_false_iff in E2.
  destruct (Qlt_bool (Yard.total_work_time y) 0) eqn:E3; simpl.
  { apply Qlt_bool_iff in E3. split; [intros [=]|intros (_ & _ & _ & H); lra]. }
  apply Qlt_bool_false_iff in E3.
  split; [intros _; auto|reflexivity].
Qed.

(** [validate_yard_consistency] returns no issue exactly when every yard of
    the directory has the status of its completion percentage, a cleaned
    area between 0 and its area, and a total work time that is not
    negative. *)
Theorem validator_reports_nothing_iff_consistent (yards : gmap Z Yard.t) :
  CleaningService.validate_yard_consistency yards = []
  <-> (forall (k : Z) (y : Yard.t), yards !! k = Some y -> yard_consistent y).
Proof.
  unfold CleaningService.validate_yard_consistency.
  rewrite issues_loop_nil. split.
  - intros [_ H] k y Hk. apply yard_issues_nil, H, values_spec. eauto.
  - intros H. split; [reflexivity|]. intros y Hin.
    apply values_spec in Hin as [k Hk]. apply yard_issues_nil, (H k y Hk).
Qed.

Lemma validator_reports_nothing_iff_consistent_witness :
  CleaningService.validate_yard_consistency {[ 1%Z := yard_1 ]} = [].
Proof.
  apply (proj2 (validator_reports_nothing_iff_consistent {[ 1%Z := yard_1 ]})).
  intros k y Hk. apply lookup_singleton_Some in Hk as [_ <-].
  repeat split; discriminate.
Defined.

Lemma yard_inv_consistent (y : Yard.t) : yard_inv y -> yard_consistent y.
Proof.
  intros (_ & _ & Hc0 & Hca & Ht & Hst & _). repeat split; assumption.
Qed.

Lemma completion_percentage_range (y : Yard.t) :
  yard_inv y ->
  0 <= Yard.get_completion_percentage y /\ Yard.get_completion_percentage y <= 100.
Proof.
  intros (Ha & _ & Hc0 & _).
  unfold Yard.get_completion_percentage.
  destruct (Qle_bool (Yard.area y) 0) eqn:E; [split; lra|].
  assert (0 <= Yard.cleaned_area y / Yard.area y)
    by (apply Qle_shift_div_l; lra).
  destruct (Q.min_spec (Yard.cleaned_area y / Yard.area y * 100) 100)
    as [[H1 M]|[H1 M]];
    fold (Qmin (Yard.cleaned_area y / Yard.area y * 100) 100) in M;
    rewrite M; split; lra.
Qed.

Lemma yard_statistics_step_counts
    (acc : CleaningService.yard_totals) (y : Yard.t) :
  let acc1 := CleaningService.yard_statistics_step acc y in
  (CleaningService.acc_cleaned_yards acc
   <= CleaningService.acc_cleaned_yards acc1)%Z /\
  (CleaningService.acc_partially_cleaned_yards acc
   <= CleaningService.acc_partially_cleaned_yards acc1)%Z /\
  (CleaningService.acc_cleaned_yards acc1
   + CleaningService.acc_partially_cleaned_yards acc1
   <= CleaningService.acc_cleaned_yards acc
      + CleaningService.acc_partially_cleaned_yards acc + 1)%Z.
Proof.
  unfold CleaningService.yard_statistics_step. cbn.
  destruct (Yard.is_fully_cleaned y);
    [|destruct (Qlt_bool 0 (Yard.get_completion_percentage y))];
    repeat split; lia.
Qed.

Lemma yard_totals_counts (l : list Yard.t) (acc : CleaningService.yard_totals) :
  let acc' := fold_left CleaningService.yard_statistics_step l acc in
  (CleaningService.acc_cleaned_yards acc
   <= CleaningService.acc_cleaned_yards acc')%Z /\
  (CleaningService.acc_partially_cleaned_yards acc
   <= CleaningService.acc_partially_cleaned_yards acc')%Z /\
  (CleaningService.acc_cleaned_yards acc'
   + CleaningService.acc_partially_cleaned_yards acc'
   <= CleaningService.acc_cleaned_yards acc
      + CleaningService.acc_partially_cleaned_yards acc
      + Z.of_nat (length l))%Z.
Proof.
  revert acc. induction l as [|y l IH]; intros acc; [simpl; lia|].
  pose proof (yard_statistics_step_counts acc y) as (S1 & S2 & S3).
  specialize (IH (CleaningService.yard_statistics_step acc y)).
  cbv zeta in *. destruct IH as (H1 & H2 & H3).
  simpl fold_left. simpl length. rewrite Nat2Z.inj_succ.
  repeat split; lia.
Qed.

Lemma yard_statistics_step_sums
    (acc : CleaningService.yard_totals) (y : Yard.t) :
  yard_inv y ->
  let acc1 := CleaningService.yard_statistics_step acc y in
  CleaningService.acc_total_area acc < CleaningService.acc_total_area acc1 /\
  CleaningService.acc_cleaned_area acc <= CleaningService.acc_cleaned_area acc1 /\
  CleaningService.acc_cleaned_area acc1 - CleaningService.acc_cleaned_area acc
  <= CleaningService.acc_total_area acc1 - CleaningService.acc_total_area acc /\
  CleaningService.acc_completion_sum acc
  <= CleaningService.acc_completion_sum acc1 /\
  CleaningService.acc_completion_sum acc1
  <= CleaningService.acc_completion_sum acc + 100.
Proof.
  intros Hy.
  pose proof (completion_percentage_range y Hy) as [Hp0 Hp100].
  destruct Hy as (Ha & _ & Hc0 & Hca & _).
  unfold CleaningService.yard_statistics_step. cbn.
  repeat split; lra.
Qed.

Lemma yard_totals_sums (l : list Yard.t) (acc : CleaningService.yard_totals) :
  (forall y, In y l -> yard_inv y) ->
  let acc' := fold_left CleaningService.yard_statistics_step l acc in
  CleaningService.acc_total_area acc <= CleaningService.acc_total_area acc' /\
  (l <> [] ->
   CleaningService.acc_total_area acc < CleaningService.acc_total_area acc') /\
  CleaningService.acc_cleaned_area acc <= CleaningService.acc_cleaned_area acc' /\
  CleaningService.acc_cleaned_area acc' - CleaningService.acc_cleaned_area acc
  <= CleaningService.acc_total_area acc' - CleaningService.acc_total_area acc /\
  CleaningService.acc_completion_sum acc
  <= CleaningService.acc_completion_sum acc' /\
  CleaningService.acc_completion_sum acc'
  <= CleaningService.acc_completion_sum acc
     + 100 * inject_Z (Z.of_nat (length l)).
Proof.
  revert acc. induction l as [|y l IH]; intros acc Hinv.
  - simpl. change (inject_Z (Z.of_nat 0)) with 0.
    repeat split; try lra. intros H; contradiction.
  - assert (Hy : yard_inv y) by (apply Hinv; left; reflexivity).
    pose proof (yard_statistics_step_sums acc y Hy) as (S1 & S2 & S3 & S4 & S5).
    specialize (IH (CleaningService.yard_statistics_step acc y)
                  (fun y' H => Hinv y' (or_intror H))).
    cbv zeta in *. destruct IH as (H1 & _ & H3 & H4 & H5 & H6).
    assert (Hlen : inject_Z (Z.of_nat (length (y :: l)))
                   == inject_Z (Z.of_nat (length l)) + 1).
    { simpl length. rewrite Nat2Z.inj_succ, <- Z.add_1_r, inject_Z_plus.
      reflexivity. }
    rewrite Hlen. simpl fold_left.
    repeat split; try lra; intros _; lra.
Qed.

(** [calculate_yard_statistics] counts every yard once: the three counts
    are not negative and add up to the number of yards.  The keys
    [untouched_yards] and [cleaning_efficiency] are missing from the result
    exactly when the directory is empty. *)
Theorem yard_statistics_partition (yards : gmap Z Yard.t) :
  let st := CleaningService.calculate_yard_statistics yards in
  YardStatistics.total_yards st = Z.of_nat (size yards) /\
  (0 <= YardStatistics.cleaned_yards st)%Z /\
  (0 <= YardStatistics.partially_cleaned_yards st)%Z /\
  match YardStatistics.untouched_yards st with
  | Some untouched =>
      yards <> ∅ /\ (0 <= untouched)%Z /\
      (YardStatistics.cleaned_yards st
       + YardStatistics.partially_cleaned_yards st + untouched
       = YardStatistics.total_yards st)%Z /\
      is_Some (YardStatistics.cleaning_efficiency st)
  | None => yards = ∅ /\ YardStatistics.cleaning_efficiency st = None
  end.
Proof.
  unfold CleaningService.calculate_yard_statistics.
  pose proof (values_length yards) as Hlen.
  destruct (CleaningService.values yards) as [|y l] eqn:E.
  - simpl in Hlen. symmetry in Hlen. apply map_size_empty_iff in Hlen.
    subst yards. cbn. rewrite map_size_empty. repeat split; lia.
  - pose proof (yard_totals_counts (y :: l)
                  (CleaningService.mk_yard_totals 0 0 0 0 0)) as (H1 & H2 & H3).
    cbn [CleaningService.acc_cleaned_yards
         CleaningService.acc_partially_cleaned_yards] in H1, H2, H3.
    rewrite Hlen in H3. cbn -[fold_left].
    repeat split; try lia; [|eauto].
    intros ->. rewrite map_size_empty in Hlen. discriminate Hlen.
Qed.

(** For a directory that is not empty and whose yards satisfy the yard
    invariant, [calculate_yard_statistics] reports a positive total area, a
    cleaned area between 0 and the total area, and an average completion
    and a cleaning efficiency between 0 and 100. *)
Theorem yard_statistics_bounds (yards : gmap Z Yard.t) :
  directory_inv yards ->
  yards <> ∅ ->
  let st := CleaningService.calculate_yard_statistics yards in
  0 < YardStatistics.total_area st /\
  0 <= YardStatistics.cleaned_area st /\
  YardStatistics.cleaned_area st <= YardStatistics.total_area st /\
  0 <= YardStatistics.average_completion st /\
  YardStatistics.average_completion st <= 100 /\
  exists e,
    YardStatistics.cleaning_efficiency st = Some e /\ 0 <= e /\ e <= 100.
Proof.
  intros Hinv Hne.
  unfold CleaningService.calculate_yard_statistics.
  pose proof (values_length yards) as Hlen.
  assert (Hall : forall y, In y (CleaningService.values yards) -> yard_inv y).
  { intros y Hin. apply values_spec in Hin as [k Hk]. exact (Hinv k y Hk). }
  destruct (CleaningService.values yards) as [|y l] eqn:E.
  { exfalso. apply Hne. apply map_size_empty_iff. simpl in Hlen. lia. }
  pose proof (yard_totals_sums (y :: l)
                (CleaningService.mk_yard_totals 0 0 0 0 0) Hall)
    as (_ & H2 & H3 & H4 & H5 & H6).
  specialize (H2 ltac:(discriminate)).
  cbn [CleaningService.acc_total_area CleaningService.acc_cleaned_area
       CleaningService.acc_completion_sum] in H2, H3, H4, H5, H6.
  rewrite Hlen in H6.
  set (acc := fold_left CleaningService.yard_statistics_step (y :: l)
                (CleaningService.mk_yard_totals 0 0 0 0 0)) in *.
  assert (Hn : (0 < Z.of_nat (size yards))%Z) by (rewrite <- Hlen; simpl; lia).
  assert (HnQ : 0 < inject_Z (Z.of_nat (size yards)))
    by (change 0 with (inject_Z 0); rewrite <- Zlt_Qlt; exact Hn).
  cbv zeta.
  cbn [YardStatistics.total_area YardStatistics.cleaned_area
       YardStatistics.average_completion YardStatistics.cleaning_efficiency].
  apply Z.ltb_lt in Hn. rewrite Hn.
  apply Qlt_bool_iff in H2 as H2b. rewrite H2b.
  repeat split; try lra.
  - apply Qle_shift_div_l; [exact HnQ|lra].
  - apply Qle_shift_div_r; [exact HnQ|lra].
  - eexists. split; [reflexivity|].
    assert (0 <= CleaningService.acc_cleaned_area acc
                 / CleaningService.acc_total_area acc)
      by (apply Qle_shift_div_l; lra).
    assert (CleaningService.acc_cleaned_area acc
            / CleaningService.acc_total_area acc <= 1)
      by (apply Qle_shift_div_r; lra).
    split; lra.
Qed.

Lemma yard_1_inv : yard_inv yard_1.
Proof. exact (proj1 (init_inv 1 100 1 yard_1 eq_refl)). Qed.

Lemma yard_statistics_bounds_witness :
  0 < YardStatistics.total_area
        (CleaningService.calculate_yard_statistics {[ 1%Z := yard_1 ]}).
Proof.
  refine (proj1 (yard_statistics_bounds {[ 1%Z := yard_1 ]} _ _)).
  - intros k y Hk. apply lookup_singleton_Some in Hk as [_ <-].
    exact yard_1_inv.
  - apply insert_non_empty.
Defined.

Lemma machine_statistics_step_counts (acc : Z * Z) (m : Machine.t) :
  (fst acc <= fst (CleaningService.machine_statistics_step acc m) <= fst acc + 1)%Z
  /\ (snd acc <= snd (CleaningService.machine_statistics_step acc m))%Z.
Proof.
  unfold CleaningService.machine_statistics_step. cbn.
  destruct (Machine.current_yard_id m); lia.
Qed.

Lemma machine_totals_counts (l : list Machine.t) (acc : Z * Z) :
  let acc' := fold_left CleaningService.machine_statistics_step l acc in
  (fst acc <= fst acc' <= fst acc + Z.of_nat (length l))%Z /\
  (snd acc <= snd acc')%Z.
Proof.
  revert acc. induction l as [|m l IH]; intros acc; [simpl; lia|].
  pose proof (machine_statistics_step_counts acc m) as [S1 S2].
  specialize (IH (CleaningService.machine_statistics_step acc m)).
  cbv zeta in *. destruct IH as [H1 H2].
  simpl fold_left. simpl length. rewrite Nat2Z.inj_succ. lia.
Qed.

(** [calculate_machine_statistics] splits the machines into active and idle
    ones: both counts are not negative and add up to the number of
    machines, and the number of work sessions is not negative.  The key
    [average_work_sessions] is missing from the result exactly when there
    is no machine. *)
Theorem machine_statistics_partition (machines : gmap Z Machine.t) :
  let st := CleaningService.calculate_machine_statistics machines in
  MachineStatistics.total_machines st = Z.of_nat (size machines) /\
  (0 <= MachineStatistics.active_machines st)%Z /\
  (0 <= MachineStatistics.idle_machines st)%Z /\
  (MachineStatistics.active_machines st + MachineStatistics.idle_machines st
   = MachineStatistics.total_machines st)%Z /\
  (0 <= MachineStatistics.total_work_sessions st)%Z /\
  match MachineStatistics.average_work_sessions st with
  | Some _ => machines <> ∅
  | None => machines = ∅
  end.
Proof.
  unfold CleaningService.calculate_machine_statistics.
  pose proof (values_length machines) as Hlen.
  destruct (CleaningService.values machines) as [|m l] eqn:E.
  - simpl in Hlen. symmetry in Hlen. apply map_size_empty_iff in Hlen.
    subst machines. cbn. rewrite map_size_empty. repeat split; lia.
  - pose proof (machine_totals_counts (m :: l) (0, 0)%Z) as [H1 H2].
    cbn [fst snd] in H1, H2. rewrite Hlen in H1. cbn -[fold_left].
    repeat split; try lia.
    intros ->. rewrite map_size_empty in Hlen. discriminate Hlen.
Qed.

(** A call that reports a transition has raised the yard's band. *)
Lemma add_work_time_transition (y : Yard.t) (w : Q) (ns : YardStatus.t) :
  yard_inv y ->
  snd (Yard.add_work_time y w) = Some ns ->
  Yard.status (fst (Yard.add_work_time y w)) = ns /\
  (YardStatus.value (Yard.status y) < YardStatus.value ns)%Z /\
  0 < w.
Proof.
  intros Hinv Hr.
  destruct (add_work_time_step y w Hinv) as (Hinv' & _).
  destruct (add_work_time_result y w) as [Hres Hh]. cbv zeta in Hres, Hh.
  rewrite Hr in Hres, Hh.
  destruct (decide (Yard.status (fst (Yard.add_work_time y w)) = Yard.status y));
    [discriminate Hres|]. injection Hres as Hns.
  destruct Hinv as (_ & _ & _ & _ & _ & _ & _ & Hlast & _).
  destruct Hinv' as (_ & _ & _ & _ & _ & _ & _ & _ & Hinc).
  rewrite Hh, map_app in Hinc. simpl in Hinc.
  apply strictly_increasing_snoc_inv
    with (x := YardStatus.value (Yard.status y)) in Hinc;
    [|apply last_map_value, Hlast].
  repeat split; [congruence|exact Hinc|].
  unfold Yard.add_work_time in Hr.
  destruct (Qle_bool w 0) eqn:E; [discriminate Hr|].
  apply Qle_bool_false_iff, E.
Qed.

Lemma add_work_time_silent (y : Yard.t) (w : Q) :
  snd (Yard.add_work_time y w) = None ->
  Yard.status (fst (Yard.add_work_time y w)) = Yard.status y.
Proof.
  intros Hr. destruct (add_work_time_result y w) as [Hres _].
  cbv zeta in Hres. rewrite Hr in Hres.
  destruct (decide (Yard.status (fst (Yard.add_work_time y w)) = Yard.status y));
    [assumption|discriminate Hres].
Qed.

(** [process_machine_update] returns an event exactly for a change of band:
    with a directory whose yards are stored under their ids and satisfy the
    yard invariant, a returned event names a yard of the directory, carries
    that yard's status before and after the call, the second in a higher
    band than the first, the machine's id, the report's timestamp and a
    positive work time, and no other yard has changed; when no event is
    returned, every yard has kept its status. *)
Theorem event_reports_band_change
    (self : CleaningService.t) (m : Machine.t) (message : MachineMessage.t)
    (yards : gmap Z Yard.t) :
  directory_inv yards ->
  directory_keyed yards ->
  let r := CleaningService.process_machine_update self m message yards in
  let yards' := CleaningService.yards (snd (fst r)) in
  match snd r with
  | Some ev =>
      exists y y',
        yards !! StatusChange.yard_id ev = Some y /\
        yards' !! StatusChange.yard_id ev = Some y' /\
        StatusChange.old_status ev = Yard.status y /\
        StatusChange.new_status ev = Yard.status y' /\
        (YardStatus.value (Yard.status y) < YardStatus.value (Yard.status y'))%Z /\
        StatusChange.machine_id ev = Machine.machine_id m /\
        StatusChange.timestamp ev = MachineMessage.timestamp message /\
        0 < StatusChange.work_time_added ev /\
        (forall k, k <> StatusChange.yard_id ev -> yards' !! k = yards !! k)
  | None =>
      forall k y, yards !! k = Some y ->
        exists y', yards' !! k = Some y' /\ Yard.status y' = Yard.status y
  end.
Proof.
  intros Hinv Hkeyed.
  rewrite process_machine_update_effect. unfold service_effect. cbv zeta.
  destruct (dwell_credited m message);
    [destruct (Machine.current_yard_id m) as [cur|];
       [destruct (yards !! cur) as [yard|] eqn:Ey|]|];
    cbn [fst snd CleaningService.yards]; try (intros k y Hk; eauto).
  destruct (snd (Yard.add_work_time yard (report_work_time m message)))
    as [ns|] eqn:Er.
  - destruct (add_work_time_transition _ _ _ (Hinv cur yard Ey) Er)
      as (Hst & Hlt & Hw).
    cbn [StatusChange.yard_id StatusChange.old_status StatusChange.new_status
         StatusChange.machine_id StatusChange.timestamp
         StatusChange.work_time_added].
    rewrite (Hkeyed cur yard Ey).
    exists yard, (fst (Yard.add_work_time yard (report_work_time m message))).
    rewrite lookup_insert_eq, Hst.
    repeat split; try assumption; try reflexivity.
    intros k Hk. apply lookup_insert_ne. congruence.
  - intros k y Hk. destruct (decide (cur = k)) as [<-|Hne].
    + rewrite lookup_insert_eq. eexists. split; [reflexivity|].
      rewrite Ey in Hk. injection Hk as <-. apply add_work_time_silent, Er.
    + rewrite lookup_insert_ne by exact Hne. eauto.
Qed.

Lemma event_reports_band_change_witness :
  match snd (CleaningService.process_machine_update CleaningService.init
               machine_in_yard_1 report_outside_at_120s {[ 1%Z := yard_1 ]}) with
  | Some ev =>
      exists y y',
        ({[ 1%Z := yard_1 ]} : gmap Z Yard.t) !! StatusChange.yard_id ev = Some y /\
        CleaningService.yards
          (snd (fst (CleaningService.process_machine_update CleaningService.init
                       machine_in_yard_1 report_outside_at_120s
                       {[ 1%Z := yard_1 ]}))) !! StatusChange.yard_id ev
        = Some y' /\
        StatusChange.old_status ev = Yard.status y /\
        StatusChange.new_status ev = Yard.status y' /\
        (YardStatus.value (Yard.status y) < YardStatus.value (Yard.status y'))%Z /\
        StatusChange.machine_id ev = Machine.machine_id machine_in_yard_1 /\
        StatusChange.timestamp ev
        = MachineMessage.timestamp report_outside_at_120s /\
        0 < StatusChange.work_time_added ev /\
        (forall k, k <> StatusChange.yard_id ev ->
           CleaningService.yards
             (snd (fst (CleaningService.process_machine_update
                          CleaningService.init machine_in_yard_1
                          report_outside_at_120s {[ 1%Z := yard_1 ]}))) !! k
           = ({[ 1%Z := yard_1 ]} : gmap Z Yard.t) !! k)
  | None =>
      forall k y, ({[ 1%Z := yard_1 ]} : gmap Z Yard.t) !! k = Some y ->
        exists y',
          CleaningService.yards
            (snd (fst (CleaningService.process_machine_update
                         CleaningService.init machine_in_yard_1
                         report_outside_at_120s {[ 1%Z := yard_1 ]}))) !! k
          = Some y' /\ Yard.status y' = Yard.status y
  end.
Proof.
  apply (event_reports_band_change CleaningService.init machine_in_yard_1
           report_outside_at_120s {[ 1%Z := yard_1 ]}).
  - intros k y Hk. apply lookup_singleton_Some in Hk as [_ <-].
    exact yard_1_inv.
  - intros k y Hk. apply lookup_singleton_Some in Hk as [<- <-]. reflexivity.
Defined.

(** A band change never stops short of the next status: when
    [add_work_time] on a yard built by the constructor reports a new
    status, the old status has a [get_next_status], and the new status is
    that one or a higher one. *)
Theorem transition_reaches_next_status
    (i : Z) (a s : Q) (ws : list Q) (w : Q) (ns : YardStatus.t) :
  (0 < i)%Z -> 0 < a -> 0 < s ->
  exists y0,
    Yard.init i a s = Return y0 /\
    let y := fst (Yard.add_work_times y0 ws) in
    snd (Yard.add_work_time y w) = Some ns ->
    exists next,
      YardStatus.get_next_status (Yard.status y) = Some next /\
      (YardStatus.value next <= YardStatus.value ns)%Z.
Proof.
  intros Hi Ha Hs.
  destruct (init_succeeds i a s Hi Ha Hs) as [y0 Hy0].
  exists y0. split; [exact Hy0|]. cbv zeta. intros Hr.
  destruct (init_inv _ _ _ _ Hy0) as (Hinv0 & _).
  destruct (add_work_times_inv ws y0 Hinv0) as (Hinv & _).
  destruct (add_work_time_transition _ _ _ Hinv Hr) as (_ & Hlt & _).
  pose proof (get_next_status_is_next_band
                (Yard.status (fst (Yard.add_work_times y0 ws)))) as Hnext.
  destruct (YardStatus.get_next_status
              (Yard.status (fst (Yard.add_work_times y0 ws)))) as [next|].
  - exists next. split; [reflexivity|].
    destruct (Yard.status (fst (Yard.add_work_times y0 ws))), next, ns;
      simpl in *; lia.
  - rewrite Hnext in Hlt. destruct ns; simpl in Hlt; lia.
Qed.

Lemma transition_reaches_next_status_witness :
  exists y0,
    Yard.init 1 100 1 = Return y0 /\
    exists next,
      YardStatus.get_next_status (Yard.status (fst (Yard.add_work_times y0 [30])))
      = Some next /\
      (YardStatus.value next <= YardStatus.value YardStatus.PERCENT_80)%Z.
Proof.
  destruct (transition_reaches_next_status 1 100 1 [30] 55
              YardStatus.PERCENT_80 eq_refl eq_refl eq_refl) as (y0 & Hy0 & H).
  exists y0. split; [exact Hy0|].
  injection Hy0 as <-. apply H. reflexivity.
Defined.

End ServiceExtras.

(** ** The batch pipeline *)

Section BatchExtras.
Local Open Scope Q_scope.

Variable fromisoformat : string -> outcome Z.

Lemma parse_message_valid (data : CleaningMonitoringSystem.message_data)
    (message : MachineMessage.t) :
  CleaningMonitoringSystem.parse_message fromisoformat data = Return message ->
  (0 < MachineMessage.machine_id message)%Z /\
  MachineMessage.machine_id message = CleaningMonitoringSystem.md_machine_id data /\
  MachineMessage.coordinates message
  = (CleaningMonitoringSystem.md_x data, CleaningMonitoringSystem.md_y data) /\
  MachineMessage.yard_id message = CleaningMonitoringSystem.md_yard_id data /\
  fromisoformat (CleaningMonitoringSystem.md_timestamp data)
  = Return (MachineMessage.timestamp message) /\
  match MachineMessage.yard_id message with
  | Some y => (0 < y)%Z
  | None => True
  end.
Proof.
  unfold CleaningMonitoringSystem.parse_message, MachineMessage.init.
  destruct (fromisoformat (CleaningMonitoringSystem.md_timestamp data))
    as [ts|e]; [|discriminate].
  destruct (CleaningMonitoringSystem.md_machine_id data <=? 0)%Z eqn:Ei;
    [discriminate|].
  apply Z.leb_gt in Ei.
  destruct (CleaningMonitoringSystem.md_yard_id data) as [y|] eqn:Ey.
  - destruct (y <=? 0)%Z eqn:Eyy; [discriminate|]. apply Z.leb_gt in Eyy.
    intros [= <-]. simpl. repeat split; try assumption; reflexivity.
  - intros [= <-]. simpl. repeat split; try assumption; reflexivity.
Qed.

Lemma machine_init_fresh (id : Z) :
  (0 < id)%Z -> Machine.init id = Return (fresh_machine id).
Proof.
  intros H. unfold Machine.init.
  destruct (id <=? 0)%Z eqn:E; [apply Z.leb_le in E; lia|reflexivity].
Qed.

(** What one message does to the system. *)
Lemma process_single_message_effect
    (s : CleaningMonitoringSystem.t)
    (data : CleaningMonitoringSystem.message_data) :
  match CleaningMonitoringSystem.parse_message fromisoformat data with
  | Raise _ =>
      CleaningMonitoringSystem._process_single_message fromisoformat s data
      = (s, false)
  | Return message =>
      let id := MachineMessage.machine_id message in
      let m0 := default (fresh_machine id)
                  (CleaningMonitoringSystem.machines s !! id) in
      let r := CleaningService.process_machine_update
                 (CleaningMonitoringSystem.cleaning_service s) m0 message
                 (CleaningMonitoringSystem.yards s) in
      CleaningMonitoringSystem._process_single_message fromisoformat s data
      = ({| CleaningMonitoringSystem.cleaning_service := fst (fst r);
            CleaningMonitoringSystem.machines :=
              <[id := CleaningService.machine (snd (fst r))]>
                (CleaningMonitoringSystem.machines s);
            CleaningMonitoringSystem.yards :=
              CleaningService.yards (snd (fst r));
            CleaningMonitoringSystem.status_changes :=
              CleaningMonitoringSystem.status_changes s
              ++ match snd r with Some change => [change] | None => [] end;
            CleaningMonitoringSystem.realtime_mode :=
              CleaningMonitoringSystem.realtime_mode s;
            CleaningMonitoringSystem.processing_active :=
              CleaningMonitoringSystem.processing_active s;
            CleaningMonitoringSystem.processed_messages :=
              CleaningMonitoringSystem.processed_messages s |}, true)
  end.
Proof.
  unfold CleaningMonitoringSystem._process_single_message.
  destruct (CleaningMonitoringSystem.parse_message fromisoformat data)
    as [message|e] eqn:Ep; [|reflexivity].
  destruct (parse_message_valid data message Ep) as (Hid & _).
  cbv zeta.
  set (id := MachineMessage.machine_id message) in *.
  destruct (CleaningMonitoringSystem.machines s !! id) as [m|] eqn:Em.
  - rewrite Em. simpl default.
    destruct (CleaningService.process_machine_update
                (CleaningMonitoringSystem.cleaning_service s) m message
                (CleaningMonitoringSystem.yards s)) as [[svc st] ev].
    simpl. destruct ev; rewrite ?app_nil_r; reflexivity.
  - rewrite (machine_init_fresh id Hid), lookup_insert_eq. simpl default.
    destruct (CleaningService.process_machine_update
                (CleaningMonitoringSystem.cleaning_service s)
                (fresh_machine id) message
                (CleaningMonitoringSystem.yards s)) as [[svc st] ev].
    simpl. rewrite insert_insert_eq.
    destruct ev; rewrite ?app_nil_r; reflexivity.
Qed.

(** The two ways a call of [process_machine_update] can end. *)
Lemma process_machine_update_cases
    (self : CleaningService.t) (m : Machine.t) (message : MachineMessage.t)
    (yards : gmap Z Yard.t) :
  let r := CleaningService.process_machine_update self m message yards in
  let w := report_work_time m message in
  CleaningService.machine (snd (fst r)) = fst (Machine.update_position m message) /\
  CleaningService._error_count (fst (fst r)) = CleaningService._error_count self /\
  CleaningService._message_count (fst (fst r))
  = (CleaningService._message_count self + 1)%Z /\
  ((CleaningService.yards (snd (fst r)) = yards /\ snd r = None /\
    forall cur yard,
      Machine.current_yard_id m = Some cur -> yards !! cur = Some yard ->
      dwell_credited m message = false)
   \/
   exists cur yard,
     Machine.current_yard_id m = Some cur /\
     dwell_credited m message = true /\ 0 < w /\
     yards !! cur = Some yard /\
     CleaningService.yards (snd (fst r))
     = <[cur := fst (Yard.add_work_time yard w)]> yards /\
     snd r = match snd (Yard.add_work_time yard w) with
             | Some new_status =>
                 Some {| StatusChange.yard_id := Yard.yard_id yard;
                         StatusChange.old_status := Yard.status yard;
                         StatusChange.new_status := new_status;
                         StatusChange.timestamp := MachineMessage.timestamp message;
                         StatusChange.machine_id := Machine.machine_id m;
                         StatusChange.work_time_added := w |}
             | None => None
             end).
Proof.
  rewrite process_machine_update_effect. unfold service_effect. cbv zeta.
  destruct (dwell_credited m message) eqn:Ed.
  - destruct (Machine.current_yard_id m) as [cur|] eqn:Ec.
    + destruct (yards !! cur) as [yard|] eqn:Ey.
      * repeat split. right. exists cur, yard.
        repeat split; try reflexivity; try assumption.
        apply dwell_credited_positive, Ed.
      * repeat split. left. repeat split. intros cur' yard' [= <-] H.
        congruence.
    + repeat split. left. repeat split. intros ? ? [=].
  - repeat split. left. repeat split.
Qed.

Lemma process_single_message_ok
    (s : CleaningMonitoringSystem.t)
    (data : CleaningMonitoringSystem.message_data) :
  snd (CleaningMonitoringSystem._process_single_message fromisoformat s data)
  = valid_message fromisoformat data /\
  (valid_message fromisoformat data = false ->
   fst (CleaningMonitoringSystem._process_single_message fromisoformat s data)
   = s).
Proof.
  pose proof (process_single_message_effect s data) as Hstep.
  unfold valid_message.
  destruct (CleaningMonitoringSystem.parse_message fromisoformat data)
    as [message|e].
  - cbv zeta in Hstep. rewrite Hstep. split; [reflexivity|discriminate].
  - rewrite Hstep. split; reflexivity.
Qed.

(** A record that fails the constructor's checks changes nothing and is not
    counted; every other record is counted.  The count that
    [_process_messages_batch] reports is the number of valid records, and
    the system ends as if the invalid records had not been in the list. *)
Theorem batch_skips_invalid_messages
    (s : CleaningMonitoringSystem.t)
    (messages : list CleaningMonitoringSystem.message_data) :
  let valid := List.filter (valid_message fromisoformat) messages in
  snd (CleaningMonitoringSystem._process_messages_batch fromisoformat s messages)
  = Z.of_nat (length valid) /\
  CleaningMonitoringSystem._process_messages_batch fromisoformat s messages
  = CleaningMonitoringSystem._process_messages_batch fromisoformat s valid.
Proof.
  cbv zeta. revert s. induction messages as [|data rest IH]; intros s.
  - split; reflexivity.
  - destruct (process_single_message_ok s data) as [Hok Hskip].
    cbn [List.filter CleaningMonitoringSystem._process_messages_batch].
    destruct (valid_message fromisoformat data) eqn:Ev.
    + cbn [CleaningMonitoringSystem._process_messages_batch].
      destruct (CleaningMonitoringSystem._process_single_message
                  fromisoformat s data) as [s1 ok].
      simpl in Hok. subst ok. destruct (IH s1) as [IH1 IH2].
      rewrite IH2 in IH1 |- *.
      destruct (CleaningMonitoringSystem._process_messages_batch
                  fromisoformat s1
                  (List.filter (valid_message fromisoformat) rest)) as [s2 n].
      simpl in IH1 |- *. subst n. split; [lia|reflexivity].
    + specialize (Hskip eq_refl).
      destruct (CleaningMonitoringSystem._process_single_message
                  fromisoformat s data) as [s1 ok].
      simpl in Hok, Hskip. subst ok s1. destruct (IH s) as [IH1 IH2].
      rewrite IH2 in IH1 |- *.
      destruct (CleaningMonitoringSystem._process_messages_batch
                  fromisoformat s
                  (List.filter (valid_message fromisoformat) rest)) as [s2 n].
      simpl in IH1 |- *. split; [exact IH1|reflexivity].
Qed.



(** One message, seen from the stores. *)
Lemma single_message_step
    (s : CleaningMonitoringSystem.t)
    (data : CleaningMonitoringSystem.message_data) :
  let s' := fst (CleaningMonitoringSystem._process_single_message
                   fromisoformat s data) in
  (valid_message fromisoformat data = false /\ s' = s)
  \/
  exists message,
    CleaningMonitoringSystem.parse_message fromisoformat data = Return message /\
    let id := MachineMessage.machine_id message in
    let m0 := default (fresh_machine id)
                (CleaningMonitoringSystem.machines s !! id) in
    let w := report_work_time m0 message in
    CleaningMonitoringSystem.machines s'
    = <[id := fst (Machine.update_position m0 message)]>
        (CleaningMonitoringSystem.machines s) /\
    ((CleaningMonitoringSystem.yards s' = CleaningMonitoringSystem.yards s /\
      CleaningMonitoringSystem.status_changes s'
      = CleaningMonitoringSystem.status_changes s /\
      forall cur yard,
        Machine.current_yard_id m0 = Some cur ->
        CleaningMonitoringSystem.yards s !! cur = Some yard ->
        dwell_credited m0 message = false)
     \/
     exists cur yard,
       Machine.current_yard_id m0 = Some cur /\
       dwell_credited m0 message = true /\ 0 < w /\
       CleaningMonitoringSystem.yards s !! cur = Some yard /\
       CleaningMonitoringSystem.yards s'
       = <[cur := fst (Yard.add_work_time yard w)]>
           (CleaningMonitoringSystem.yards s) /\
       CleaningMonitoringSystem.status_changes s'
       = CleaningMonitoringSystem.status_changes s
         ++ match snd (Yard.add_work_time yard w) with
            | Some new_status =>
                [{| StatusChange.yard_id := Yard.yard_id yard;
                    StatusChange.old_status := Yard.status yard;
                    StatusChange.new_status := new_status;
                    StatusChange.timestamp := MachineMessage.timestamp message;
                    StatusChange.machine_id := Machine.machine_id m0;
                    StatusChange.work_time_added := w |}]
            | None => []
            end).
Proof.
  pose proof (process_single_message_effect s data) as Hstep.
  cbv zeta. unfold valid_message.
  destruct (CleaningMonitoringSystem.parse_message fromisoformat data)
    as [message|e]; [|left; rewrite Hstep; split; reflexivity].
  right. exists message. split; [reflexivity|].
  cbv zeta in Hstep. rewrite Hstep.
  cbn [fst CleaningMonitoringSystem.machines CleaningMonitoringSystem.yards
       CleaningMonitoringSystem.status_changes].
  set (m0 := default (fresh_machine (MachineMessage.machine_id message))
               (CleaningMonitoringSystem.machines s
                  !! MachineMessage.machine_id message)).
  destruct (process_machine_update_cases
              (CleaningMonitoringSystem.cleaning_service s) m0 message
              (CleaningMonitoringSystem.yards s)) as (Hm & _ & _ & Hcases).
  rewrite Hm. split; [reflexivity|].
  destruct Hcases as [(Hy & Hev & Hno)|(cur & yard & Hc & Hd & Hw & Hk & Hy & Hev)].
  - left. rewrite Hy, Hev, app_nil_r. repeat split. exact Hno.
  - right. exists cur, yard. rewrite Hy, Hev.
    repeat split; try assumption.
    destruct (snd (Yard.add_work_time yard (report_work_time m0 message)));
      reflexivity.
Qed.

(** A relation that every message maintains holds across a whole batch. *)
Lemma batch_rel_ind
    (R : CleaningMonitoringSystem.t -> CleaningMonitoringSystem.t -> Prop) :
  (forall s, R s s) ->
  (forall a b c, R a b -> R b c -> R a c) ->
  (forall s data,
     R s (fst (CleaningMonitoringSystem._process_single_message
                 fromisoformat s data))) ->
  forall messages s,
    R s (fst (CleaningMonitoringSystem._process_messages_batch
                fromisoformat s messages)).
Proof.
  intros Hrefl Htrans Hstep messages.
  induction messages as [|data rest IH]; intros s; [apply Hrefl|].
  simpl. specialize (Hstep s data).
  destruct (CleaningMonitoringSystem._process_single_message fromisoformat s data)
    as [s1 ok].
  specialize (IH s1).
  destruct (CleaningMonitoringSystem._process_messages_batch fromisoformat s1 rest)
    as [s2 n].
  simpl in *. exact (Htrans _ _ _ Hstep IH).
Qed.

(** Message processing neither adds nor removes a yard, and leaves the id,
    the area and the cleaning rate of every yard as they were; a yard's
    total work time never goes down. *)
Theorem batch_preserves_directory
    (s : CleaningMonitoringSystem.t)
    (messages : list CleaningMonitoringSystem.message_data) (k : Z) :
  let s' := fst (CleaningMonitoringSystem._process_messages_batch
                   fromisoformat s messages) in
  match CleaningMonitoringSystem.yards s !! k with
  | None => CleaningMonitoringSystem.yards s' !! k = None
  | Some y =>
      exists y',
        CleaningMonitoringSystem.yards s' !! k = Some y' /\
        Yard.yard_id y' = Yard.yard_id y /\
        Yard.area y' = Yard.area y /\
        Yard.cleaning_speed y' = Yard.cleaning_speed y /\
        Yard.total_work_time y <= Yard.total_work_time y'
  end.
Proof.
  cbv zeta. revert k.
  apply (batch_rel_ind (fun a b => forall k,
    match CleaningMonitoringSystem.yards a !! k with
    | None => CleaningMonitoringSystem.yards b !! k = None
    | Some y =>
        exists y',
          CleaningMonitoringSystem.yards b !! k = Some y' /\
          Yard.yard_id y' = Yard.yard_id y /\
          Yard.area y' = Yard.area y /\
          Yard.cleaning_speed y' = Yard.cleaning_speed y /\
          Yard.total_work_time y <= Yard.total_work_time y'
    end)).
  - intros a k. destruct (CleaningMonitoringSystem.yards a !! k) as [y|] eqn:E;
      [|reflexivity].
    exists y. repeat split; lra.
  - intros a b c Hab Hbc k. specialize (Hab k).
    destruct (CleaningMonitoringSystem.yards a !! k) as [y|].
    + destruct Hab as (y1 & Hk1 & Hi1 & Ha1 & Hs1 & Ht1).
      specialize (Hbc k). rewrite Hk1 in Hbc.
      destruct Hbc as (y2 & Hk2 & Hi2 & Ha2 & Hs2 & Ht2).
      exists y2. repeat split; try congruence. lra.
    + specialize (Hbc k). rewrite Hab in Hbc. exact Hbc.
  - intros a data k.
    destruct (single_message_step a data)
      as [[_ ->]|(message & _ & _ & [(-> & _)|(cur & yard & _ & _ & Hw & Hk & -> & _)])].
    + destruct (CleaningMonitoringSystem.yards a !! k) as [y|] eqn:E;
        [|reflexivity].
      exists y. repeat split; lra.
    + destruct (CleaningMonitoringSystem.yards a !! k) as [y|] eqn:E;
        [|reflexivity].
      exists y. repeat split; lra.
    + destruct (decide (cur = k)) as [<-|Hne].
      * rewrite Hk, lookup_insert_eq.
        destruct (add_work_time_params yard
                    (report_work_time
                       (default (fresh_machine (MachineMessage.machine_id message))
                          (CleaningMonitoringSystem.machines a
                             !! MachineMessage.machine_id message)) message))
          as (Hi & Ha & Hs).
        eexists. split; [reflexivity|]. repeat split; try assumption.
        rewrite add_work_time_total.
        destruct (Qle_bool _ 0); lra.
      * rewrite lookup_insert_ne by exact Hne.
        destruct (CleaningMonitoringSystem.yards a !! k) as [y|] eqn:E;
          [|reflexivity].
        exists y. repeat split; lra.
Qed.

Lemma batch_keeps_directory_inv
    (messages : list CleaningMonitoringSystem.message_data)
    (s : CleaningMonitoringSystem.t) :
  directory_inv (CleaningMonitoringSystem.yards s) ->
  directory_keyed (CleaningMonitoringSystem.yards s) ->
  let s' := fst (CleaningMonitoringSystem._process_messages_batch
                   fromisoformat s messages) in
  directory_inv (CleaningMonitoringSystem.yards s') /\
  directory_keyed (CleaningMonitoringSystem.yards s').
Proof.
  intros Hinv Hkeyed. cbv zeta. revert Hinv Hkeyed.
  apply (batch_rel_ind (fun a b =>
    directory_inv (CleaningMonitoringSystem.yards a) ->
    directory_keyed (CleaningMonitoringSystem.yards a) ->
    directory_inv (CleaningMonitoringSystem.yards b) /\
    directory_keyed (CleaningMonitoringSystem.yards b))).
  - intros a Hi Hk. split; assumption.
  - intros a b c Hab Hbc Hi Hk. destruct (Hab Hi Hk) as [Hi' Hk'].
    exact (Hbc Hi' Hk').
  - intros a data Hi Hk.
    destruct (single_message_step a data)
      as [[_ ->]|(message & _ & _ & [(-> & _)|(cur & yard & _ & _ & _ & Hy & -> & _)])];
      try (split; assumption).
    split.
    + intros k y Hl. destruct (decide (cur = k)) as [<-|Hne].
      * rewrite lookup_insert_eq in Hl. injection Hl as <-.
        apply add_work_time_step, (Hi cur yard Hy).
      * rewrite lookup_insert_ne in Hl by exact Hne. exact (Hi k y Hl).
    + intros k y Hl. destruct (decide (cur = k)) as [<-|Hne].
      * rewrite lookup_insert_eq in Hl. injection Hl as <-.
        rewrite (proj1 (add_work_time_params yard _)). exact (Hk cur yard Hy).
      * rewrite lookup_insert_ne in Hl by exact Hne. exact (Hk k y Hl).
Qed.

End BatchExtras.

(** ** Loading the directory *)

Section LoadExtras.
Local Open Scope Q_scope.

Lemma yard_init_valid (info : CleaningMonitoringSystem.yard_info) :
  match Yard.init (CleaningMonitoringSystem.yi_yard_id info)
          (CleaningMonitoringSystem.yi_area info)
          (CleaningMonitoringSystem.yi_cleaning_speed info) with
  | Return _ => valid_yard_info info
  | Raise _ => ~ valid_yard_info info
  end.
Proof.
  unfold Yard.init, valid_yard_info.
  destruct (CleaningMonitoringSystem.yi_yard_id info <=? 0)%Z eqn:Ei.
  { apply Z.leb_le in Ei. intros (H & _). lia. }
  apply Z.leb_gt in Ei.
  destruct (Qle_bool (CleaningMonitoringSystem.yi_area info) 0) eqn:Ea.
  { apply Qle_bool_iff in Ea. intros (_ & H & _). lra. }
  apply Qle_bool_false_iff in Ea.
  destruct (Qle_bool (CleaningMonitoringSystem.yi_cleaning_speed info) 0) eqn:Es.
  { apply Qle_bool_iff in Es. intros (_ & _ & H). lra. }
  apply Qle_bool_false_iff in Es. repeat split; assumption.
Qed.

Lemma load_yards_spec (yard_data : list CleaningMonitoringSystem.yard_info)
    (yards : gmap Z Yard.t) :
  let r := CleaningMonitoringSystem.load_yards yards yard_data in
  (snd r = true <-> Forall valid_yard_info yard_data) /\
  (forall k y,
     fst r !! k = Some y ->
     yards !! k = Some y \/
     exists info,
       In info yard_data /\
       Yard.init (CleaningMonitoringSystem.yi_yard_id info)
         (CleaningMonitoringSystem.yi_area info)
         (CleaningMonitoringSystem.yi_cleaning_speed info) = Return y /\
       k = CleaningMonitoringSystem.yi_yard_id info) /\
  (snd r = true ->
   forall info, In info yard_data ->
     is_Some (fst r !! CleaningMonitoringSystem.yi_yard_id info)) /\
  (forall k, is_Some (yards !! k) -> is_Some (fst r !! k)).
Proof.
  revert yards. induction yard_data as [|info rest IH]; intros yards; simpl.
  - repeat split; auto. intros _ ? [].
  - pose proof (yard_init_valid info) as Hv.
    destruct (Yard.init (CleaningMonitoringSystem.yi_yard_id info)
                (CleaningMonitoringSystem.yi_area info)
                (CleaningMonitoringSystem.yi_cleaning_speed info))
      as [yard|e] eqn:Einit.
    + destruct (init_inv _ _ _ _ Einit) as (_ & _ & _ & Hid & _).
      specialize (IH (<[Yard.yard_id yard := yard]> yards)).
      cbv zeta in IH. destruct IH as (IH1 & IH2 & IH3 & IH4).
      repeat split.
      * intros H. constructor; [exact Hv|]. apply IH1, H.
      * intros H. apply IH1. inversion H; assumption.
      * intros k y Hk. destruct (IH2 k y Hk) as [Hold|(info' & Hin & Hi & ->)].
        -- destruct (decide (Yard.yard_id yard = k)) as [<-|Hne].
           ++ rewrite lookup_insert_eq in Hold. injection Hold as <-.
              right. exists info. split; [left; reflexivity|].
              split; [exact Einit|exact Hid].
           ++ rewrite lookup_insert_ne in Hold by exact Hne. left. exact Hold.
        -- right. exists info'. split; [right; exact Hin|]. split; auto.
      * intros Hok info' [<-|Hin]; [|exact (IH3 Hok info' Hin)].
        apply IH4. rewrite <- Hid, lookup_insert_eq. eauto.
      * intros k Hk. apply IH4.
        destruct (decide (Yard.yard_id yard = k)) as [<-|Hne].
        -- rewrite lookup_insert_eq. eauto.
        -- rewrite lookup_insert_ne by exact Hne. exact Hk.
    + simpl. repeat split; auto; try discriminate.
      intros H. inversion H; contradiction.
Qed.



(** The directory of a new system after [load_yard_directory]. *)
Lemma loaded_directory (realtime_mode : bool)
    (yard_data : list CleaningMonitoringSystem.yard_info) :
  let s0 := fst (CleaningMonitoringSystem.load_yard_directory
                   (CleaningMonitoringSystem.init realtime_mode) yard_data) in
  directory_inv (CleaningMonitoringSystem.yards s0) /\
  directory_keyed (CleaningMonitoringSystem.yards s0) /\
  (forall k y, CleaningMonitoringSystem.yards s0 !! k = Some y ->
     Yard.status_history y = [YardStatus.PERCENT_0] /\
     Yard.total_work_time y = 0) /\
  CleaningMonitoringSystem.machines s0 = ∅ /\
  CleaningMonitoringSystem.status_changes s0 = [] /\
  CleaningMonitoringSystem.cleaning_service s0 = CleaningService.init.
Proof.
  cbv zeta.
  pose proof (load_yards_spec yard_data
                (CleaningMonitoringSystem.yards
                   (CleaningMonitoringSystem.init realtime_mode)))
    as (_ & H & _).
  unfold CleaningMonitoringSystem.load_yard_directory.
  destruct (CleaningMonitoringSystem.load_yards
              (CleaningMonitoringSystem.yards
                 (CleaningMonitoringSystem.init realtime_mode)) yard_data)
    as [yards ok].
  simpl in *.
  assert (Hfresh : forall k y, yards !! k = Some y ->
            exists i a sp, Yard.init i a sp = Return y /\ k = i).
  { intros k y Hk. destruct (H k y Hk) as [Hold|(info & _ & Hi & ->)].
    - rewrite lookup_empty in Hold. discriminate Hold.
    - eauto. }
  split; [|split; [|split; [|repeat split]]].
  - intros k y Hk. destruct (Hfresh k y Hk) as (i & a & sp & Hi & _).
    exact (proj1 (init_inv _ _ _ _ Hi)).
  - intros k y Hk. destruct (Hfresh k y Hk) as (i & a & sp & Hi & ->).
    destruct (init_inv _ _ _ _ Hi) as (_ & _ & _ & Hid & _). exact Hid.
  - intros k y Hk. destruct (Hfresh k y Hk) as (i & a & sp & Hi & _).
    destruct (init_inv _ _ _ _ Hi) as (_ & _ & _ & _ & _ & _ & Ht & _ & Hh).
    split; assumption.
Qed.

(** After [load_yard_directory] on a new system and a batch run over any
    message list, [validate_yard_consistency] finds no issue in the
    directory. *)
Theorem validator_finds_nothing_after_batch
    (fromisoformat : string -> outcome Z) (realtime_mode : bool)
    (yard_data : list CleaningMonitoringSystem.yard_info)
    (messages : list CleaningMonitoringSystem.message_data) :
  let s0 := fst (CleaningMonitoringSystem.load_yard_directory
                   (CleaningMonitoringSystem.init realtime_mode) yard_data) in
  let s := fst (CleaningMonitoringSystem._process_messages_batch
                  fromisoformat s0 messages) in
  CleaningService.validate_yard_consistency (CleaningMonitoringSystem.yards s)
  = [].
Proof.
  cbv zeta.
  destruct (loaded_directory realtime_mode yard_data) as (Hinv & Hkeyed & _).
  destruct (batch_keeps_directory_inv fromisoformat messages _ Hinv Hkeyed)
    as [Hinv' _].
  unfold CleaningService.validate_yard_consistency.
  apply issues_loop_nil. split; [reflexivity|]. intros y Hin.
  apply values_spec in Hin as [k Hk].
  apply yard_issues_nil, yard_inv_consistent, (Hinv' k y Hk).
Qed.

End LoadExtras.

(** ** The stores after a batch run *)

Section BatchStores.
Local Open Scope Q_scope.

Variable fromisoformat : string -> outcome Z.

Lemma events_of_yard_app (k : Z) (l1 l2 : list StatusChange.t) :
  events_of_yard k (l1 ++ l2) = events_of_yard k l1 ++ events_of_yard k l2.
Proof. unfold events_of_yard. apply List.filter_app. Qed.

(** The event log and the status histories grow together. *)
Lemma batch_log_and_histories
    (messages : list CleaningMonitoringSystem.message_data)
    (s : CleaningMonitoringSystem.t) :
  directory_keyed (CleaningMonitoringSystem.yards s) ->
  let s' := fst (CleaningMonitoringSystem._process_messages_batch
                   fromisoformat s messages) in
  directory_keyed (CleaningMonitoringSystem.yards s') /\
  exists new,
    CleaningMonitoringSystem.status_changes s'
    = CleaningMonitoringSystem.status_changes s ++ new /\
    (forall k,
       CleaningMonitoringSystem.yards s !! k = None ->
       CleaningMonitoringSystem.yards s' !! k = None /\
       events_of_yard k new = []) /\
    (forall k y,
       CleaningMonitoringSystem.yards s !! k = Some y ->
       exists y',
         CleaningMonitoringSystem.yards s' !! k = Some y' /\
         Yard.status_history y'
         = Yard.status_history y
           ++ map StatusChange.new_status (events_of_yard k new)).
Proof.
  cbv zeta.
  apply (batch_rel_ind fromisoformat (fun a b =>
    directory_keyed (CleaningMonitoringSystem.yards a) ->
    directory_keyed (CleaningMonitoringSystem.yards b) /\
    exists new,
      CleaningMonitoringSystem.status_changes b
      = CleaningMonitoringSystem.status_changes a ++ new /\
      (forall k,
         CleaningMonitoringSystem.yards a !! k = None ->
         CleaningMonitoringSystem.yards b !! k = None /\
         events_of_yard k new = []) /\
      (forall k y,
         CleaningMonitoringSystem.yards a !! k = Some y ->
         exists y',
           CleaningMonitoringSystem.yards b !! k = Some y' /\
           Yard.status_history y'
           = Yard.status_history y
             ++ map StatusChange.new_status (events_of_yard k new)))).
  - intros a Hk. split; [exact Hk|]. exists []. rewrite app_nil_r.
    repeat split; auto. intros k y Hy. exists y. rewrite app_nil_r. auto.
  - intros a b c Hab Hbc Hk.
    destruct (Hab Hk) as (Hkb & new1 & Hs1 & Hn1 & Hh1).
    destruct (Hbc Hkb) as (Hkc & new2 & Hs2 & Hn2 & Hh2).
    split; [exact Hkc|]. exists (new1 ++ new2).
    rewrite Hs2, Hs1, app_assoc. split; [reflexivity|]. split.
    + intros k Hnone. destruct (Hn1 k Hnone) as [Hb E1].
      destruct (Hn2 k Hb) as [Hc E2].
      rewrite events_of_yard_app, E1, E2. auto.
    + intros k y Hy. destruct (Hh1 k y Hy) as (y1 & Hy1 & Hh).
      destruct (Hh2 k y1 Hy1) as (y2 & Hy2 & Hh').
      exists y2. split; [exact Hy2|].
      rewrite Hh', Hh, events_of_yard_app, map_app, app_assoc. reflexivity.
  - intros a data Hk.
    destruct (single_message_step fromisoformat a data)
      as [[_ ->]|(message & _ & _ &
                  [(-> & -> & _)|(cur & yard & _ & _ & _ & Hy & -> & ->)])].
    + split; [exact Hk|]. exists []. rewrite app_nil_r.
      repeat split; auto. intros k y Hy. exists y. rewrite app_nil_r. auto.
    + split; [exact Hk|]. exists []. rewrite app_nil_r.
      repeat split; auto. intros k y Hy. exists y. rewrite app_nil_r. auto.
    + set (w := report_work_time _ message).
      destruct (add_work_time_result yard w) as [_ Hh]. cbv zeta in Hh.
      destruct (add_work_time_params yard w) as (Hid & _).
      pose proof (Hk cur yard Hy) as Hkey.
      split.
      { intros k y Hl. destruct (decide (cur = k)) as [<-|Hne].
        - rewrite lookup_insert_eq in Hl. injection Hl as <-. congruence.
        - rewrite lookup_insert_ne in Hl by exact Hne. exact (Hk k y Hl). }
      eexists. split; [reflexivity|]. split.
      * intros k Hnone.
        assert (Hne : cur <> k) by (intros ->; congruence).
        rewrite lookup_insert_ne by exact Hne. split; [exact Hnone|].
        destruct (snd (Yard.add_work_time yard w)); [|reflexivity].
        unfold events_of_yard. simpl. rewrite Hkey.
        destruct (cur =? k)%Z eqn:E; [apply Z.eqb_eq in E; contradiction|].
        reflexivity.
      * intros k y Hl. destruct (decide (cur = k)) as [<-|Hne].
        -- rewrite lookup_insert_eq. eexists. split; [reflexivity|].
           rewrite Hy in Hl. injection Hl as <-. rewrite Hh.
           destruct (snd (Yard.add_work_time yard w)); [|reflexivity].
           unfold events_of_yard. simpl. rewrite Hkey, Z.eqb_refl. reflexivity.
        -- rewrite lookup_insert_ne by exact Hne. exists y. split; [exact Hl|].
           destruct (snd (Yard.add_work_time yard w));
             [|rewrite app_nil_r; reflexivity].
           unfold events_of_yard. simpl. rewrite Hkey.
           destruct (cur =? k)%Z eqn:E; [apply Z.eqb_eq in E; contradiction|].
           rewrite app_nil_r. reflexivity.
Qed.

(** After [load_yard_directory] on a new system and a batch run, the event
    log and the status histories tell the same story: the status history
    of every yard is band 0 followed by the new statuses of the events
    logged for that yard, in order, and no event is logged for a yard id
    that is not in the directory. *)
Theorem status_history_is_event_log
    (realtime_mode : bool)
    (yard_data : list CleaningMonitoringSystem.yard_info)
    (messages : list CleaningMonitoringSystem.message_data) (k : Z) :
  let s0 := fst (CleaningMonitoringSystem.load_yard_directory
                   (CleaningMonitoringSystem.init realtime_mode) yard_data) in
  let s := fst (CleaningMonitoringSystem._process_messages_batch
                  fromisoformat s0 messages) in
  let log := events_of_yard k (CleaningMonitoringSystem.status_changes s) in
  match CleaningMonitoringSystem.yards s !! k with
  | Some y =>
      Yard.status_history y
      = YardStatus.PERCENT_0 :: map StatusChange.new_status log
  | None => log = []
  end.
Proof.
  cbv zeta.
  destruct (loaded_directory realtime_mode yard_data)
    as (_ & Hkeyed & Hfresh & _ & Hlog & _).
  destruct (batch_log_and_histories messages _ Hkeyed)
    as (_ & new & Hs & Hnone & Hsome).
  rewrite Hlog in Hs. simpl in Hs. rewrite Hs.
  destruct (CleaningMonitoringSystem.yards
              (fst (CleaningMonitoringSystem.load_yard_directory
                      (CleaningMonitoringSystem.init realtime_mode) yard_data))
              !! k) as [y0|] eqn:E0.
  - destruct (Hsome k y0 E0) as (y' & -> & Hh).
    rewrite Hh, (proj1 (Hfresh k y0 E0)). reflexivity.
  - destruct (Hnone k E0) as [-> Hev]. exact Hev.
Qed.


Lemma fresh_machine_inv (id : Z) :
  entry_time_inv (fresh_machine id) /\ dwell_positive (fresh_machine id).
Proof.
  split.
  - unfold entry_time_inv. simpl. split; intros [? [=]].
  - intros k v H. simpl in H. rewrite lookup_empty in H. discriminate H.
Qed.

Lemma dwell_positive_nonneg (m : Machine.t) : dwell_positive m -> dwell_nonneg m.
Proof. intros H k v Hk. specialize (H k v Hk). lra. Qed.

(** Every machine of the store stays well formed through a batch run: a
    store whose machines are stored under their own positive ids, have an
    entry time exactly when they have a current yard, and record only
    positive dwell times is such a store again after any message list. *)
Theorem batch_keeps_machines_well_formed
    (s : CleaningMonitoringSystem.t)
    (messages : list CleaningMonitoringSystem.message_data) :
  machines_inv (CleaningMonitoringSystem.machines s) ->
  machines_inv
    (CleaningMonitoringSystem.machines
       (fst (CleaningMonitoringSystem._process_messages_batch
               fromisoformat s messages))).
Proof.
  revert s.
  apply (batch_rel_ind fromisoformat (fun a b =>
    machines_inv (CleaningMonitoringSystem.machines a) ->
    machines_inv (CleaningMonitoringSystem.machines b))).
  - auto.
  - auto.
  - intros a data Hinv.
    destruct (single_message_step fromisoformat a data)
      as [[_ ->]|(message & Hp & -> & _)]; [exact Hinv|].
    destruct (parse_message_valid fromisoformat data message Hp) as (Hid & _).
    set (id := MachineMessage.machine_id message) in *.
    set (m0 := default (fresh_machine id)
                 (CleaningMonitoringSystem.machines a !! id)).
    assert (Hm0 : Machine.machine_id m0 = id /\ entry_time_inv m0
                  /\ dwell_positive m0).
    { subst m0.
      destruct (CleaningMonitoringSystem.machines a !! id) as [m|] eqn:E; simpl.
      - destruct (Hinv id m E) as (H1 & _ & H3 & H4). auto.
      - destruct (fresh_machine_inv id). auto. }
    destruct Hm0 as (Hmid & Hentry & Hpos).
    intros id' m Hl. destruct (decide (id = id')) as [<-|Hne].
    + rewrite lookup_insert_eq in Hl. injection Hl as <-.
      pose proof (update_position_fields m0 message) as (Hid' & _).
      destruct (update_position_inv m0 message Hentry
                  (dwell_positive_nonneg m0 Hpos)) as (He' & _).
      repeat split; try assumption; try congruence.
      * apply He'.
      * apply He'.
      * apply update_position_dwell_positive, Hpos.
    + rewrite lookup_insert_ne in Hl by exact Hne. exact (Hinv id' m Hl).
Qed.

(** One message keeps the books of work time balanced. *)
Lemma single_message_accounted
    (s : CleaningMonitoringSystem.t)
    (data : CleaningMonitoringSystem.message_data) :
  work_time_accounted s ->
  work_time_accounted
    (fst (CleaningMonitoringSystem._process_single_message fromisoformat s data)).
Proof.
  intros Hacc.
  destruct (single_message_step fromisoformat s data)
    as [[_ ->]|(message & _ & Hm & Hcases)]; [exact Hacc|].
  cbv zeta in Hm, Hcases.
  set (id := MachineMessage.machine_id message) in *.
  set (m0 := default (fresh_machine id)
               (CleaningMonitoringSystem.machines s !! id)) in *.
  set (w := report_work_time m0 message) in *.
  pose proof (update_position_fields m0 message)
    as (_ & _ & _ & _ & _ & _ & _ & _ & _ & _ & Hh).
  fold w in Hh.
  assert (Hfleet : forall k,
    fleet_dwell (CleaningMonitoringSystem.machines
                   (fst (CleaningMonitoringSystem._process_single_message
                           fromisoformat s data))) k
    + Machine.get_total_work_time_in_yard m0 k
    == fleet_dwell (CleaningMonitoringSystem.machines s) k
       + Machine.get_total_work_time_in_yard
           (fst (Machine.update_position m0 message)) k).
  { intros k. rewrite Hm. unfold fleet_dwell.
    rewrite <- (sum_over_insert
                  (fun m => Machine.get_total_work_time_in_yard m k)
                  (CleaningMonitoringSystem.machines s) id
                  (fst (Machine.update_position m0 message))).
    subst m0.
    destruct (CleaningMonitoringSystem.machines s !! id); reflexivity. }
  intros k y' Hk. specialize (Hfleet k).
  unfold Machine.get_total_work_time_in_yard in Hfleet at 2.
  rewrite Hh in Hfleet.
  destruct Hcases as [(Hy & _ & Hno)|(cur & yard & Hc & Hd & Hw & Hcur & Hy & _)].
  - rewrite Hy in Hk. rewrite (Hacc k y' Hk).
    assert (Hsame : default 0
              (match Machine.current_yard_id m0 with
               | Some cur =>
                   if dwell_credited m0 message
                   then Machine._add_work_time
                          (Machine.yard_work_history m0) cur w
                   else Machine.yard_work_history m0
               | None => Machine.yard_work_history m0
               end !! k)
            = Machine.get_total_work_time_in_yard m0 k).
    { destruct (Machine.current_yard_id m0) as [cur|] eqn:Ec; [|reflexivity].
      destruct (dwell_credited m0 message) eqn:Ed; [|reflexivity].
      rewrite add_work_time_lookup_ne; [reflexivity|].
      intros ->. specialize (Hno k y' eq_refl Hk). discriminate Hno. }
    rewrite Hsame in Hfleet. lra.
  - rewrite Hc, Hd in Hfleet. rewrite Hy in Hk.
    destruct (decide (cur = k)) as [<-|Hne].
    + rewrite lookup_insert_eq in Hk. injection Hk as <-.
      rewrite add_work_time_lookup in Hfleet. simpl in Hfleet.
      fold (Machine.get_total_work_time_in_yard m0 cur) in Hfleet.
      rewrite add_work_time_total.
      apply Qlt_not_le in Hw.
      destruct (Qle_bool w 0) eqn:E; [apply Qle_bool_iff in E; contradiction|].
      rewrite (Hacc cur yard Hcur). lra.
    + rewrite lookup_insert_ne in Hk by exact Hne.
      rewrite add_work_time_lookup_ne in Hfleet by exact Hne.
      fold (Machine.get_total_work_time_in_yard m0 k) in Hfleet.
      rewrite (Hacc k y' Hk). lra.
Qed.

(** Work time is accounted for twice and the two books agree: after
    [load_yard_directory] on a new system and a batch run over any message
    list, the total work time of every yard of the directory equals, in
    exact arithmetic, the dwell that all machines together have recorded
    for that yard. *)
Theorem yard_work_time_is_fleet_dwell
    (realtime_mode : bool)
    (yard_data : list CleaningMonitoringSystem.yard_info)
    (messages : list CleaningMonitoringSystem.message_data) (k : Z) :
  let s0 := fst (CleaningMonitoringSystem.load_yard_directory
                   (CleaningMonitoringSystem.init realtime_mode) yard_data) in
  let s := fst (CleaningMonitoringSystem._process_messages_batch
                  fromisoformat s0 messages) in
  match CleaningMonitoringSystem.yards s !! k with
  | Some y =>
      Yard.total_work_time y
      == fleet_dwell (CleaningMonitoringSystem.machines s) k
  | None => True
  end.
Proof.
  cbv zeta.
  destruct (loaded_directory realtime_mode yard_data)
    as (_ & _ & Hfresh & Hmach & _).
  set (s0 := fst (CleaningMonitoringSystem.load_yard_directory
                    (CleaningMonitoringSystem.init realtime_mode) yard_data))
    in *.
  assert (H0 : work_time_accounted s0).
  { intros k' y Hk. rewrite (proj2 (Hfresh k' y Hk)), Hmach.
    unfold fleet_dwell. rewrite sum_over_empty. reflexivity. }
  assert (H : work_time_accounted
                (fst (CleaningMonitoringSystem._process_messages_batch
                        fromisoformat s0 messages))).
  { revert H0.
    apply (batch_rel_ind fromisoformat
             (fun a b => work_time_accounted a -> work_time_accounted b)).
    - auto.
    - auto.
    - intros a data. apply single_message_accounted. }
  destruct (CleaningMonitoringSystem.yards
              (fst (CleaningMonitoringSystem._process_messages_batch
                      fromisoformat s0 messages)) !! k) as [y|] eqn:E;
    [|exact I].
  exact (H k y E).
Qed.

End BatchStores.

Lemma batch_keeps_machines_well_formed_witness :
  machines_inv
    (CleaningMonitoringSystem.machines
       (fst (CleaningMonitoringSystem._process_messages_batch
               digits_clock fresh_system batch_messages))).
Proof.
  apply (batch_keeps_machines_well_formed digits_clock fresh_system
           batch_messages).
  intros id m H. simpl in H. rewrite lookup_empty in H. discriminate H.
Defined.


(** ** The transport simulator *)

Section SimulatorExtras.
Local Open Scope Q_scope.

Variable rng : Type.
Variable random_random : rng -> Q * rng.
Variable random_uniform : Q -> Q -> rng -> Q * rng.
Variable random_choice : rng -> MessageTransmissionSimulator.error_type * rng.
Variable round2 : Q -> Q.

Abbreviation transmit :=
  (MessageTransmissionSimulator.transmit rng random_random random_uniform
     random_choice round2).
Abbreviation simulate_transmission :=
  (MessageTransmissionSimulator.simulate_transmission rng random_random
     random_uniform random_choice round2).

Lemma add_coordinate_error_key
    (message : CleaningMonitoringSystem.message_data) (g : rng) :
  message_key
    (fst (MessageTransmissionSimulator._add_coordinate_error rng random_uniform
            random_choice round2 message g))
  = message_key message.
Proof.
  unfold MessageTransmissionSimulator._add_coordinate_error.
  destruct (random_choice g) as [[] g1].
  - destruct (random_uniform (-8) 8 g1) as [ox g2].
    destruct (random_uniform (-8) 8 g2) as [oy g3]. reflexivity.
  - destruct (random_uniform (-4) 4 g1) as [ox g2].
    destruct (random_uniform (-4) 4 g2) as [oy g3]. reflexivity.
  - reflexivity.
  - destruct (random_uniform 0.85 1.15 g1) as [sc g2]. reflexivity.
Qed.

(** The loop of [simulate_transmission], whatever the random draws. *)
Lemma transmit_spec
    (messages : list CleaningMonitoringSystem.message_data) :
  forall (self : MessageTransmissionSimulator.t)
         (queue : list (option CleaningMonitoringSystem.message_data))
         (speed : Q) (g : rng)
         (self' : MessageTransmissionSimulator.t)
         (queue' : list (option CleaningMonitoringSystem.message_data))
         (g' : rng) (out : option MessageTransmissionSimulator.failure),
    transmit self messages queue speed g = (self', queue', g', out) ->
    exists delivered,
      queue' = queue ++ map Some delivered /\
      map message_key delivered `sublist_of` map message_key messages /\
      (MessageTransmissionSimulator.total_lost self
       <= MessageTransmissionSimulator.total_lost self')%Z /\
      (MessageTransmissionSimulator.total_delayed self
       <= MessageTransmissionSimulator.total_delayed self')%Z /\
      (MessageTransmissionSimulator.total_with_errors self
       <= MessageTransmissionSimulator.total_with_errors self')%Z /\
      (MessageTransmissionSimulator.total_lost self'
       - MessageTransmissionSimulator.total_lost self
       + Z.of_nat (length delivered)
       <= MessageTransmissionSimulator.total_generated self'
          - MessageTransmissionSimulator.total_generated self
       <= Z.of_nat (length messages))%Z /\
      (out = None ->
       (MessageTransmissionSimulator.total_generated self'
        = MessageTransmissionSimulator.total_generated self
          + Z.of_nat (length messages))%Z /\
       (MessageTransmissionSimulator.total_lost self'
        - MessageTransmissionSimulator.total_lost self
        + Z.of_nat (length delivered) = Z.of_nat (length messages))%Z /\
       (MessageTransmissionSimulator.total_delayed self'
        - MessageTransmissionSimulator.total_delayed self
        <= Z.of_nat (length delivered))%Z /\
       (MessageTransmissionSimulator.total_with_errors self'
        - MessageTransmissionSimulator.total_with_errors self
        <= Z.of_nat (length delivered))%Z).
Proof.
  induction messages as [|message rest IH];
    intros self queue speed g self' queue' g' out Hrun.
  - simpl in Hrun. injection Hrun as <- <- <- <-.
    exists []. rewrite app_nil_r. simpl.
    repeat split; try lia; constructor.
  - cbn [MessageTransmissionSimulator.transmit] in Hrun.
    destruct (random_random g) as [r g1].
    cbn [MessageTransmissionSimulator.loss_rate
         MessageTransmissionSimulator.set_counters] in Hrun.
    destruct (Qlt_bool r (MessageTransmissionSimulator.loss_rate self)).
    + (* lost *)
      cbn [MessageTransmissionSimulator.message_interval
           MessageTransmissionSimulator.set_counters] in Hrun.
      destruct (random_uniform 0.5
                  (MessageTransmissionSimulator.message_interval self) g1)
        as [pause g2].
      destruct (MessageTransmissionSimulator.sleep pause speed) as [e|].
      * injection Hrun as <- <- <- <-. exists []. rewrite app_nil_r.
        cbn. repeat split; try lia; try discriminate.
        apply sublist_nil_l.
      * apply IH in Hrun as (delivered & Hq & Hsub & H1 & H2 & H3 & H4 & H5).
        cbn in H1, H2, H3, H4, H5.
        exists delivered. split; [exact Hq|].
        split; [simpl; apply sublist_cons; exact Hsub|].
        simpl length. rewrite Nat2Z.inj_succ.
        repeat split; try lia;
          match goal with
          | Ho : out = None |- _ => destruct (H5 Ho) as (? & ? & ? & ?); lia
          end.
    + (* delivered *)
      cbn [MessageTransmissionSimulator.max_delay
           MessageTransmissionSimulator.set_counters] in Hrun.
      destruct (random_uniform 0 (MessageTransmissionSimulator.max_delay self) g1)
        as [delay g2].
      set (self1 :=
             if Qlt_bool 0.8 delay
             then MessageTransmissionSimulator.set_counters _ _ _ _ _
             else _) in Hrun.
      assert (Hself1 :
        MessageTransmissionSimulator.total_generated self1
        = (MessageTransmissionSimulator.total_generated self + 1)%Z /\
        MessageTransmissionSimulator.total_lost self1
        = MessageTransmissionSimulator.total_lost self /\
        (MessageTransmissionSimulator.total_delayed self
         <= MessageTransmissionSimulator.total_delayed self1
         <= MessageTransmissionSimulator.total_delayed self + 1)%Z /\
        MessageTransmissionSimulator.total_with_errors self1
        = MessageTransmissionSimulator.total_with_errors self).
      { subst self1. destruct (Qlt_bool 0.8 delay); cbn; repeat split; lia. }
      clearbody self1. destruct Hself1 as (Hg1 & Hl1 & Hd1 & He1).
      destruct (random_random g2) as [r2 g3].
      set (step :=
             if Qlt_bool r2
                  (MessageTransmissionSimulator.coordinate_error_rate self1)
             then _ else _) in Hrun.
      assert (Hstep : exists self2 processed g4,
        step = (self2, processed, g4) /\
        message_key processed = message_key message /\
        MessageTransmissionSimulator.total_generated self2
        = MessageTransmissionSimulator.total_generated self1 /\
        MessageTransmissionSimulator.total_lost self2
        = MessageTransmissionSimulator.total_lost self1 /\
        MessageTransmissionSimulator.total_delayed self2
        = MessageTransmissionSimulator.total_delayed self1 /\
        (MessageTransmissionSimulator.total_with_errors self1
         <= MessageTransmissionSimulator.total_with_errors self2
         <= MessageTransmissionSimulator.total_with_errors self1 + 1)%Z /\
        MessageTransmissionSimulator.message_interval self2
        = MessageTransmissionSimulator.message_interval self1).
      { subst step.
        destruct (Qlt_bool r2
                    (MessageTransmissionSimulator.coordinate_error_rate self1)).
        - pose proof (add_coordinate_error_key message g3) as Hkey.
          destruct (MessageTransmissionSimulator._add_coordinate_error
                      rng random_uniform random_choice round2 message g3)
            as [corrupted g4].
          do 3 eexists. split; [reflexivity|]. cbn. repeat split; try lia.
          exact Hkey.
        - do 3 eexists. split; [reflexivity|]. repeat split; lia. }
      clearbody step.
      destruct Hstep as (self2 & processed & g4 & -> & Hkey & Hg2 & Hl2 & Hd2
                         & He2 & _).
      destruct (MessageTransmissionSimulator.sleep delay speed) as [e|].
      * injection Hrun as <- <- <- <-. exists []. rewrite app_nil_r.
        simpl length. rewrite Nat2Z.inj_succ.
        repeat split; try lia; try discriminate. apply sublist_nil_l.
      * destruct (random_uniform
                    (MessageTransmissionSimulator.message_interval self2 * 0.8)
                    (MessageTransmissionSimulator.message_interval self2 * 1.2)
                    g4) as [interval g5].
        destruct (MessageTransmissionSimulator.sleep interval speed) as [e|].
        -- injection Hrun as <- <- <- <-. exists [processed].
           simpl length. rewrite Nat2Z.inj_succ.
           split; [reflexivity|]. split.
           { simpl. rewrite Hkey. apply sublist_skip. apply sublist_nil_l. }
           repeat split; try lia; try discriminate.
        -- apply IH in Hrun as (delivered & Hq & Hsub & H1 & H2 & H3 & H4 & H5).
           exists (processed :: delivered). split.
           { rewrite Hq, <- app_assoc. reflexivity. }
           split.
           { simpl. rewrite Hkey. apply sublist_skip. exact Hsub. }
           simpl length. rewrite !Nat2Z.inj_succ.
           repeat split; try lia;
          match goal with
          | Ho : out = None |- _ => destruct (H5 Ho) as (? & ? & ? & ?); lia
          end.
Qed.

(** [simulate_transmission] never reorders, duplicates or invents a report:
    whatever the random draws, the queue afterwards is the queue before,
    followed by delivered reports and, if the run was not interrupted, by
    the sentinel [None]; the delivered reports, coordinates aside, are a
    subsequence of the input list.  With a zero [processing_speed] the run
    stops with a division error before anything is counted or put. *)
Theorem transmission_keeps_order
    (self : MessageTransmissionSimulator.t)
    (messages : list CleaningMonitoringSystem.message_data)
    (queue : list (option CleaningMonitoringSystem.message_data))
    (speed : Q) (g : rng)
    (self' : MessageTransmissionSimulator.t)
    (queue' : list (option CleaningMonitoringSystem.message_data))
    (g' : rng) (out : option MessageTransmissionSimulator.failure) :
  simulate_transmission self messages queue speed g = (self', queue', g', out) ->
  (exists delivered,
     queue' = queue ++ map Some delivered
              ++ match out with None => [None] | Some _ => [] end /\
     map message_key delivered `sublist_of` map message_key messages) /\
  (speed == 0 ->
   out = Some MessageTransmissionSimulator.ZeroDivisionError /\
   queue' = queue /\ self' = self).
Proof.
  unfold MessageTransmissionSimulator.simulate_transmission. intros Hrun.
  destruct (Qeq_bool speed 0) eqn:Es.
  - injection Hrun as <- <- <- <-. split.
    + exists []. rewrite app_nil_r. split; [reflexivity|apply sublist_nil_l].
    + intros _. repeat split.
  - destruct (transmit self messages queue speed g) as [[[self1 queue1] g1] out1]
      eqn:Et.
    apply transmit_spec in Et as (delivered & Hq & Hsub & _).
    split.
    + exists delivered.
      destruct out1; injection Hrun as <- <- <- <-; rewrite Hq.
      * rewrite app_nil_r. split; [reflexivity|exact Hsub].
      * rewrite <- app_assoc. split; [reflexivity|exact Hsub].
    + intros H0. apply Qeq_bool_iff in H0. congruence.
Qed.

(** After an uninterrupted run of a new simulator, [get_transmission_stats]
    accounts for every report: the generated count is the length of the
    input, lost and delivered counts are not negative and add up to it, the
    queue has grown by the delivered reports and the sentinel, delayed and
    corrupted reports are at most the delivered ones, and both rates lie
    between 0 and 100. *)
Theorem transmission_stats_account_for_every_report
    (interval loss error_rate delay : Q)
    (messages : list CleaningMonitoringSystem.message_data)
    (queue : list (option CleaningMonitoringSystem.message_data))
    (speed : Q) (g : rng)
    (self' : MessageTransmissionSimulator.t)
    (queue' : list (option CleaningMonitoringSystem.message_data))
    (g' : rng) :
  simulate_transmission
    (MessageTransmissionSimulator.init interval loss error_rate delay)
    messages queue speed g = (self', queue', g', None) ->
  let st := MessageTransmissionSimulator.get_transmission_stats self' in
  MessageTransmissionSimulator.st_total_generated st
  = Z.of_nat (length messages) /\
  (0 <= MessageTransmissionSimulator.st_total_lost st)%Z /\
  (0 <= MessageTransmissionSimulator.st_total_delivered st)%Z /\
  (MessageTransmissionSimulator.st_total_lost st
   + MessageTransmissionSimulator.st_total_delivered st
   = Z.of_nat (length messages))%Z /\
  (Z.of_nat (length queue')
   = Z.of_nat (length queue)
     + MessageTransmissionSimulator.st_total_delivered st + 1)%Z /\
  (0 <= MessageTransmissionSimulator.st_total_delayed st
   <= MessageTransmissionSimulator.st_total_delivered st)%Z /\
  (0 <= MessageTransmissionSimulator.st_total_with_errors st
   <= MessageTransmissionSimulator.st_total_delivered st)%Z /\
  0 <= MessageTransmissionSimulator.st_delivery_rate st /\
  MessageTransmissionSimulator.st_delivery_rate st <= 100 /\
  0 <= MessageTransmissionSimulator.st_error_rate st /\
  MessageTransmissionSimulator.st_error_rate st <= 100.
Proof.
  unfold MessageTransmissionSimulator.simulate_transmission. intros Hrun.
  destruct (Qeq_bool speed 0); [discriminate Hrun|].
  destruct (transmit _ messages queue speed g) as [[[self1 queue1] g1] out1]
    eqn:Et.
  destruct out1; [discriminate Hrun|]. injection Hrun as <- <- <-.
  apply transmit_spec in Et
    as (delivered & Hq & _ & Hl & Hd & He & _ & Hdone).
  destruct (Hdone eq_refl) as (Hgen & Hsum & Hdel & Herr).
  cbn [MessageTransmissionSimulator.init
       MessageTransmissionSimulator.total_generated
       MessageTransmissionSimulator.total_lost
       MessageTransmissionSimulator.total_delayed
       MessageTransmissionSimulator.total_with_errors]
    in Hl, Hd, He, Hgen, Hsum, Hdel, Herr.
  assert (Hlen : Z.of_nat (length (queue1 ++ [None]))
                 = (Z.of_nat (length queue)
                    + Z.of_nat (length delivered) + 1)%Z).
  { rewrite Hq, !length_app, length_map. simpl. lia. }
  unfold MessageTransmissionSimulator.get_transmission_stats. cbv zeta.
  cbn [MessageTransmissionSimulator.st_total_generated
       MessageTransmissionSimulator.st_total_delivered
       MessageTransmissionSimulator.st_total_lost
       MessageTransmissionSimulator.st_total_delayed
       MessageTransmissionSimulator.st_total_with_errors
       MessageTransmissionSimulator.st_delivery_rate
       MessageTransmissionSimulator.st_error_rate].
  set (n := MessageTransmissionSimulator.total_generated self1) in *.
  set (l := MessageTransmissionSimulator.total_lost self1) in *.
  set (e := MessageTransmissionSimulator.total_with_errors self1) in *.
  clearbody n l e.
  assert (Hrate : forall a b : Z, (0 <= a <= b)%Z ->
            0 <= (if (0 <? b)%Z then inject_Z a / inject_Z b * 100 else 0)
            /\ (if (0 <? b)%Z then inject_Z a / inject_Z b * 100 else 0) <= 100).
  { intros a b [Ha Hab]. destruct (0 <? b)%Z eqn:E; [|split; lra].
    apply Z.ltb_lt in E.
    assert (HbQ : 0 < inject_Z b)
      by (change 0 with (inject_Z 0); rewrite <- Zlt_Qlt; exact E).
    assert (HaQ : 0 <= inject_Z a)
      by (change 0 with (inject_Z 0); rewrite <- Zle_Qle; exact Ha).
    assert (HabQ : inject_Z a <= inject_Z b)
      by (rewrite <- Zle_Qle; exact Hab).
    assert (0 <= inject_Z a / inject_Z b) by (apply Qle_shift_div_l; lra).
    assert (inject_Z a / inject_Z b <= 1) by (apply Qle_shift_div_r; lra).
    split; lra. }
  destruct (Hrate (n - l)%Z n ltac:(lia)) as [R1 R2].
  destruct (Hrate e (n - l)%Z ltac:(lia)) as [R3 R4].
  repeat split; try lia; assumption.
Qed.




End SimulatorExtras.

Lemma transmission_keeps_order_witness :
  exists delivered,
    [Some (CleaningMonitoringSystem.mk_message_data 7 "0" 1 1 (Some 1%Z));
     Some (CleaningMonitoringSystem.mk_message_data 7 "2000000" 1 2 (Some 1%Z));
     None]
    = [] ++ map Some delivered ++ [None] /\
    map message_key delivered `sublist_of` map message_key transmitted_messages.
Proof.
  exact (proj1 (transmission_keeps_order (list Q) listed_random
                  lower_bound_uniform always_swap (fun x => x)
                  realtime_simulator transmitted_messages [] 1
                  [0.5; 0.9; 0.01; 0.2; 0.001]%Q _ _ _ None eq_refl)).
Defined.

Lemma transmission_stats_account_for_every_report_witness :
  MessageTransmissionSimulator.st_total_generated
    (MessageTransmissionSimulator.get_transmission_stats
       (fst (fst (fst (MessageTransmissionSimulator.simulate_transmission
                         (list Q) listed_random lower_bound_uniform always_swap
                         (fun x => x) realtime_simulator transmitted_messages
                         [] 1 [0.5; 0.9; 0.01; 0.2; 0.001]%Q)))))
  = 3%Z.
Proof.
  exact (proj1 (transmission_stats_account_for_every_report (list Q)
                  listed_random lower_bound_uniform always_swap (fun x => x)
                  1 0.06 0.015 2 transmitted_messages [] 1
                  [0.5; 0.9; 0.01; 0.2; 0.001]%Q _ _ _ eq_refl)).
Defined.

